(** * RealTimeAVPlayer: playback pipeline, shallow embedding and properties

    The development follows the C++ classes of the player: [Demuxer],
    [Decoder], [StreamSource], [AudioPlayer], [Player].  Every class is a
    module holding a record for the object's fields and one function per
    method, with explicit state passing.  A method is one step on its
    object; what the other threads do in between appears as further calls in
    a sequence of calls.  Fixed-width integers are [Z] with their wrap-around
    written out; byte buffers are [list byte]; a [double] is the rational it
    denotes, and an operation on doubles is the exact operation followed by
    [binary64], the rounding to the nearest double (the volume arithmetic,
    a scaling by 128 and a rounding to an integer, is exact without it).  What FFmpeg, SDL and GLFW
    decide is a parameter: [FFmpeg.Lib], [AudioPlayer.Host],
    [GLRenderer.Host], and the files in [FFmpeg.FileSystem]. *)

From Stdlib Require Import ZArith QArith Qround Qabs Qminmax Lia Lqa Bool.
From Stdlib Require Import Strings.Byte Strings.String.
From stdpp Require Import base list.

Local Open Scope Z_scope.

(** ** Machine integers and FFmpeg constants *)

Module Media.

(** [mediadefs.h]: the stream kind every component is parameterised by. *)
Inductive Type_ := Video | Audio.

(** [size_t] and [uint64_t]: arithmetic modulo 2^64. *)
Definition U64 : Z := 2 ^ 64.
Definition wrap_u64 (z : Z) : Z := z mod U64.

(** [int64_t]: two's complement, the representative in [-2^63, 2^63). *)
Definition INT64_MIN : Z := - 2 ^ 63.
Definition INT64_MAX : Z := 2 ^ 63 - 1.
Definition wrap_s64 (z : Z) : Z := (z + 2 ^ 63) mod U64 - 2 ^ 63.

(** libavutil: [AV_TIME_BASE], [AV_NOPTS_VALUE]. *)
Definition AV_TIME_BASE : Z := 1000000.
Definition AV_NOPTS_VALUE : Z := INT64_MIN.

(** SDL: [SDL_MIX_MAXVOLUME]. *)
Definition SDL_MIX_MAXVOLUME : Z := 128.

(** [int]: 32-bit two's complement. *)
Definition wrap_s32 (z : Z) : Z := (z + 2 ^ 31) mod 2 ^ 32 - 2 ^ 31.

(** A [double] argument, where only its order against constants and an
    exact scaling by a power of two matter: not-a-number, an infinity, or
    a finite value taken as the rational it denotes. *)
Inductive double := NaN | Inf (negative : bool) | Fin (q : Q).

Definition Qltb (a b : Q) : bool := Qnum a * QDen b <? Qnum b * QDen a.

(** [std::round]: to the nearest integer, halves away from zero. *)
Definition round (q : Q) : Z :=
  if Qltb q 0 then - Qfloor (- q + (1 # 2))%Q else Qfloor (q + (1 # 2))%Q.

Definition isnan (d : double) : bool :=
  match d with NaN => true | _ => false end.

(** [a < b] on doubles: false as soon as one side is not a number. *)
Definition dlt (a b : double) : bool :=
  match a, b with
  | NaN, _ | _, NaN => false
  | Inf true, Inf true => false
  | Inf true, _ => true
  | _, Inf true => false
  | Inf false, _ => false
  | _, Inf false => true
  | Fin x, Fin y => Qltb x y
  end.

(** [d * static_cast<double>(m)] for a positive integer [m]. *)
Definition dmul_int (d : double) (m : Z) : double :=
  match d with Fin q => Fin (q * inject_Z m) | _ => d end.

(** [std::round] on a double; the result is integral. *)
Definition dround (d : double) : double :=
  match d with Fin q => Fin (inject_Z (round q)) | _ => d end.

(** [static_cast<int>] of an integral double in the range of [int]; the
    conversion of anything else is undefined in C++ and given as 0. *)
Definition to_int (d : double) : Z :=
  match d with Fin q => wrap_s32 (Qfloor q) | _ => 0 end.

(** Rounding to the nearest [double] (binary64: 53 significant bits, ties
    to even), for magnitudes in the normal range.  [ilog2 n d] is the
    exponent [e] with [2^e <= n/d < 2^(e+1)]; [round_even n d] is the
    integer nearest to [n/d], the even one at a tie. *)
Definition ilog2 (n d : Z) : Z :=
  let l := Z.log2 n - Z.log2 d in
  if (if 0 <=? l then n <? d * 2 ^ l else n * 2 ^ (- l) <? d) then l - 1 else l.

Definition round_even (n d : Z) : Z :=
  let q := n / d in
  let r := n mod d in
  if 2 * r <? d then q
  else if d <? 2 * r then q + 1
  else if Z.even q then q else q + 1.

Definition binary64 (x : Q) : Q :=
  let n := Z.abs (Qnum x) in
  let d := QDen x in
  if n =? 0 then 0%Q
  else
    let u := ilog2 n d - 52 in
    let r :=
      if 0 <=? u then inject_Z (round_even n (d * 2 ^ u) * 2 ^ u)
      else (inject_Z (round_even (n * 2 ^ (- u)) d) / inject_Z (2 ^ (- u)))%Q in
    if Qnum x <? 0 then (- r)%Q else r.

(** [static_cast<int64_t>] of a double within the range of [int64_t]: the
    fraction is dropped. *)
Definition to_int64 (x : Q) : Z := Z.quot (Qnum x) (QDen x).

(** [memcpy(&buf[off], src, length src)] on a vector that holds the
    destination range. *)
Definition memcpy_to (buf : list byte) (off : Z) (src : list byte) : list byte :=
  list_inserts (Z.to_nat off) src buf.

(** [memcpy(out, &buf[off], n)]: the [n] bytes read. *)
Definition memcpy_from (buf : list byte) (off n : Z) : list byte :=
  take (Z.to_nat n) (drop (Z.to_nat off) buf).

End Media.
Import Media.

(** ** The container and codec library, as the player sees it *)

Module FFmpeg.

Definition AVRational : Type := Z * Z.
Definition AV_TIME_BASE_Q : AVRational := (1, AV_TIME_BASE).

Inductive AVMediaType := AVMEDIA_TYPE_VIDEO | AVMEDIA_TYPE_AUDIO | AVMEDIA_TYPE_OTHER.

Definition AVERROR_EINVAL : Z := -22.
Definition AVERROR_EOF : Z := -541478725.
Definition AVSEEK_FLAG_BACKWARD : Z := 1.

(** The fields of [AVStream] and its [codecpar] that the player reads.
    [codec_found] is the joint outcome of [avcodec_find_decoder] and
    [avcodec_alloc_context3] on this stream, [codec_usable] that of
    [avcodec_parameters_to_context] and [avcodec_open2]. *)
Record AVStream := mkAVStream {
  codec_type : AVMediaType;
  time_base : AVRational;
  avg_frame_rate : AVRational;
  r_frame_rate : AVRational;
  stream_duration : Z;
  par_sample_rate : Z;
  par_channels : Z;
  par_format : Z;
  par_width : Z;
  par_height : Z;
  par_ch_mask : Z;
  codec_found : bool;
  codec_usable : bool
}.

Record AVPacket := mkAVPacket {
  stream_index : Z;
  packet_pts : Z;
  packet_size : Z;
  packet_data : nat
}.

Record AVFrame := mkAVFrame {
  frame_pts : Z;
  frame_duration : Z;
  nb_samples : Z;
  frame_data : nat
}.

(** What one call of [av_read_frame] yields: a packet or an error code;
    an exhausted list yields [AVERROR_EOF]. *)
Inductive ReadItem := ReadPacket (p : AVPacket) | ReadError (code : Z).

Record AVFormatContext := mkAVFormatContext {
  streams : list AVStream;
  ctx_duration : Z;
  upcoming : list ReadItem
}.

(** A file on disk: whether [avformat_open_input] and
    [avformat_find_stream_info] succeed, and the context they give. *)
Record MediaFile := mkMediaFile {
  find_stream_info_ok : bool;
  context : AVFormatContext
}.

Definition FileSystem : Type := string -> option MediaFile.

(** Library functions whose results the player only consumes.
    [avcodec_send_packet st history pkt] gives the return code and the
    frames that become available, from the packets sent since the last
    flush. *)
Record Lib := mkLib {
  av_rescale_q : Z -> AVRational -> AVRational -> Z;
  av_seek_frame : AVFormatContext -> Z -> Z -> Z -> Z * AVFormatContext;
  avcodec_send_packet :
    list (option AVPacket) -> option AVPacket -> Z * list AVFrame;
  av_frame_clone : AVFrame -> option AVFrame
}.

End FFmpeg.
Import FFmpeg.

(** ** Demuxer *)

Module Demuxer.

Record t := mk {
  type_ : Type_;
  format_ctx_ : option AVFormatContext;
  stream_ : option AVStream;
  stream_index_ : Z;
  eof_ : bool
}.

(** The constructor. *)
Definition new (type : Type_) : t := mk type None None (-1) false.

Definition close (d : t) : t := mk (type_ d) None None (-1) false.

Definition matches (type : Type_) (st : AVStream) : bool :=
  match type, codec_type st with
  | Video, AVMEDIA_TYPE_VIDEO => true
  | Audio, AVMEDIA_TYPE_AUDIO => true
  | _, _ => false
  end.

(** The loop over [format_ctx_->streams]: index and stream of the first
    match, starting at index [i]. *)
Fixpoint find_stream (type : Type_) (sts : list AVStream) (i : Z)
  : option (Z * AVStream) :=
  match sts with
  | [] => None
  | st :: rest =>
    if matches type st then Some (i, st) else find_stream type rest (i + 1)
  end.

Definition open (fs : FileSystem) (filename : string) (d : t) : bool * t :=
  match filename with
  | EmptyString => (false, d)
  | _ =>
    match fs filename with
    | None => (false, d)
    | Some file =>
      let d1 := mk (type_ d) (Some (context file)) (stream_ d) (stream_index_ d) (eof_ d) in
      if negb (find_stream_info_ok file) then (false, close d1)
      else
        let d2 :=
          match find_stream (type_ d1) (streams (context file)) 0 with
          | Some (i, st) => mk (type_ d1) (format_ctx_ d1) (Some st) i (eof_ d1)
          | None => d1
          end in
        if stream_index_ d2 <? 0 then (false, close d2)
        else (true, mk (type_ d2) (format_ctx_ d2) (stream_ d2) (stream_index_ d2) false)
    end
  end.

(** The [while (true)] of [readNextPacket] over what the file still holds:
    the packet returned, what is left, and whether EOF was seen. *)
Fixpoint read_loop (index : Z) (items : list ReadItem)
  : option AVPacket * list ReadItem * bool :=
  match items with
  | [] => (None, [], true)
  | ReadError code :: rest => (None, rest, code =? AVERROR_EOF)
  | ReadPacket p :: rest =>
    if stream_index p =? index then (Some p, rest, false)
    else read_loop index rest
  end.

Definition readNextPacket (d : t) : option AVPacket * t :=
  match format_ctx_ d with
  | None => (None, d)
  | Some ctx =>
    if stream_index_ d <? 0 then (None, d)
    else
      let '(p, rest, saw_eof) := read_loop (stream_index_ d) (upcoming ctx) in
      (p, mk (type_ d)
             (Some (mkAVFormatContext (streams ctx) (ctx_duration ctx) rest))
             (stream_ d) (stream_index_ d)
             (if saw_eof then true else eof_ d))
  end.

Definition seek (L : Lib) (timestamp flags : Z) (d : t) : bool * t :=
  match format_ctx_ d with
  | None => (false, d)
  | Some ctx =>
    if stream_index_ d <? 0 then (false, d)
    else
      match streams ctx !! Z.to_nat (stream_index_ d) with
      | None => (false, d)
      | Some stream =>
        let seek_target := av_rescale_q L timestamp AV_TIME_BASE_Q (time_base stream) in
        let '(ret, ctx') := av_seek_frame L ctx (stream_index_ d) seek_target flags in
        let d' := mk (type_ d) (Some ctx') (stream_ d) (stream_index_ d) (eof_ d) in
        if ret <? 0 then (false, d')
        else (true, mk (type_ d') (format_ctx_ d') (stream_ d') (stream_index_ d') false)
      end
  end.

Definition getDuration (L : Lib) (d : t) : Z :=
  match format_ctx_ d with
  | None => 0
  | Some ctx =>
    if negb (ctx_duration ctx =? AV_NOPTS_VALUE) then ctx_duration ctx
    else
      match stream_ d with
      | Some st =>
        if negb (stream_duration st =? AV_NOPTS_VALUE)
        then av_rescale_q L (stream_duration st) (time_base st) AV_TIME_BASE_Q
        else 0
      | None => 0
      end
  end.

Definition isEOF (d : t) : bool := eof_ d.
Definition isOpen (d : t) : bool :=
  match format_ctx_ d with Some _ => true | None => false end.
Definition getStreamIndex (d : t) : Z := stream_index_ d.
Definition getAVStream (d : t) : option AVStream := stream_ d.

End Demuxer.

(** ** Decoder *)

Module Decoder.

Record Config := mkConfig {
  sample_rate : Z;
  channels : Z;
  sample_format : Z;
  width : Z;
  height : Z;
  pixel_format : Z
}.

(** An open [AVCodecContext]: the packets sent since the last flush and
    the frames ready to be received. *)
Record CodecCtx := mkCodecCtx {
  sent : list (option AVPacket);
  ready : list AVFrame
}.

Record t := mk {
  type_ : Type_;
  config_ : Config;
  codec_ctx_ : option CodecCtx;
  swr_ctx_ : bool
}.

Definition AV_SAMPLE_FMT_NONE : Z := -1.
Definition AV_PIX_FMT_NONE : Z := -1.

Definition new (type : Type_) : t :=
  mk type (mkConfig 0 0 AV_SAMPLE_FMT_NONE 0 0 AV_PIX_FMT_NONE) None false.

Definition releaseCodec (d : t) : t := mk (type_ d) (config_ d) None (swr_ctx_ d).

Definition close (d : t) : t := releaseCodec (mk (type_ d) (config_ d) (codec_ctx_ d) false).

Definition configureCodec (stream : AVStream) (d : t) : bool * t :=
  match type_ d with
  | Audio =>
    (true,
     mk (type_ d)
        (mkConfig (par_sample_rate stream) (par_channels stream) (par_format stream)
                  (width (config_ d)) (height (config_ d)) (pixel_format (config_ d)))
        (codec_ctx_ d) true)
  | Video =>
    (true,
     mk (type_ d)
        (mkConfig (sample_rate (config_ d)) (channels (config_ d))
                  (sample_format (config_ d))
                  (par_width stream) (par_height stream) (par_format stream))
        (codec_ctx_ d) (swr_ctx_ d))
  end.

Definition initializeCodec (stream : AVStream) (d : t) : bool * t :=
  if negb (codec_found stream) then (false, d)
  else if negb (codec_usable stream) then (false, releaseCodec d)
  else
    let d1 := mk (type_ d) (config_ d) (Some (mkCodecCtx [] [])) (swr_ctx_ d) in
    let '(ok, d2) := configureCodec stream d1 in
    if ok then (true, d2) else (false, releaseCodec d2).

Definition open (stream : option AVStream) (d : t) : bool * t :=
  match stream with
  | None => (false, d)
  | Some st =>
    if negb (Demuxer.matches (type_ d) st) then (false, d)
    else initializeCodec st d
  end.

Definition isOpen (d : t) : bool :=
  match codec_ctx_ d with Some _ => true | None => false end.

Definition decodePacket (L : Lib) (packet : option AVPacket) (d : t) : Z * t :=
  match codec_ctx_ d with
  | None => (AVERROR_EINVAL, d)
  | Some ctx =>
    let send :=
      let '(ret, frames) := avcodec_send_packet L (sent ctx) packet in
      if ret <? 0 then (ret, d)
      else (0, mk (type_ d) (config_ d)
                  (Some (mkCodecCtx (sent ctx ++ [packet]) (ready ctx ++ frames)))
                  (swr_ctx_ d)) in
    match packet with
    | None => send
    | Some p => if packet_size p <=? 0 then (AVERROR_EINVAL, d) else send
    end
  end.

Definition receiveFrame (d : t) : option AVFrame * t :=
  match codec_ctx_ d with
  | None => (None, d)
  | Some ctx =>
    match ready ctx with
    | [] => (None, d)
    | f :: rest =>
      (Some f, mk (type_ d) (config_ d) (Some (mkCodecCtx (sent ctx) rest)) (swr_ctx_ d))
    end
  end.

Definition flush (d : t) : t :=
  match codec_ctx_ d with
  | None => d
  | Some _ => mk (type_ d) (config_ d) (Some (mkCodecCtx [] [])) (swr_ctx_ d)
  end.

End Decoder.

(** ** StreamSource *)

Module StreamSource.

(** A decoded frame with its timestamp and duration in microseconds. *)
Record Frame := mkFrame {
  frame : AVFrame;
  pts : Z;
  duration : Z
}.

Inductive State := Stopped | Paused | Running.

Definition State_eqb (a b : State) : bool :=
  match a, b with
  | Stopped, Stopped | Paused, Paused | Running, Running => true
  | _, _ => false
  end.

Record t := mk {
  type_ : Type_;
  fake_pts_ : Z;
  width_ : Z;
  height_ : Z;
  frame_rate_ : Q;
  pixel_fmt_ : Z;
  sample_rate_ : Z;
  channels_ : Z;
  sample_fmt_ : Z;
  channel_layout_ : Z;
  decoder_ : option Decoder.t;
  demuxer_ : option Demuxer.t;
  decoding_thread_ : bool;
  state_ : State;
  eof_ : bool;
  frame_queue_ : list Frame;
  MAX_QUEUE_SIZE : Z
}.

Definition set_fake_pts (v : Z) (s : t) : t :=
  mk (type_ s) v (width_ s) (height_ s) (frame_rate_ s) (pixel_fmt_ s)
     (sample_rate_ s) (channels_ s) (sample_fmt_ s) (channel_layout_ s)
     (decoder_ s) (demuxer_ s) (decoding_thread_ s) (state_ s) (eof_ s)
     (frame_queue_ s) (MAX_QUEUE_SIZE s).

Definition set_decoder (v : option Decoder.t) (s : t) : t :=
  mk (type_ s) (fake_pts_ s) (width_ s) (height_ s) (frame_rate_ s) (pixel_fmt_ s)
     (sample_rate_ s) (channels_ s) (sample_fmt_ s) (channel_layout_ s)
     v (demuxer_ s) (decoding_thread_ s) (state_ s) (eof_ s)
     (frame_queue_ s) (MAX_QUEUE_SIZE s).

Definition set_demuxer (v : option Demuxer.t) (s : t) : t :=
  mk (type_ s) (fake_pts_ s) (width_ s) (height_ s) (frame_rate_ s) (pixel_fmt_ s)
     (sample_rate_ s) (channels_ s) (sample_fmt_ s) (channel_layout_ s)
     (decoder_ s) v (decoding_thread_ s) (state_ s) (eof_ s)
     (frame_queue_ s) (MAX_QUEUE_SIZE s).

Definition set_decoding_thread (v : bool) (s : t) : t :=
  mk (type_ s) (fake_pts_ s) (width_ s) (height_ s) (frame_rate_ s) (pixel_fmt_ s)
     (sample_rate_ s) (channels_ s) (sample_fmt_ s) (channel_layout_ s)
     (decoder_ s) (demuxer_ s) v (state_ s) (eof_ s)
     (frame_queue_ s) (MAX_QUEUE_SIZE s).

Definition set_state (v : State) (s : t) : t :=
  mk (type_ s) (fake_pts_ s) (width_ s) (height_ s) (frame_rate_ s) (pixel_fmt_ s)
     (sample_rate_ s) (channels_ s) (sample_fmt_ s) (channel_layout_ s)
     (decoder_ s) (demuxer_ s) (decoding_thread_ s) v (eof_ s)
     (frame_queue_ s) (MAX_QUEUE_SIZE s).

Definition set_eof (v : bool) (s : t) : t :=
  mk (type_ s) (fake_pts_ s) (width_ s) (height_ s) (frame_rate_ s) (pixel_fmt_ s)
     (sample_rate_ s) (channels_ s) (sample_fmt_ s) (channel_layout_ s)
     (decoder_ s) (demuxer_ s) (decoding_thread_ s) (state_ s) v
     (frame_queue_ s) (MAX_QUEUE_SIZE s).

Definition set_frame_queue (v : list Frame) (s : t) : t :=
  mk (type_ s) (fake_pts_ s) (width_ s) (height_ s) (frame_rate_ s) (pixel_fmt_ s)
     (sample_rate_ s) (channels_ s) (sample_fmt_ s) (channel_layout_ s)
     (decoder_ s) (demuxer_ s) (decoding_thread_ s) (state_ s) (eof_ s)
     v (MAX_QUEUE_SIZE s).

(** [get_frame_pts(frame, packet)] for a non-null frame. *)
Definition get_frame_pts (f : AVFrame) (packet : option AVPacket) : Z :=
  if negb (frame_pts f =? AV_NOPTS_VALUE) then frame_pts f
  else
    match packet with
    | Some p => if negb (packet_pts p =? AV_NOPTS_VALUE) then packet_pts p
                else AV_NOPTS_VALUE
    | None => AV_NOPTS_VALUE
    end.

(** The constructor. *)
Definition new (type : Type_) : t :=
  mk type 0 0 0 0%Q Decoder.AV_PIX_FMT_NONE 0 0 Decoder.AV_SAMPLE_FMT_NONE 0
     None None false Stopped false []
     (match type with Video => 30 | Audio => 50 end).

Definition AV_CH_LAYOUT_MONO : Z := 4.
Definition AV_CH_LAYOUT_STEREO : Z := 3.

Definition rate_of (r : AVRational) : Q :=
  binary64 (inject_Z (fst r) / inject_Z (snd r)).

Definition initializeDecoder (stream : option AVStream) (s : t) : bool * t :=
  match stream, decoder_ s with
  | Some st, Some dec =>
    let '(ok, dec') := Decoder.open (Some st) dec in
    let s1 := set_decoder (Some dec') s in
    if negb ok then (false, s1)
    else
      let config := Decoder.config_ dec' in
      match type_ s1 with
      | Video =>
        let rate :=
          if negb (snd (avg_frame_rate st) =? 0) && negb (fst (avg_frame_rate st) =? 0)
          then rate_of (avg_frame_rate st)
          else if negb (snd (r_frame_rate st) =? 0) && negb (fst (r_frame_rate st) =? 0)
          then rate_of (r_frame_rate st)
          else 0%Q in
        (true,
         mk (type_ s1) (fake_pts_ s1) (Decoder.width config) (Decoder.height config)
            rate (Decoder.pixel_format config)
            (sample_rate_ s1) (channels_ s1) (sample_fmt_ s1) (channel_layout_ s1)
            (decoder_ s1) (demuxer_ s1) (decoding_thread_ s1) (state_ s1) (eof_ s1)
            (frame_queue_ s1) (MAX_QUEUE_SIZE s1))
      | Audio =>
        let layout :=
          if 0 <? par_channels st then par_ch_mask st
          else if Decoder.channels config =? 1 then AV_CH_LAYOUT_MONO
          else AV_CH_LAYOUT_STEREO in
        (true,
         mk (type_ s1) (fake_pts_ s1) (width_ s1) (height_ s1)
            (frame_rate_ s1) (pixel_fmt_ s1)
            (Decoder.sample_rate config) (Decoder.channels config)
            (Decoder.sample_format config) layout
            (decoder_ s1) (demuxer_ s1) (decoding_thread_ s1) (state_ s1) (eof_ s1)
            (frame_queue_ s1) (MAX_QUEUE_SIZE s1))
      end
  | _, _ => (false, s)
  end.

Definition open (fs : FileSystem) (filename : string) (s : t) : bool * t :=
  let '(ok, dmx) := Demuxer.open fs filename (Demuxer.new (type_ s)) in
  let s1 := set_demuxer (Some dmx) s in
  if negb ok then (false, s1)
  else
    match Demuxer.getAVStream dmx with
    | None => (false, set_demuxer (Some (Demuxer.close dmx)) s1)
    | Some stream =>
      let s2 := set_decoder (Some (Decoder.new (type_ s1))) s1 in
      let '(ok', s3) := initializeDecoder (Some stream) s2 in
      if negb ok'
      then (false,
            set_decoder (option_map Decoder.close (decoder_ s3))
              (set_demuxer (option_map Demuxer.close (demuxer_ s3)) s3))
      else (true, set_eof false (set_state Stopped s3))
    end.

(** The frame queue. *)

Definition pushFrameToQueue (f : option Frame) (s : t) : t :=
  match f with
  | None => s
  | Some fr =>
    if MAX_QUEUE_SIZE s <=? Z.of_nat (length (frame_queue_ s)) then s
    else set_frame_queue (frame_queue_ s ++ [fr]) s
  end.

Definition clearFrameQueue (s : t) : t := set_frame_queue [] s.

Definition getNextFrame (s : t) : option Frame * t :=
  match frame_queue_ s with
  | [] => (None, s)
  | f :: rest => (Some f, set_frame_queue rest s)
  end.

(** Worker control. [startDecoding] assigns a new [std::thread] to
    [decoding_thread_]; when the old one is still joinable, as it is after
    [pauseDecoding] or [stopDecoding] (neither joins), the assignment calls
    [std::terminate] and the program ends: [None]. *)

Definition startDecoding (s : t) : option t :=
  if State_eqb (state_ s) Running then Some s
  else
    let s1 :=
      if State_eqb (state_ s) Stopped then set_eof false (clearFrameQueue s) else s in
    let s2 := set_state Running s1 in
    if decoding_thread_ s2 then None
    else Some (set_decoding_thread true s2).

Definition pauseDecoding (s : t) : t :=
  if State_eqb (state_ s) Running then set_state Paused s else s.

Definition resumeDecoding (s : t) : t :=
  if State_eqb (state_ s) Paused then set_state Running s else s.

Definition stopDecoding (s : t) : t := set_state Stopped s.

Definition close (s : t) : t :=
  let s1 := stopDecoding s in
  let s2 := set_decoding_thread false s1 in
  let s3 := clearFrameQueue s2 in
  let s4 :=
    match decoder_ s3 with
    | Some dec => if Decoder.isOpen dec then set_decoder None s3 else s3
    | None => s3
    end in
  let s5 := set_demuxer None s4 in
  set_eof false (set_state Stopped s5).

Definition isEOF (s : t) : bool := eof_ s.

(** [getCurrentTimestamp()]: the timestamp of the frame at the front of the
    queue, 0 on an empty queue. *)
Definition getCurrentTimestamp (s : t) : Z :=
  match frame_queue_ s with
  | [] => 0
  | f :: _ => pts f
  end.

Definition getDuration (L : Lib) (s : t) : Z :=
  match demuxer_ s with
  | Some dmx => Demuxer.getDuration L dmx
  | None => 0
  end.

(** [demuxer_->getAVStream()->time_base]. The code reads through both
    pointers unchecked: the value is that of a source whose demuxer holds
    its stream, as every open demuxer does; where the demuxer or its stream
    is missing the read is undefined, and (0, 1) stands for it. *)
Definition getTimeBase (s : t) : AVRational :=
  match demuxer_ s with
  | Some dmx =>
    match Demuxer.getAVStream dmx with
    | Some st => time_base st
    | None => (0, 1)
    end
  | None => (0, 1)
  end.

(** [static_cast<int64_t>(AV_TIME_BASE / frame_rate_)] for a positive rate. *)
Definition frame_interval (rate : Q) : Z :=
  to_int64 (binary64 (inject_Z AV_TIME_BASE / rate)).

Definition Qpos (q : Q) : bool := 0 <? Qnum q.

(** Drain loop of [processPacket], one [receiveFrame] per round; [fuel]
    bounds the rounds and is the number of ready frames plus one. *)
Fixpoint process_frames (L : Lib) (fuel : nat) (packet : option AVPacket)
    (dec : Decoder.t) (s : t) : Decoder.t * t :=
  match fuel with
  | O => (dec, s)
  | S fuel' =>
    match Decoder.receiveFrame dec with
    | (None, dec') => (dec', s)
    | (Some raw_frame, dec') =>
      let pts_src := get_frame_pts raw_frame packet in
      let pts0 :=
        if negb (pts_src =? AV_NOPTS_VALUE) && bool_decide (is_Some (demuxer_ s))
        then av_rescale_q L pts_src (getTimeBase s) AV_TIME_BASE_Q
        else AV_NOPTS_VALUE in
      let duration :=
        match type_ s with
        | Video =>
          if 0 <? frame_duration raw_frame
          then av_rescale_q L (frame_duration raw_frame) (getTimeBase s) AV_TIME_BASE_Q
          else if Qpos (frame_rate_ s) then frame_interval (frame_rate_ s)
          else 0
        | Audio =>
          if (0 <? nb_samples raw_frame) && (0 <? sample_rate_ s)
          then to_int64
                 (binary64
                    (binary64 (inject_Z (nb_samples raw_frame)
                               / inject_Z (sample_rate_ s))
                     * inject_Z AV_TIME_BASE))
          else 0
        end in
      let '(pts, s1) :=
        if pts0 =? AV_NOPTS_VALUE
        then (av_rescale_q L (fake_pts_ s) AV_TIME_BASE_Q AV_TIME_BASE_Q,
              set_fake_pts
                (wrap_s64 (fake_pts_ s +
                   (if 0 <? duration then duration
                    else match type_ s with
                         | Video => AV_TIME_BASE / 30
                         | Audio => AV_TIME_BASE / 50
                         end))) s)
        else (pts0, s) in
      match av_frame_clone L raw_frame with
      | None => process_frames L fuel' packet dec' s1
      | Some frame_clone =>
        process_frames L fuel' packet dec'
          (pushFrameToQueue (Some (mkFrame frame_clone pts duration)) s1)
      end
    end
  end.

Definition ready_count (dec : Decoder.t) : nat :=
  match Decoder.codec_ctx_ dec with
  | Some ctx => length (Decoder.ready ctx)
  | None => 0
  end.

Definition processPacket (L : Lib) (packet : option AVPacket) (s : t) : t :=
  match decoder_ s with
  | None => s
  | Some dec =>
    if negb (Decoder.isOpen dec) then s
    else
      let '(ret, dec1) := Decoder.decodePacket L packet dec in
      if ret <? 0 then set_decoder (Some dec1) s
      else
        let '(dec2, s') := process_frames L (S (ready_count dec1)) packet dec1 s in
        set_decoder (Some dec2) s'
  end.

(** Which statement ended the decode-forward loop of [seek]: the
    [return true] after the fifth queued frame, the [break] when
    [readNextPacket] gave no packet, or the [return false] when the decoder
    refused a packet. *)
Inductive SeekExit := QueuedFive | NoPacket | SendFailed.

(** Inner loop of [seek]: receive frames until the decoder has none; the
    boolean says that the fifth frame was queued. *)
Fixpoint seek_frames (L : Lib) (fuel : nat) (timestamp : Z)
    (frames_queued_after_target : Z) (dec : Decoder.t) (s : t)
  : bool * Z * Decoder.t * t :=
  match fuel with
  | O => (false, frames_queued_after_target, dec, s)
  | S fuel' =>
    match Decoder.receiveFrame dec with
    | (None, dec') => (false, frames_queued_after_target, dec', s)
    | (Some avframe, dec') =>
      let pts_src := get_frame_pts avframe None in
      let pts :=
        if negb (pts_src =? AV_NOPTS_VALUE)
        then av_rescale_q L pts_src (getTimeBase s) AV_TIME_BASE_Q
        else AV_NOPTS_VALUE in
      if pts =? AV_NOPTS_VALUE
      then seek_frames L fuel' timestamp frames_queued_after_target dec' s
      else
        let duration :=
          match type_ s with
          | Video =>
            if 0 <? frame_duration avframe
            then av_rescale_q L (frame_duration avframe) (getTimeBase s) AV_TIME_BASE_Q
            else if Qpos (frame_rate_ s) then frame_interval (frame_rate_ s)
            else 0
          | Audio =>
            let sr :=
              if 0 <? sample_rate_ s then sample_rate_ s
              else Decoder.sample_rate (Decoder.config_ dec') in
            if 0 <? sr
            then Z.quot (wrap_s64 (nb_samples avframe * AV_TIME_BASE)) sr
            else 0
          end in
        match av_frame_clone L avframe with
        | None => seek_frames L fuel' timestamp frames_queued_after_target dec' s
        | Some frame_clone =>
          if timestamp <=? pts then
            let s1 := pushFrameToQueue (Some (mkFrame frame_clone pts duration)) s in
            let n := frames_queued_after_target + 1 in
            if 5 <=? n then (true, n, dec', s1)
            else seek_frames L fuel' timestamp n dec' s1
          else seek_frames L fuel' timestamp frames_queued_after_target dec' s
        end
    end
  end.

Definition pending_count (s : t) : nat :=
  match demuxer_ s with
  | Some dmx =>
    match Demuxer.format_ctx_ dmx with
    | Some ctx => length (upcoming ctx)
    | None => 0
    end
  | None => 0
  end.

(** Outer loop of [seek]: one [readNextPacket] per round; [fuel] bounds
    the rounds and is the number of items left in the file plus one. *)
Fixpoint seek_packets (L : Lib) (fuel : nat) (timestamp : Z)
    (frames_queued_after_target : Z) (s : t) : SeekExit * t :=
  match fuel with
  | O => (NoPacket, s)
  | S fuel' =>
    match demuxer_ s, decoder_ s with
    | Some dmx, Some dec =>
      let '(packet, dmx') := Demuxer.readNextPacket dmx in
      let s1 := set_demuxer (Some dmx') s in
      match packet with
      | None => (NoPacket, s1)
      | Some p =>
        if negb (stream_index p =? Demuxer.getStreamIndex dmx')
        then seek_packets L fuel' timestamp frames_queued_after_target s1
        else
          let '(ret, dec1) := Decoder.decodePacket L (Some p) dec in
          if ret <? 0 then (SendFailed, set_decoder (Some dec1) s1)
          else
            let '(done, n, dec2, s2) :=
              seek_frames L (S (ready_count dec1)) timestamp
                          frames_queued_after_target dec1 s1 in
            let s3 := set_decoder (Some dec2) s2 in
            if done then (QueuedFive, s3)
            else seek_packets L fuel' timestamp n s3
      end
    | _, _ => (NoPacket, s)
    end
  end.

(** [seek(timestamp)] with the exit taken by its loop; [None] is one of
    the three early [return false]. The decoder exists whenever the
    demuxer is open, which [Demuxer.seek] requires. *)
Definition seek_run (L : Lib) (timestamp : Z) (s : t) : option SeekExit * t :=
  if (timestamp <? 0) || (getDuration L s <? timestamp) then (None, s)
  else
    match demuxer_ s with
    | None => (None, s)
    | Some dmx =>
      let '(ok, dmx') := Demuxer.seek L timestamp AVSEEK_FLAG_BACKWARD dmx in
      let s1 := set_demuxer (Some dmx') s in
      if negb ok then (None, s1)
      else
        let s2 := set_decoder (option_map Decoder.flush (decoder_ s1)) s1 in
        let s3 := set_fake_pts 0 (set_eof false (clearFrameQueue s2)) in
        let '(e, s4) := seek_packets L (S (pending_count s3)) timestamp 0 s3 in
        (Some e, s4)
    end.

Definition seek (L : Lib) (timestamp : Z) (s : t) : bool * t :=
  let '(e, s') := seek_run L timestamp s in
  (match e with
   | Some QueuedFive | Some NoPacket => true
   | Some SendFailed | None => false
   end, s').

End StreamSource.

(** ** AudioPlayer: PCM ring *)

Module AudioPlayer.

(** The four fields guarded by [pcm_mutex_]. *)
Record Ring := mkRing {
  pcm_ring_buf_ : list byte;
  pcm_ring_cap_ : Z;
  pcm_ring_read_ : Z;
  pcm_ring_write_ : Z
}.

(** [pushPCMData(data, bytes)]: [data = None] is the null pointer, and
    otherwise [bytes] is the length of the source buffer. Returns the
    number of bytes written and the ring. *)
Definition pushPCMData (data : option (list byte)) (r : Ring) : Z * Ring :=
  match data with
  | None => (0, r)
  | Some src =>
    let bytes := Z.of_nat (length src) in
    if (bytes =? 0) || (pcm_ring_cap_ r =? 0) then (0, r)
    else
      let free_space :=
        wrap_u64 (pcm_ring_cap_ r - wrap_u64 (pcm_ring_write_ r - pcm_ring_read_ r)) in
      if free_space =? 0 then (0, r)
      else
        let bytes_to_write := Z.min bytes free_space in
        let off := pcm_ring_write_ r mod pcm_ring_cap_ r in
        let first_chunk := Z.min bytes_to_write (wrap_u64 (pcm_ring_cap_ r - off)) in
        let second_chunk := wrap_u64 (bytes_to_write - first_chunk) in
        let buf1 := memcpy_to (pcm_ring_buf_ r) off (take (Z.to_nat first_chunk) src) in
        let buf2 :=
          if 0 <? second_chunk
          then memcpy_to buf1 0
                 (take (Z.to_nat second_chunk) (drop (Z.to_nat first_chunk) src))
          else buf1 in
        (bytes_to_write,
         mkRing buf2 (pcm_ring_cap_ r) (pcm_ring_read_ r)
                (wrap_u64 (pcm_ring_write_ r + bytes_to_write)))
  end.

(** [popPCMData(out, bytes)]: [out_null] says the destination is the null
    pointer. Returns the count, the bytes copied to [out], and the ring. *)
Definition popPCMData (out_null : bool) (bytes : Z) (r : Ring)
  : Z * list byte * Ring :=
  if out_null || (bytes =? 0) || (pcm_ring_cap_ r =? 0) then (0, [], r)
  else
    let available_data := wrap_u64 (pcm_ring_write_ r - pcm_ring_read_ r) in
    if available_data =? 0 then (0, [], r)
    else
      let bytes_to_read := Z.min bytes available_data in
      let off := pcm_ring_read_ r mod pcm_ring_cap_ r in
      let first_chunk := Z.min bytes_to_read (wrap_u64 (pcm_ring_cap_ r - off)) in
      let second_chunk := wrap_u64 (bytes_to_read - first_chunk) in
      let out1 := memcpy_from (pcm_ring_buf_ r) off first_chunk in
      let out2 :=
        if 0 <? second_chunk
        then memcpy_from (pcm_ring_buf_ r) 0 second_chunk
        else [] in
      (bytes_to_read, out1 ++ out2,
       mkRing (pcm_ring_buf_ r) (pcm_ring_cap_ r)
              (wrap_u64 (pcm_ring_read_ r + bytes_to_read)) (pcm_ring_write_ r)).

(** Occupancy and free space as the code computes them. *)
Definition occupancy (r : Ring) : Z :=
  wrap_u64 (pcm_ring_write_ r - pcm_ring_read_ r).
Definition free_space (r : Ring) : Z :=
  wrap_u64 (pcm_ring_cap_ r - occupancy r).

(** The three atomics of the audio clock. *)
Record Clock := mkClock {
  audio_clock_ : Z;
  base_pts_ : Z;
  consumed_samples_ : Z
}.

(** The object. [audio_reader_] and [swr_ctx_] say whether the pointer is
    set, [producer_thread_] whether the thread is joinable, and
    [device_paused] is the pause state SDL keeps for [audio_dev_]. *)
Record t := mk {
  audio_reader_ : bool;
  swr_ctx_ : bool;
  audio_dev_ : Z;
  device_paused : bool;
  ring : Ring;
  producer_thread_ : bool;
  pulling_ : bool;
  paused_ : bool;
  stop_ : bool;
  playback_finished_ : bool;
  sample_rate_ : Z;
  channels_ : Z;
  sample_fmt_ : Z;
  channel_layout_ : Z;
  volume_ : Z;
  clock : Clock
}.

Definition set_ring (v : Ring) (a : t) : t :=
  mk (audio_reader_ a) (swr_ctx_ a) (audio_dev_ a) (device_paused a) v
     (producer_thread_ a) (pulling_ a) (paused_ a) (stop_ a) (playback_finished_ a)
     (sample_rate_ a) (channels_ a) (sample_fmt_ a) (channel_layout_ a)
     (volume_ a) (clock a).

Definition set_clock (v : Clock) (a : t) : t :=
  mk (audio_reader_ a) (swr_ctx_ a) (audio_dev_ a) (device_paused a) (ring a)
     (producer_thread_ a) (pulling_ a) (paused_ a) (stop_ a) (playback_finished_ a)
     (sample_rate_ a) (channels_ a) (sample_fmt_ a) (channel_layout_ a)
     (volume_ a) v.

Definition set_device (dev : Z) (dev_paused : bool) (a : t) : t :=
  mk (audio_reader_ a) (swr_ctx_ a) dev dev_paused (ring a)
     (producer_thread_ a) (pulling_ a) (paused_ a) (stop_ a) (playback_finished_ a)
     (sample_rate_ a) (channels_ a) (sample_fmt_ a) (channel_layout_ a)
     (volume_ a) (clock a).

Definition set_paused (v : bool) (a : t) : t :=
  mk (audio_reader_ a) (swr_ctx_ a) (audio_dev_ a) (device_paused a) (ring a)
     (producer_thread_ a) (pulling_ a) v (stop_ a) (playback_finished_ a)
     (sample_rate_ a) (channels_ a) (sample_fmt_ a) (channel_layout_ a)
     (volume_ a) (clock a).

Definition set_playback_finished (v : bool) (a : t) : t :=
  mk (audio_reader_ a) (swr_ctx_ a) (audio_dev_ a) (device_paused a) (ring a)
     (producer_thread_ a) (pulling_ a) (paused_ a) (stop_ a) v
     (sample_rate_ a) (channels_ a) (sample_fmt_ a) (channel_layout_ a)
     (volume_ a) (clock a).

Definition set_volume (v : Z) (a : t) : t :=
  mk (audio_reader_ a) (swr_ctx_ a) (audio_dev_ a) (device_paused a) (ring a)
     (producer_thread_ a) (pulling_ a) (paused_ a) (stop_ a) (playback_finished_ a)
     (sample_rate_ a) (channels_ a) (sample_fmt_ a) (channel_layout_ a)
     v (clock a).

Definition AV_SAMPLE_FMT_NONE : Z := -1.
Definition AUDIO_S16SYS : Z := 32784.
Definition bytes_per_sample_S16 : Z := 2.

(** The constructor. *)
Definition new : t :=
  mk false false 0 false (mkRing [] 0 0 0) false false false false false
     44100 2 AV_SAMPLE_FMT_NONE StreamSource.AV_CH_LAYOUT_STEREO
     SDL_MIX_MAXVOLUME (mkClock 0 0 0).

(** What the host gives: whether the SDL audio subsystem is or can be
    initialised, the device id and obtained (freq, format, channels) for a
    wanted (freq, format, channels), whether the resampler can be allocated
    and initialised, and the mixing routine. *)
Record Host := mkHost {
  sdl_audio_available : bool;
  SDL_OpenAudioDevice : Z * Z * Z -> Z * (Z * Z * Z);
  swr_alloc_ok : bool;
  swr_init_ok : bool;
  SDL_MixAudioFormat : list byte -> list byte -> Z -> list byte
}.

(** [initialize(audio_reader)] on an output whose producer thread is not
    running, as after the constructor or [stop]: the last step assigns a
    new [std::thread] to [producer_thread_], which ends the program when
    the old one is still joinable. *)
Definition initialize (H : Host) (audio_reader : option StreamSource.t) (a : t)
  : bool * t :=
  match audio_reader with
  | None => (false, a)
  | Some src =>
    let a1 :=
      mk true (swr_ctx_ a) (audio_dev_ a) (device_paused a) (ring a)
         (producer_thread_ a) (pulling_ a) (paused_ a) (stop_ a)
         (playback_finished_ a)
         (StreamSource.sample_rate_ src) (StreamSource.channels_ src)
         (StreamSource.sample_fmt_ src) (StreamSource.channel_layout_ src)
         (volume_ a) (clock a) in
    if (sample_rate_ a1 <=? 0) || (channels_ a1 <=? 0)
       || (sample_fmt_ a1 =? AV_SAMPLE_FMT_NONE)
    then (false, a1)
    else if negb (sdl_audio_available H) then (false, a1)
    else
      let want := (sample_rate_ a1, AUDIO_S16SYS, channels_ a1 mod 256) in
      let '(dev, have) := SDL_OpenAudioDevice H want in
      if dev =? 0 then (false, set_device 0 (device_paused a1) a1)
      else if negb (bool_decide (have = want))
      then (false, set_device 0 (device_paused a1) a1)
      else if negb (swr_alloc_ok H) then (false, set_device 0 (device_paused a1) a1)
      else if negb (swr_init_ok H) then (false, set_device 0 (device_paused a1) a1)
      else
        let buffer_bytes0 :=
          wrap_s32 (wrap_s32 (wrap_s32 (sample_rate_ a1 * channels_ a1)
                              * bytes_per_sample_S16) * 2) in
        let buffer_bytes := if buffer_bytes0 <? 4096 then 4096 else buffer_bytes0 in
        let cap := wrap_u64 buffer_bytes in
        let buf :=
          take (Z.to_nat cap)
               (pcm_ring_buf_ (ring a1) ++ replicate (Z.to_nat cap) Byte.x00) in
        (true,
         mk true true dev false (mkRing buf cap 0 0)
            true true (paused_ a1) (stop_ a1) (playback_finished_ a1)
            (sample_rate_ a1) (channels_ a1) (sample_fmt_ a1) (channel_layout_ a1)
            (volume_ a1) (clock a1))
  end.

(** One round of the [while] of [fillAudioData]; [fuel] bounds the rounds
    and is [len] plus one, every round but the last filling a byte. *)
Fixpoint fill_loop (fuel : nat) (total_bytes_needed total_bytes_filled : Z)
    (stream : list byte) (a : t) : Z * list byte * t :=
  match fuel with
  | O => (total_bytes_filled, stream, a)
  | S fuel' =>
    if negb (total_bytes_filled <? total_bytes_needed)
    then (total_bytes_filled, stream, a)
    else if playback_finished_ a
            && (pcm_ring_read_ (ring a) =? pcm_ring_write_ (ring a))
    then (total_bytes_filled, stream, a)
    else
      let bytes_per_frame := wrap_s32 (bytes_per_sample_S16 * channels_ a) in
      let bytes_to_fill := wrap_s32 (total_bytes_needed - total_bytes_filled) in
      let '(bytes_available, out, r') :=
        popPCMData false (wrap_u64 bytes_to_fill) (ring a) in
      if bytes_available =? 0 then (total_bytes_filled, stream, a)
      else
        let filled' := wrap_s32 (total_bytes_filled + bytes_available) in
        let consumed' :=
          wrap_s64 (consumed_samples_ (clock a)
                    + wrap_u64 (bytes_available / wrap_u64 bytes_per_frame)) in
        let base := base_pts_ (clock a) in
        let clock' :=
          wrap_s64 (base + Z.quot (wrap_s64 (consumed' * AV_TIME_BASE))
                                  (sample_rate_ a)) in
        fill_loop fuel' total_bytes_needed filled'
          (memcpy_to stream total_bytes_filled out)
          (set_clock (mkClock clock' base consumed') (set_ring r' a))
  end.

(** [fillAudioData(stream, len)]: the bytes left in [stream] and the
    object. *)
Definition fillAudioData (H : Host) (len : Z) (a : t) : list byte * t :=
  let stream := replicate (Z.to_nat len) Byte.x00 in
  if paused_ a || stop_ a then (stream, a)
  else
    let '(total_bytes_filled, stream', a') :=
      fill_loop (S (Z.to_nat len)) len 0 stream a in
    let vol := volume_ a' in
    if (vol <? SDL_MIX_MAXVOLUME) && (0 <? total_bytes_filled)
    then
      let tmp := take (Z.to_nat total_bytes_filled) stream' in
      (SDL_MixAudioFormat H stream' tmp vol, a')
    else (stream', a').

(** What the producer got from [getNextFrame] and the resampler in one
    round of its loop. *)
Inductive Pulled :=
| NoFrame (source_eof : bool)
| GotFrame (f : StreamSource.Frame) (pcm_buffer : list byte).

(** One attempt of the inner [while] of the producer: what is left to
    write and the object. *)
Definition producer_push (data : list byte) (a : t) : list byte * t :=
  if (0 <? Z.of_nat (length data)) && negb (stop_ a) && negb (paused_ a) then
    let '(bytes_written, r') := pushPCMData (Some data) (ring a) in
    if 0 <? bytes_written
    then (drop (Z.to_nat bytes_written) data, set_ring r' a)
    else (data, a)
  else (data, a).

(** One round of [producerThreadLoop] up to and including the first
    attempt to push: what is left to write and the object.  Later attempts
    are further [producer_push]; after 200 ms of failed attempts the rest
    is dropped. *)
Definition producer_round (L : Lib) (tb : AVRational) (pulled : Pulled) (a : t)
  : list byte * t :=
  if stop_ a || playback_finished_ a then ([], a)
  else if paused_ a then ([], a)
  else
    match pulled with
    | NoFrame source_eof =>
      if source_eof then ([], set_playback_finished true a) else ([], a)
    | GotFrame f pcm_buffer =>
      match pcm_buffer with
      | [] => ([], a)
      | _ =>
        let a1 :=
          if (base_pts_ (clock a) =? AV_NOPTS_VALUE)
             && negb (StreamSource.pts f =? AV_NOPTS_VALUE)
          then
            let pts_us := av_rescale_q L (StreamSource.pts f) tb AV_TIME_BASE_Q in
            set_clock (mkClock (audio_clock_ (clock a)) pts_us
                               (consumed_samples_ (clock a))) a
          else a in
        producer_push pcm_buffer a1
      end
    end.

Definition pause (a : t) : t :=
  let a1 := set_paused true a in
  if negb (audio_dev_ a1 =? 0) then set_device (audio_dev_ a1) true a1 else a1.

Definition resume (a : t) : t :=
  let a1 := set_paused false a in
  if negb (audio_dev_ a1 =? 0) then set_device (audio_dev_ a1) false a1 else a1.

Definition isPaused (a : t) : bool := paused_ a.

Definition stop (a : t) : t :=
  mk false false 0 (device_paused a) (mkRing [] 0 0 0) false false false false false
     (sample_rate_ a) (channels_ a) (sample_fmt_ a) (channel_layout_ a)
     (volume_ a) (mkClock 0 0 0).

Definition clear (a : t) : t :=
  set_clock (mkClock 0 0 0) (set_ring (mkRing [] 0 0 0) a).

Definition getAudioClock (a : t) : Z := audio_clock_ (clock a).

Definition resetClock (pts : Z) (a : t) : t :=
  let a1 := if negb (audio_dev_ a =? 0) then set_device (audio_dev_ a) true a else a in
  let r := ring a1 in
  let a2 :=
    set_ring (mkRing (replicate (length (pcm_ring_buf_ r)) Byte.x00)
                     (pcm_ring_cap_ r) 0 0) a1 in
  let a3 := set_clock (mkClock pts pts 0) a2 in
  let a4 := set_playback_finished false a3 in
  if negb (audio_dev_ a4 =? 0) then set_device (audio_dev_ a4) false a4 else a4.

Definition setVolume (norm : double) (a : t) : t :=
  let norm1 := if isnan norm then Fin 1 else norm in
  let norm2 := if dlt norm1 (Fin 0) then Fin 0 else norm1 in
  let norm3 := if dlt (Fin 1) norm2 then Fin 1 else norm2 in
  let v := to_int (dround (dmul_int norm3 SDL_MIX_MAXVOLUME)) in
  set_volume v a.

Definition getVolume (a : t) : double :=
  Fin (inject_Z (volume_ a) / inject_Z SDL_MIX_MAXVOLUME)%Q.

End AudioPlayer.

(** ** GLRenderer, as far as the player drives it *)

Module GLRenderer.

Record t := mk {
  window_ : bool;
  render_thread_ : bool;
  frame_queue_ : list AVFrame;
  max_queue_size_ : Z;
  running_ : bool
}.

Definition new : t := mk false false [] 5 false.

(** Whether [glfwInit] and [glfwCreateWindow] succeed. *)
Record Host := mkHost {
  glfwInit_ok : bool;
  glfwCreateWindow_ok : bool
}.

Definition start (H : Host) (width height : Z) (r : t) : bool * t :=
  if running_ r then (false, r)
  else if negb (glfwInit_ok H) then (false, r)
  else if negb (glfwCreateWindow_ok H)
  then (false, mk false (render_thread_ r) (frame_queue_ r) (max_queue_size_ r) (running_ r))
  else (true, mk true true (frame_queue_ r) (max_queue_size_ r) true).

Definition stop (r : t) : t :=
  if negb (running_ r) then r
  else mk false false (frame_queue_ r) (max_queue_size_ r) false.

Definition clearFrames (r : t) : t :=
  mk (window_ r) (render_thread_ r) [] (max_queue_size_ r) (running_ r).

Definition isRunning (r : t) : bool := running_ r.

(** [enqueueFrame(frame)]: on a full queue the oldest frame goes
    ([pop_front]), then the new one is added at the back. *)
Definition enqueueFrame (frame : AVFrame) (r : t) : bool * t :=
  let q :=
    if max_queue_size_ r <=? Z.of_nat (length (frame_queue_ r))
    then tail (frame_queue_ r)
    else frame_queue_ r in
  (true, mk (window_ r) (render_thread_ r) (q ++ [frame]) (max_queue_size_ r) (running_ r)).

End GLRenderer.

(** ** Player *)

Module Player.

Inductive State := Stopped | Playing | Paused | Error.

Definition State_eqb (a b : State) : bool :=
  match a, b with
  | Stopped, Stopped | Playing, Playing | Paused, Paused | Error, Error => true
  | _, _ => false
  end.

(** The object. The four owned components are created by the constructor
    and their pointers are never reset, so each is held by value;
    [render_thread_] says whether the presenter thread is joinable. *)
Record t := mk {
  video_reader_ : StreamSource.t;
  audio_reader_ : StreamSource.t;
  renderer_ : GLRenderer.t;
  audio_player_ : AudioPlayer.t;
  render_thread_ : bool;
  is_running_ : bool;
  state_ : State;
  last_timestamp_ : Z;
  last_delay_ : Q
}.

Definition new : t :=
  mk (StreamSource.new Video) (StreamSource.new Audio) GLRenderer.new
     AudioPlayer.new false false Stopped 0 0%Q.

Definition getState (p : t) : State := state_ p.

Definition updateState (new_state : State) (p : t) : t :=
  mk (video_reader_ p) (audio_reader_ p) (renderer_ p) (audio_player_ p)
     (render_thread_ p) (is_running_ p) new_state (last_timestamp_ p) (last_delay_ p).

Definition set_video_reader (v : StreamSource.t) (p : t) : t :=
  mk v (audio_reader_ p) (renderer_ p) (audio_player_ p)
     (render_thread_ p) (is_running_ p) (state_ p) (last_timestamp_ p) (last_delay_ p).

Definition set_audio_reader (v : StreamSource.t) (p : t) : t :=
  mk (video_reader_ p) v (renderer_ p) (audio_player_ p)
     (render_thread_ p) (is_running_ p) (state_ p) (last_timestamp_ p) (last_delay_ p).

Definition set_renderer (v : GLRenderer.t) (p : t) : t :=
  mk (video_reader_ p) (audio_reader_ p) v (audio_player_ p)
     (render_thread_ p) (is_running_ p) (state_ p) (last_timestamp_ p) (last_delay_ p).

Definition set_audio_player (v : AudioPlayer.t) (p : t) : t :=
  mk (video_reader_ p) (audio_reader_ p) (renderer_ p) v
     (render_thread_ p) (is_running_ p) (state_ p) (last_timestamp_ p) (last_delay_ p).

Definition set_thread (running joinable : bool) (p : t) : t :=
  mk (video_reader_ p) (audio_reader_ p) (renderer_ p) (audio_player_ p)
     joinable running (state_ p) (last_timestamp_ p) (last_delay_ p).

(** Everything outside the process that [open] depends on. *)
Record Host := mkHost {
  files : FileSystem;
  audio_host : AudioPlayer.Host;
  window_host : GLRenderer.Host
}.

Definition open (H : Host) (filename : string) (p : t) : bool * t :=
  if negb (State_eqb (getState p) Stopped) then (false, p)
  else
    let '(video_ok, v) := StreamSource.open (files H) filename (video_reader_ p) in
    let p1 := set_video_reader v p in
    if negb video_ok
    then (false, set_video_reader (StreamSource.close v) p1)
    else
      let '(audio_ok, a) := StreamSource.open (files H) filename (audio_reader_ p1) in
      let p2 := set_audio_reader a p1 in
      if negb audio_ok
      then (false, set_video_reader (StreamSource.close v) p2)
      else
        let '(init_ok, ap) :=
          AudioPlayer.initialize (audio_host H) (Some a) (audio_player_ p2) in
        let p3 := set_audio_player ap p2 in
        if negb init_ok
        then (false,
              set_audio_reader (StreamSource.close a)
                (set_video_reader (StreamSource.close v) p3))
        else
          let '(start_ok, r) :=
            GLRenderer.start (window_host H) (StreamSource.width_ v)
                             (StreamSource.height_ v) (renderer_ p3) in
          let p4 := set_renderer r p3 in
          if negb start_ok
          then (false,
                updateState Error
                  (set_audio_reader (StreamSource.close a)
                     (set_video_reader (StreamSource.close v) p4)))
          else (true, updateState Stopped (set_thread true true p4)).

Definition close (p : t) : t :=
  if State_eqb (getState p) Stopped then p
  else
    let p1 := set_thread false false p in
    let p2 := set_audio_player (AudioPlayer.clear (AudioPlayer.stop (audio_player_ p1))) p1 in
    let p3 := set_renderer (GLRenderer.clearFrames (GLRenderer.stop (renderer_ p2))) p2 in
    let p4 :=
      set_video_reader
        (StreamSource.close (StreamSource.stopDecoding (video_reader_ p3))) p3 in
    let p5 :=
      set_audio_reader
        (StreamSource.close (StreamSource.stopDecoding (audio_reader_ p4))) p4 in
    updateState Stopped p5.

Definition resume (p : t) : t :=
  if negb (State_eqb (getState p) Paused) then p
  else
    let p1 := set_audio_reader (StreamSource.resumeDecoding (audio_reader_ p)) p in
    let p2 := set_video_reader (StreamSource.resumeDecoding (video_reader_ p1)) p1 in
    let p3 :=
      if AudioPlayer.isPaused (audio_player_ p2)
      then set_audio_player (AudioPlayer.resume (audio_player_ p2)) p2
      else p2 in
    updateState Playing p3.

(** [play()]; [None] when one of the two [startDecoding] ends the program. *)
Definition play (p : t) : option (bool * t) :=
  if State_eqb (getState p) Playing then Some (true, p)
  else if State_eqb (getState p) Paused then Some (true, resume p)
  else if State_eqb (getState p) Error then Some (false, p)
  else
    match StreamSource.startDecoding (audio_reader_ p) with
    | None => None
    | Some a =>
      let p1 := set_audio_reader a p in
      let p2 :=
        if negb (AudioPlayer.isPaused (audio_player_ p1))
        then set_audio_player (AudioPlayer.resume (audio_player_ p1)) p1
        else p1 in
      match StreamSource.startDecoding (video_reader_ p2) with
      | None => None
      | Some v => Some (true, updateState Playing (set_video_reader v p2))
      end
    end.

Definition pause (p : t) : t :=
  if negb (State_eqb (getState p) Playing) then p
  else
    let p1 := set_video_reader (StreamSource.pauseDecoding (video_reader_ p)) p in
    let p2 := set_audio_reader (StreamSource.pauseDecoding (audio_reader_ p1)) p1 in
    let p3 := set_audio_player (AudioPlayer.pause (audio_player_ p2)) p2 in
    updateState Paused p3.

Definition stop (p : t) : t :=
  if State_eqb (getState p) Stopped then p
  else
    let p1 := set_audio_player (AudioPlayer.stop (audio_player_ p)) p in
    let p2 := set_audio_reader (StreamSource.stopDecoding (audio_reader_ p1)) p1 in
    let p3 := set_video_reader (StreamSource.stopDecoding (video_reader_ p2)) p2 in
    let p4 := set_renderer (GLRenderer.clearFrames (renderer_ p3)) p3 in
    updateState Stopped p4.

(** The sync thresholds, [static_cast<int64_t>(0.04 * AV_TIME_BASE)] and
    the like: integers, in microseconds. *)
Definition AV_SYNC_THRESHOLD_MIN : Z := 40000.
Definition AV_SYNC_THRESHOLD_MAX : Z := 100000.
Definition AV_SYNC_FRAMEDUP_THRESHOLD : Z := 200000.

(** [diff] of [renderLoop], in seconds. *)
Definition renderLoop_diff (video_pts audio_clock : Z) : Q :=
  binary64 (binary64 (inject_Z (wrap_s64 (video_pts - audio_clock)))
            / inject_Z AV_TIME_BASE).

(** The [if / else if / else if] of [renderLoop] that adjusts [delay]
    (seconds) before the low-pass filter.  [diff] is a double in seconds;
    each threshold is converted from [int64_t] to double for its
    comparison. *)
Definition renderLoop_sync (video_pts audio_clock : Z) (delay : Q) : Q :=
  let diff := renderLoop_diff video_pts audio_clock in
  if Qltb (Qabs diff) (inject_Z AV_SYNC_THRESHOLD_MIN) then delay
  else if Qltb (inject_Z AV_SYNC_THRESHOLD_MAX) (Qabs diff)
  then Qmax 0 (binary64 (delay + diff))
  else if Qltb (inject_Z AV_SYNC_FRAMEDUP_THRESHOLD) diff then 0%Q
  else delay.

Definition isFinished (p : t) : bool :=
  State_eqb (getState p) Stopped
  && StreamSource.isEOF (video_reader_ p)
  && StreamSource.isEOF (audio_reader_ p).

Definition setVolume (norm : double) (p : t) : t :=
  set_audio_player (AudioPlayer.setVolume norm (audio_player_ p)) p.

Definition getVolume (p : t) : double := AudioPlayer.getVolume (audio_player_ p).

End Player.

(** ** The key bindings of the entry point *)

Module Main.

(** The keys of [handleKeyPress] that do not seek or quit. *)
Inductive Key :=
| GLFW_KEY_SPACE | GLFW_KEY_P | GLFW_KEY_UP | GLFW_KEY_DOWN | GLFW_KEY_M
| GLFW_KEY_UNBOUND.

(** [a + b] and [a - b] on finite doubles whose sum is representable, as
    the sums of a multiple of 1/128 in [0, 1] and 0.0625 are. *)
Definition dadd (a b : double) : double :=
  match a, b with
  | Fin x, Fin y => Fin (x + y)
  | _, _ => NaN
  end.

Definition dsub (a b : double) : double :=
  match a, b with
  | Fin x, Fin y => Fin (x - y)
  | _, _ => NaN
  end.

(** [std::min(a, b)] is [(b < a) ? b : a], [std::max(a, b)] is
    [(a < b) ? b : a]. *)
Definition dmin (a b : double) : double := if dlt b a then b else a.
Definition dmax (a b : double) : double := if dlt a b then b else a.

(** [handleKeyPress(player, key)] on these keys. *)
Definition handleKeyPress (key : Key) (player : Player.t) : Player.t :=
  let currentState := Player.getState player in
  if Player.State_eqb currentState Player.Error then player
  else
    match key with
    | GLFW_KEY_SPACE | GLFW_KEY_P =>
      if Player.State_eqb currentState Player.Playing then Player.pause player
      else if Player.State_eqb currentState Player.Paused then Player.resume player
      else player
    | GLFW_KEY_UP =>
      Player.setVolume (dmin (dadd (Player.getVolume player) (Fin (1 # 16))) (Fin 1)) player
    | GLFW_KEY_DOWN =>
      Player.setVolume (dmax (dsub (Player.getVolume player) (Fin (1 # 16))) (Fin 0)) player
    | GLFW_KEY_M =>
      if dlt (Fin 0) (Player.getVolume player)
      then Player.setVolume (Fin 0) player
      else Player.setVolume (Fin 1) player
    | GLFW_KEY_UNBOUND => player
    end.

End Main.

(** * Properties *)

(** ** Vocabulary of the statements *)

(** A ring state as the class maintains it: positions and capacity are
    64-bit values and the occupancy does not exceed the capacity. *)
Definition ring_ok (r : AudioPlayer.Ring) : Prop :=
  0 <= AudioPlayer.pcm_ring_cap_ r < U64 /\
  0 <= AudioPlayer.pcm_ring_read_ r < U64 /\
  0 <= AudioPlayer.pcm_ring_write_ r < U64 /\
  AudioPlayer.occupancy r <= AudioPlayer.pcm_ring_cap_ r.

(** A ring near the end of the 64-bit range, with three of its four bytes
    in use. *)
Definition ring_sample : AudioPlayer.Ring :=
  AudioPlayer.mkRing [Byte.x01; Byte.x02; Byte.x03; Byte.x04] 4 (U64 - 2) 1.

(** The frame queue holds no more than its capacity. *)
Definition queue_ok (s : StreamSource.t) : Prop :=
  Z.of_nat (length (StreamSource.frame_queue_ s)) <= StreamSource.MAX_QUEUE_SIZE s.

(** [s'] has the capacity of [s], and a bounded queue if [s] had one. *)
Definition queue_kept (s s' : StreamSource.t) : Prop :=
  StreamSource.MAX_QUEUE_SIZE s' = StreamSource.MAX_QUEUE_SIZE s /\
  StreamSource.type_ s' = StreamSource.type_ s /\
  (queue_ok s -> queue_ok s').

(** The calls a stream source receives from its owner, its worker and its
    consumer. *)
Inductive SourceCall :=
| CallOpen (fs : FileSystem) (filename : string)
| CallClose
| CallStartDecoding
| CallPauseDecoding
| CallResumeDecoding
| CallStopDecoding
| CallSeek (timestamp : Z)
| CallGetNextFrame
| CallProcessPacket (packet : option AVPacket)
| CallPushFrameToQueue (f : option StreamSource.Frame)
| CallClearFrameQueue.

(** The source after a call. A [startDecoding] that ends the program
    leaves no later state: the source stays as it was, so that the states
    met along a sequence of calls are those the program can be in. *)
Definition source_call (L : Lib) (c : SourceCall) (s : StreamSource.t)
  : StreamSource.t :=
  match c with
  | CallOpen fs filename => snd (StreamSource.open fs filename s)
  | CallClose => StreamSource.close s
  | CallStartDecoding => default s (StreamSource.startDecoding s)
  | CallPauseDecoding => StreamSource.pauseDecoding s
  | CallResumeDecoding => StreamSource.resumeDecoding s
  | CallStopDecoding => StreamSource.stopDecoding s
  | CallSeek timestamp => snd (StreamSource.seek L timestamp s)
  | CallGetNextFrame => snd (StreamSource.getNextFrame s)
  | CallProcessPacket packet => StreamSource.processPacket L packet s
  | CallPushFrameToQueue f => StreamSource.pushFrameToQueue f s
  | CallClearFrameQueue => StreamSource.clearFrameQueue s
  end.

Definition source_calls (L : Lib) (cs : list SourceCall) (s : StreamSource.t)
  : StreamSource.t :=
  fold_left (fun s c => source_call L c s) cs s.

(** Every queued frame is at or after the target, and the queue holds [n]
    frames. *)
Definition seek_progress (timestamp n : Z) (s : StreamSource.t) : Prop :=
  Z.of_nat (length (StreamSource.frame_queue_ s)) = n /\
  Forall (fun f => timestamp <= StreamSource.pts f) (StreamSource.frame_queue_ s).

(** A codec that turns every packet into one frame carrying the packet's
    timestamp, a time base of microseconds, and a file with one video stream
    of 25 frames per second. *)
Definition lib_sample : Lib :=
  mkLib (fun a _ _ => a)
        (fun ctx _ _ _ => (0, ctx))
        (fun _ packet =>
           match packet with
           | Some p => (0, [mkAVFrame (packet_pts p) 40000 0 (packet_data p)])
           | None => (0, [])
           end)
        Some.

Definition video_stream_sample : AVStream :=
  mkAVStream AVMEDIA_TYPE_VIDEO (1, 1000000) (25, 1) (25, 1) 400000
             0 0 0 640 360 0 true true.

Definition audio_stream_sample : AVStream :=
  mkAVStream AVMEDIA_TYPE_AUDIO (1, 1000000) (0, 0) (0, 0) 400000
             8000 1 1 0 0 4 true true.

Definition video_packets_sample : list ReadItem :=
  map (fun i => ReadPacket (mkAVPacket 0 (Z.of_nat i * 40000) 100 i)) (seq 0 10).

Definition video_only_file : MediaFile :=
  mkMediaFile true
    (mkAVFormatContext [video_stream_sample] 400000 video_packets_sample).

Definition files_sample : FileSystem :=
  fun name => if String.eqb name "clip.mp4" then Some video_only_file else None.

(** The video source of the sample file, opened. *)
Definition video_source_sample : StreamSource.t :=
  snd (StreamSource.open files_sample "clip.mp4" (StreamSource.new Video)).

(** What happens to the audio output between two clock resets: the device
    calls back for [len] bytes, the producer runs one round of its loop, or
    retries the push of what is left of a buffer. *)
Inductive AudioEvent :=
| DeviceCallback (len : Z)
| ProducerRound (pulled : AudioPlayer.Pulled)
| ProducerPush (data : list byte).

Definition audio_event (H : AudioPlayer.Host) (L : Lib) (tb : AVRational)
    (ev : AudioEvent) (a : AudioPlayer.t) : AudioPlayer.t :=
  match ev with
  | DeviceCallback len => snd (AudioPlayer.fillAudioData H len a)
  | ProducerRound pulled => snd (AudioPlayer.producer_round L tb pulled a)
  | ProducerPush data => snd (AudioPlayer.producer_push data a)
  end.

Definition audio_events (H : AudioPlayer.Host) (L : Lib) (tb : AVRational)
    (evs : list AudioEvent) (a : AudioPlayer.t) : AudioPlayer.t :=
  fold_left (fun a ev => audio_event H L tb ev a) evs a.

(** Bytes the device asks for over a run of events. *)
Definition callback_bytes (evs : list AudioEvent) : Z :=
  fold_right (fun ev n => match ev with DeviceCallback len => len + n | _ => n end)
             0 evs.

(** The arguments of an event fit their C++ types: [len] is a non-negative
    [int], and a frame's rescaled timestamp is an [int64_t] of at most [hi]. *)
Definition event_in_range (L : Lib) (tb : AVRational) (hi : Z) (ev : AudioEvent)
  : Prop :=
  match ev with
  | DeviceCallback len => 0 <= len < 2 ^ 31
  | ProducerRound (AudioPlayer.GotFrame f _) =>
    INT64_MIN <= av_rescale_q L (StreamSource.pts f) tb AV_TIME_BASE_Q <= hi
  | _ => True
  end.

(** The clock state during a run in which the device may still ask for
    [budget] bytes: the published clock is at most the value the next
    callback would publish, and no [int64_t] computation can overflow. *)
Definition clock_inv (hi budget : Z) (a : AudioPlayer.t) : Prop :=
  let c := AudioPlayer.clock a in
  ring_ok (AudioPlayer.ring a) /\
  0 < AudioPlayer.sample_rate_ a /\
  0 < AudioPlayer.channels_ a < 2 ^ 30 /\
  0 <= AudioPlayer.consumed_samples_ c /\
  INT64_MIN <= AudioPlayer.base_pts_ c <= hi /\
  INT64_MIN <= AudioPlayer.audio_clock_ c /\
  AudioPlayer.audio_clock_ c
  <= AudioPlayer.base_pts_ c
     + Z.quot (AudioPlayer.consumed_samples_ c * AV_TIME_BASE) (AudioPlayer.sample_rate_ a) /\
  0 <= budget /\ 0 <= hi /\
  hi + (AudioPlayer.consumed_samples_ c + budget) * AV_TIME_BASE <= INT64_MAX.

(** An audio output as [initialize] leaves it for a 8 kHz mono source whose
    ring was then filled with eight bytes. *)
Definition audio_sample : AudioPlayer.t :=
  AudioPlayer.mk true true 2 false
    (AudioPlayer.mkRing
       ([Byte.x01; Byte.x02; Byte.x03; Byte.x04; Byte.x05; Byte.x06; Byte.x07; Byte.x08]
        ++ replicate 4088 Byte.x00) 4096 0 8)
    true true false false false 8000 1 1 4 128 (AudioPlayer.mkClock 0 0 0).

Definition host_sample : AudioPlayer.Host :=
  AudioPlayer.mkHost true (fun want => (2, want)) true true (fun dst _ _ => dst).

(** The producer pushes eight bytes, the device asks for four, then for
    four more. *)
Definition events_before : list AudioEvent :=
  [ProducerPush [Byte.x01; Byte.x02; Byte.x03; Byte.x04;
                 Byte.x05; Byte.x06; Byte.x07; Byte.x08];
   DeviceCallback 4].

Definition events_after : list AudioEvent := [DeviceCallback 4].

(** The first audio frame the producer sees after a seek to one second. *)
Definition frame_after_seek : StreamSource.Frame :=
  StreamSource.mkFrame (mkAVFrame 1023219 0 1024 7) 1023219 128000.

(** No stream of the file is an audio stream. *)
Definition no_audio_stream (file : MediaFile) : Prop :=
  Forall (fun st => codec_type st <> AVMEDIA_TYPE_AUDIO) (streams (context file)).

(** A file with one video and one audio stream, both decodable. *)
Definition movie_file : MediaFile :=
  mkMediaFile true
    (mkAVFormatContext [video_stream_sample; audio_stream_sample] 400000
                       video_packets_sample).

(** A host on which the audio device, the resampler and the window are
    available, holding the video-only file and the movie. *)
Definition player_host_sample : Player.Host :=
  Player.mkHost
    (fun name =>
       if String.eqb name "clip.mp4" then Some video_only_file
       else if String.eqb name "movie.mp4" then Some movie_file
       else None)
    host_sample
    (GLRenderer.mkHost true true).

(** A player none of whose components is held any more. *)
Definition released (p : Player.t) : Prop :=
  Player.render_thread_ p = false /\
  Player.is_running_ p = false /\
  AudioPlayer.audio_dev_ (Player.audio_player_ p) = 0 /\
  AudioPlayer.producer_thread_ (Player.audio_player_ p) = false /\
  AudioPlayer.pcm_ring_cap_ (AudioPlayer.ring (Player.audio_player_ p)) = 0 /\
  GLRenderer.running_ (Player.renderer_ p) = false /\
  GLRenderer.frame_queue_ (Player.renderer_ p) = [] /\
  StreamSource.demuxer_ (Player.video_reader_ p) = None /\
  StreamSource.decoding_thread_ (Player.video_reader_ p) = false /\
  StreamSource.frame_queue_ (Player.video_reader_ p) = [] /\
  StreamSource.demuxer_ (Player.audio_reader_ p) = None /\
  StreamSource.decoding_thread_ (Player.audio_reader_ p) = false /\
  StreamSource.frame_queue_ (Player.audio_reader_ p) = [].

(** [n] bytes of a circular buffer from offset [off] on, wrapping at the
    end. *)
Definition circ_read (buf : list byte) (off n : nat) : list byte :=
  take n (drop off (buf ++ buf)).

(** [s] written into a circular buffer from offset [off] on: up to the end,
    then from the start. *)
Definition circ_write (buf : list byte) (off : nat) (s : list byte) : list byte :=
  let first := Nat.min (length s) (length buf - off) in
  list_inserts 0 (drop first s) (list_inserts off (take first s) buf).

(** Where offset [off] moved by [k] lands in a buffer of [c] bytes. *)
Definition circ_add (c off k : nat) : nat :=
  if (off + k <? c)%nat then (off + k)%nat else (off + k - c)%nat.

(** The bytes waiting in the ring, oldest first. *)
Definition contents (r : AudioPlayer.Ring) : list byte :=
  circ_read (AudioPlayer.pcm_ring_buf_ r)
            (Z.to_nat (AudioPlayer.pcm_ring_read_ r mod AudioPlayer.pcm_ring_cap_ r))
            (Z.to_nat (AudioPlayer.occupancy r)).

(** A ring whose positions have not wrapped around 2^64: the buffer has the
    length of the capacity, and the write position is ahead of the read
    position by at most the capacity. *)
Definition ring_wf (r : AudioPlayer.Ring) : Prop :=
  0 < AudioPlayer.pcm_ring_cap_ r < U64 /\
  length (AudioPlayer.pcm_ring_buf_ r) = Z.to_nat (AudioPlayer.pcm_ring_cap_ r) /\
  0 <= AudioPlayer.pcm_ring_read_ r <= AudioPlayer.pcm_ring_write_ r /\
  AudioPlayer.pcm_ring_write_ r < U64 /\
  AudioPlayer.pcm_ring_write_ r - AudioPlayer.pcm_ring_read_ r <= AudioPlayer.pcm_ring_cap_ r.

(** The ring as [initialize] and [resetClock] leave it. *)
Definition ring_new (cap : Z) : AudioPlayer.Ring :=
  AudioPlayer.mkRing (replicate (Z.to_nat cap) Byte.x00) cap 0 0.

(** The unbounded byte queue restricted to a capacity: [push] appends as
    much as fits, [pop] takes from the front. *)
Definition queue_push (cap : Z) (src : list byte) (q : list byte) : Z * list byte :=
  let k := Z.min (Z.of_nat (length src)) (cap - Z.of_nat (length q)) in
  (k, q ++ take (Z.to_nat k) src).

Definition queue_pop (n : Z) (q : list byte) : Z * list byte * list byte :=
  let k := Z.min n (Z.of_nat (length q)) in
  (k, take (Z.to_nat k) q, drop (Z.to_nat k) q).

(** A call on the ring: a push of a source buffer or a pop of [n] bytes
    into a destination. *)
Inductive RingCall := RingPush (src : list byte) | RingPop (n : Z).

Definition ring_call_in_range (c : RingCall) : Prop :=
  match c with
  | RingPush src => Z.of_nat (length src) < U64
  | RingPop n => 0 <= n < U64
  end.

(** The bytes the calls return from pops, the bytes they accept in pushes,
    both in order, and the ring they leave. *)
Fixpoint ring_trace (calls : list RingCall) (r : AudioPlayer.Ring)
  : list byte * list byte * AudioPlayer.Ring :=
  match calls with
  | [] => ([], [], r)
  | RingPush src :: rest =>
    let '(k, r1) := AudioPlayer.pushPCMData (Some src) r in
    let '(popped, accepted, r') := ring_trace rest r1 in
    (popped, take (Z.to_nat k) src ++ accepted, r')
  | RingPop n :: rest =>
    let '(k, out, r1) := AudioPlayer.popPCMData false n r in
    let '(popped, accepted, r') := ring_trace rest r1 in
    (out ++ popped, accepted, r')
  end.

(** The same calls on the byte queue. *)
Fixpoint queue_trace (cap : Z) (calls : list RingCall) (q : list byte)
  : list byte * list byte * list byte :=
  match calls with
  | [] => ([], [], q)
  | RingPush src :: rest =>
    let '(k, q1) := queue_push cap src q in
    let '(popped, accepted, q') := queue_trace cap rest q1 in
    (popped, take (Z.to_nat k) src ++ accepted, q')
  | RingPop n :: rest =>
    let '(k, out, q1) := queue_pop n q in
    let '(popped, accepted, q') := queue_trace cap rest q1 in
    (out ++ popped, accepted, q')
  end.

(** Bytes offered to the ring by the pushes of a run. *)
Definition offered_bytes (calls : list RingCall) : Z :=
  fold_right (fun c n => match c with RingPush src => Z.of_nat (length src) + n | _ => n end)
             0 calls.

(** Pushes and pops on a ring of four bytes that wrap around its end; the
    second push finds room for three of its four bytes only. *)
Definition ring_calls_sample : list RingCall :=
  [RingPush [Byte.x01; Byte.x02; Byte.x03];
   RingPop 2;
   RingPush [Byte.x04; Byte.x05; Byte.x06; Byte.x07];
   RingPop 10].

(** The file is read without error up to its end. *)
Definition error_free (items : list ReadItem) : Prop :=
  Forall (fun it => match it with ReadPacket _ => True | ReadError _ => False end) items.

(** The source holds an open demuxer positioned on an error-free rest of
    file, and a decoder. *)
Definition source_reading (s : StreamSource.t) : Prop :=
  exists dmx ctx dec,
    StreamSource.demuxer_ s = Some dmx /\
    Demuxer.format_ctx_ dmx = Some ctx /\
    0 <= Demuxer.stream_index_ dmx /\
    error_free (upcoming ctx) /\
    StreamSource.decoder_ s = Some dec.

(** ** Vocabulary of the further properties *)

(** The demuxer of the sample file's video stream, opened. *)
Definition video_demuxer_sample : Demuxer.t :=
  snd (Demuxer.open files_sample "clip.mp4" (Demuxer.new Video)).

(** A file whose first stream is a data track, followed by two video
    streams and an audio stream; its packets alternate between the streams
    and a read error follows the fourth packet. *)
Definition mixed_file : MediaFile :=
  mkMediaFile true
    (mkAVFormatContext
       [mkAVStream AVMEDIA_TYPE_OTHER (1, 1000) (0, 0) (0, 0) 0 0 0 0 0 0 0 true true;
        video_stream_sample; video_stream_sample; audio_stream_sample]
       400000
       [ReadPacket (mkAVPacket 3 0 10 0);
        ReadPacket (mkAVPacket 0 0 10 1);
        ReadPacket (mkAVPacket 1 0 10 2);
        ReadPacket (mkAVPacket 3 20000 10 3);
        ReadError (-5);
        ReadPacket (mkAVPacket 1 40000 10 4)]).

Definition mixed_files : FileSystem :=
  fun name => if String.eqb name "mixed.mkv" then Some mixed_file else None.

(** The demuxer of the second kind of stream of the mixed file, opened. *)
Definition mixed_video_demuxer : Demuxer.t :=
  snd (Demuxer.open mixed_files "mixed.mkv" (Demuxer.new Video)).

(** Whenever the source's demuxer is open, it has chosen a stream and the
    source holds an open decoder: what [seek] reads through once the
    demuxer's own seek has succeeded is there. *)
Definition source_wired (s : StreamSource.t) : Prop :=
  forall dmx,
    StreamSource.demuxer_ s = Some dmx -> Demuxer.isOpen dmx = true ->
    0 <= Demuxer.stream_index_ dmx /\
    (exists st, Demuxer.stream_ dmx = Some st) /\
    exists dec, StreamSource.decoder_ s = Some dec /\ Decoder.isOpen dec = true.

(** [d'] has the stream of [d], and is open only if [d] was. *)
Definition demuxer_kept (d d' : Demuxer.t) : Prop :=
  Demuxer.stream_ d' = Demuxer.stream_ d /\
  Demuxer.stream_index_ d' = Demuxer.stream_index_ d /\
  (Demuxer.isOpen d' = true -> Demuxer.isOpen d = true).

(** The frames the decoder holds ready for [receiveFrame]. *)
Definition ready_frames (dec : Decoder.t) : list AVFrame :=
  match Decoder.codec_ctx_ dec with
  | Some ctx => Decoder.ready ctx
  | None => []
  end.

(** How many of [frames] [av_frame_clone] copies. *)
Definition clonable (L : Lib) (frames : list AVFrame) : Z :=
  Z.of_nat (length (List.filter
    (fun f => match av_frame_clone L f with Some _ => true | None => false end) frames)).

(** The audio source of the movie, opened. *)
Definition audio_source_sample : StreamSource.t :=
  snd (StreamSource.open (Player.files player_host_sample) "movie.mp4"
         (StreamSource.new Audio)).

(** The movie opened, and then playing. *)
Definition opened_sample : Player.t :=
  snd (Player.open player_host_sample "movie.mp4" Player.new).

Definition playing_sample : Player.t :=
  match Player.play opened_sample with
  | Some (_, p) => p
  | None => opened_sample
  end.

(** The renderer after [enqueueFrame] on each of [frames] in turn. *)
Definition enqueue_all (frames : list AVFrame) (r : GLRenderer.t) : GLRenderer.t :=
  fold_left (fun r f => snd (GLRenderer.enqueueFrame f r)) frames r.

(** The level [volume_] of the player's audio output. *)
Definition volume_level (p : Player.t) : Z :=
  AudioPlayer.volume_ (Player.audio_player_ p).

(** The host of the sample player, on which no window can be created. *)
Definition headless_host_sample : Player.Host :=
  Player.mkHost (Player.files player_host_sample) host_sample
                (GLRenderer.mkHost true false).

(** Reading [items] stopped with [rest] unread and the demuxer's EOF flag
    at [eof]: at the end of the file, all of it read without error, or
    right after a read error. *)
Definition reading_stopped (items rest : list ReadItem) (eof : bool) : Prop :=
  (error_free items /\ rest = [] /\ eof = true) \/
  exists before code, items = before ++ ReadError code :: rest.

(** The sample video file with a read error after its fourth packet. *)
Definition broken_file : MediaFile :=
  mkMediaFile true
    (mkAVFormatContext [video_stream_sample] 400000
       (take 4 video_packets_sample ++ ReadError (-5) :: drop 4 video_packets_sample)).

Definition broken_source_sample : StreamSource.t :=
  snd (StreamSource.open
         (fun name => if String.eqb name "broken.mp4" then Some broken_file else None)
         "broken.mp4" (StreamSource.new Video)).

(** ** The PCM ring: bounds *)

Section RingBounds.
Import AudioPlayer.

Lemma wrap_u64_range z : 0 <= wrap_u64 z < U64.
Proof. unfold wrap_u64, U64. apply Z.mod_pos_bound. lia. Qed.

Lemma wrap_u64_small z : 0 <= z < U64 -> wrap_u64 z = z.
Proof. unfold wrap_u64. intros H. now apply Z.mod_small. Qed.

(** Advancing the write position by [k] raises the wrapped difference by [k]. *)
Lemma occupancy_after_write rd wr k :
  0 <= k -> wrap_u64 (wr - rd) + k < U64 ->
  wrap_u64 (wrap_u64 (wr + k) - rd) = wrap_u64 (wr - rd) + k.
Proof.
  intros Hk Hlt. unfold wrap_u64 in *.
  rewrite Zminus_mod_idemp_l.
  replace (wr + k - rd) with ((wr - rd) + k) by ring.
  rewrite <- Zplus_mod_idemp_l.
  apply Z.mod_small.
  pose proof (Z.mod_pos_bound (wr - rd) U64 ltac:(unfold U64; lia)). lia.
Qed.

(** Advancing the read position by [k] lowers the wrapped difference by [k]. *)
Lemma occupancy_after_read rd wr k :
  0 <= k <= wrap_u64 (wr - rd) ->
  wrap_u64 (wr - wrap_u64 (rd + k)) = wrap_u64 (wr - rd) - k.
Proof.
  intros Hk. unfold wrap_u64 in *.
  rewrite Zminus_mod_idemp_r.
  replace (wr - (rd + k)) with ((wr - rd) - k) by ring.
  rewrite <- Zminus_mod_idemp_l.
  apply Z.mod_small.
  pose proof (Z.mod_pos_bound (wr - rd) U64 ltac:(unfold U64; lia)). lia.
Qed.

Lemma free_space_ok r : ring_ok r -> free_space r = pcm_ring_cap_ r - occupancy r.
Proof.
  intros (Hc & _ & _ & Ho). unfold free_space.
  apply wrap_u64_small. pose proof (wrap_u64_range (pcm_ring_write_ r - pcm_ring_read_ r)).
  unfold occupancy in *. lia.
Qed.

Lemma pushPCMData_bounds data r k r' :
  ring_ok r -> pushPCMData data r = (k, r') ->
  0 <= k <= Z.min (from_option (fun src => Z.of_nat (length src)) 0 data) (free_space r) /\
  pcm_ring_write_ r' = wrap_u64 (pcm_ring_write_ r + k) /\
  pcm_ring_read_ r' = pcm_ring_read_ r /\
  pcm_ring_cap_ r' = pcm_ring_cap_ r /\
  occupancy r' = occupancy r + k /\
  ring_ok r'.
Proof.
  intros Hok Hpush.
  pose proof (free_space_ok r Hok) as Hfree.
  pose proof Hok as (Hc & Hr & Hw & Ho).
  pose proof (wrap_u64_range (pcm_ring_write_ r - pcm_ring_read_ r)) as Hocc.
  fold (occupancy r) in Hocc.
  assert (Hnoop : 0 <= 0 <= Z.min (from_option (fun src => Z.of_nat (length src)) 0 data)
                                  (free_space r) /\
          pcm_ring_write_ r = wrap_u64 (pcm_ring_write_ r + 0) /\
          pcm_ring_read_ r = pcm_ring_read_ r /\
          pcm_ring_cap_ r = pcm_ring_cap_ r /\
          occupancy r = occupancy r + 0 /\ ring_ok r).
  { rewrite Z.add_0_r, wrap_u64_small by lia.
    split_and!; try lia; try apply Hok. destruct data; simpl; lia. }
  unfold pushPCMData in Hpush.
  destruct data as [src|]; [|injection Hpush as <- <-; exact Hnoop].
  destruct ((Z.of_nat (length src) =? 0) || (pcm_ring_cap_ r =? 0)) eqn:Hguard;
    [injection Hpush as <- <-; exact Hnoop|].
  fold (occupancy r) in Hpush. fold (free_space r) in Hpush.
  destruct (free_space r =? 0) eqn:Hfull;
    [injection Hpush as <- <-; exact Hnoop|].
  injection Hpush as <- <-. simpl.
  apply Z.eqb_neq in Hfull.
  set (k := Z.min (Z.of_nat (length src)) (free_space r)).
  assert (Hk : 0 <= k <= pcm_ring_cap_ r - occupancy r) by (unfold k; lia).
  assert (Hocc' : wrap_u64 (wrap_u64 (pcm_ring_write_ r + k) - pcm_ring_read_ r)
                  = occupancy r + k).
  { unfold occupancy. apply occupancy_after_write; [lia|].
    fold (occupancy r). lia. }
  unfold ring_ok, occupancy at 1 3; simpl.
  pose proof (wrap_u64_range (pcm_ring_write_ r + k)).
  pose proof (wrap_u64_range (pcm_ring_read_ r + k)).
  rewrite Hocc'. split_and!; lia.
Qed.

Lemma popPCMData_bounds out_null n r k out r' :
  ring_ok r -> 0 <= n < U64 -> popPCMData out_null n r = (k, out, r') ->
  0 <= k <= Z.min n (occupancy r) /\
  pcm_ring_read_ r' = wrap_u64 (pcm_ring_read_ r + k) /\
  pcm_ring_write_ r' = pcm_ring_write_ r /\
  pcm_ring_cap_ r' = pcm_ring_cap_ r /\
  occupancy r' = occupancy r - k /\
  ring_ok r'.
Proof.
  intros Hok Hn Hpop.
  pose proof Hok as (Hc & Hr & Hw & Ho).
  pose proof (wrap_u64_range (pcm_ring_write_ r - pcm_ring_read_ r)) as Hocc.
  fold (occupancy r) in Hocc.
  assert (Hnoop : 0 <= 0 <= Z.min n (occupancy r) /\
          pcm_ring_read_ r = wrap_u64 (pcm_ring_read_ r + 0) /\
          pcm_ring_write_ r = pcm_ring_write_ r /\
          pcm_ring_cap_ r = pcm_ring_cap_ r /\
          occupancy r = occupancy r - 0 /\ ring_ok r).
  { rewrite Z.add_0_r, wrap_u64_small by lia.
    split_and!; try lia; apply Hok. }
  unfold popPCMData in Hpop.
  destruct (out_null || (n =? 0) || (pcm_ring_cap_ r =? 0)) eqn:Hguard;
    [injection Hpop as <- <- <-; exact Hnoop|].
  fold (occupancy r) in Hpop.
  destruct (occupancy r =? 0) eqn:Hempty;
    [injection Hpop as <- <- <-; exact Hnoop|].
  injection Hpop as <- <- <-. simpl.
  set (k := Z.min n (occupancy r)).
  assert (Hk : 0 <= k <= occupancy r) by (unfold k; lia).
  assert (Hocc' : wrap_u64 (pcm_ring_write_ r - wrap_u64 (pcm_ring_read_ r + k))
                  = occupancy r - k).
  { unfold occupancy. apply occupancy_after_read. fold (occupancy r). lia. }
  unfold ring_ok, occupancy at 1 3; simpl.
  pose proof (wrap_u64_range (pcm_ring_write_ r + k)).
  pose proof (wrap_u64_range (pcm_ring_read_ r + k)).
  rewrite Hocc'. split_and!; lia.
Qed.

End RingBounds.

(** C8. Ring capacity: on a ring whose occupancy is within its capacity,
    [pushPCMData] returns [k] between 0 and the smaller of the request and
    the free space, moves the write position by exactly [k] (modulo 2^64)
    and leaves the read position; [popPCMData] returns [k] between 0 and the
    smaller of the request and the occupancy, moves the read position by
    exactly [k] and leaves the write position; in both cases the occupancy
    changes by [k] and stays between 0 and the capacity. *)
Theorem ring_capacity_push_pop (r : AudioPlayer.Ring) :
  ring_ok r ->
  (forall data k r',
     AudioPlayer.pushPCMData data r = (k, r') ->
     0 <= k <= Z.min (from_option (fun src => Z.of_nat (length src)) 0 data)
                     (AudioPlayer.free_space r) /\
     AudioPlayer.pcm_ring_write_ r' = wrap_u64 (AudioPlayer.pcm_ring_write_ r + k) /\
     AudioPlayer.pcm_ring_read_ r' = AudioPlayer.pcm_ring_read_ r /\
     AudioPlayer.occupancy r' = AudioPlayer.occupancy r + k /\
     0 <= AudioPlayer.occupancy r' <= AudioPlayer.pcm_ring_cap_ r') /\
  (forall out_null n k out r',
     0 <= n < U64 ->
     AudioPlayer.popPCMData out_null n r = (k, out, r') ->
     0 <= k <= Z.min n (AudioPlayer.occupancy r) /\
     AudioPlayer.pcm_ring_read_ r' = wrap_u64 (AudioPlayer.pcm_ring_read_ r + k) /\
     AudioPlayer.pcm_ring_write_ r' = AudioPlayer.pcm_ring_write_ r /\
     AudioPlayer.occupancy r' = AudioPlayer.occupancy r - k /\
     0 <= AudioPlayer.occupancy r' <= AudioPlayer.pcm_ring_cap_ r').
Proof.
  intros Hok. split.
  - intros data k r' Hpush.
    destruct (pushPCMData_bounds data r k r' Hok Hpush)
      as (Hk & Hw & Hr & Hc & Ho & Hok').
    pose proof (wrap_u64_range
                  (AudioPlayer.pcm_ring_write_ r' - AudioPlayer.pcm_ring_read_ r')) as Hocc.
    fold (AudioPlayer.occupancy r') in Hocc.
    destruct Hok' as (_ & _ & _ & Hle). split_and!; try done; lia.
  - intros out_null n k out r' Hn Hpop.
    destruct (popPCMData_bounds out_null n r k out r' Hok Hn Hpop)
      as (Hk & Hr & Hw & Hc & Ho & Hok').
    pose proof (wrap_u64_range
                  (AudioPlayer.pcm_ring_write_ r' - AudioPlayer.pcm_ring_read_ r')) as Hocc.
    fold (AudioPlayer.occupancy r') in Hocc.
    destruct Hok' as (_ & _ & _ & Hle). split_and!; try done; lia.
Qed.

Lemma ring_capacity_push_pop_witness :
  ring_ok ring_sample /\
  forall k r',
    AudioPlayer.pushPCMData (Some [Byte.x05; Byte.x06]) ring_sample = (k, r') ->
    0 <= k <= Z.min 2 (AudioPlayer.free_space ring_sample) /\
    AudioPlayer.pcm_ring_write_ r' = wrap_u64 (1 + k).
Proof.
  assert (Hok : ring_ok ring_sample) by (vm_compute; intuition congruence).
  split; [exact Hok|]. intros k r' Hpush.
  destruct (ring_capacity_push_pop ring_sample Hok) as [Hp _].
  destruct (Hp _ _ _ Hpush) as (Hk & Hw & _). split; [exact Hk|exact Hw].
Defined.

(** ** Rationals standing for doubles *)

Lemma Qltb_lt (a b : Q) : Qltb a b = true <-> (a < b)%Q.
Proof. unfold Qltb, Qlt. apply Z.ltb_lt. Qed.

Lemma Qltb_ge (a b : Q) : Qltb a b = false <-> (b <= a)%Q.
Proof. unfold Qltb, Qle. apply Z.ltb_ge. Qed.

(** ** Rounding to double *)

Section Rounding.

Lemma ilog2_low n d :
  0 < n -> 0 < d ->
  (0 <= ilog2 n d -> d * 2 ^ ilog2 n d <= n) /\
  (ilog2 n d < 0 -> d <= n * 2 ^ (- ilog2 n d)).
Proof.
  intros Hn Hd. unfold ilog2.
  destruct (Z.log2_spec n Hn) as [Hn1 Hn2]. destruct (Z.log2_spec d Hd) as [Hd1 Hd2].
  pose proof (Z.log2_nonneg n) as Hln. pose proof (Z.log2_nonneg d) as Hld.
  rewrite Z.pow_succ_r in Hn2, Hd2 by assumption.
  set (a := Z.log2 n) in *. set (b := Z.log2 d) in *.
  assert (Ha : 0 < 2 ^ a) by (apply Z.pow_pos_nonneg; lia).
  assert (Hb : 0 < 2 ^ b) by (apply Z.pow_pos_nonneg; lia).
  destruct (Z.leb_spec 0 (a - b)) as [Hl|Hl].
  - destruct (Z.ltb_spec n (d * 2 ^ (a - b))) as [Hlt|Hge].
    + split; intros He.
      * assert (E : 2 ^ a = 2 ^ b * (2 * 2 ^ (a - b - 1))).
        { rewrite <- Z.pow_succ_r, <- Z.pow_add_r by lia. f_equal. lia. }
        assert (0 < 2 ^ (a - b - 1)) by (apply Z.pow_pos_nonneg; lia).
        nia.
      * assert (E : a = b) by lia. rewrite E in *.
        replace (- (b - b - 1)) with 1 by lia. rewrite Z.pow_1_r. lia.
    + split; intros He; [exact Hge|lia].
  - destruct (Z.ltb_spec (n * 2 ^ (- (a - b))) d) as [Hlt|Hge].
    + split; intros He; [lia|].
      replace (- (a - b - 1)) with (Z.succ (- (a - b))) by lia.
      rewrite Z.pow_succ_r by lia.
      assert (E : 2 ^ b = 2 ^ a * 2 ^ (- (a - b))).
      { rewrite <- Z.pow_add_r by lia. f_equal. lia. }
      assert (0 < 2 ^ (- (a - b))) by (apply Z.pow_pos_nonneg; lia).
      nia.
    + split; intros He; [lia|exact Hge].
Qed.

Lemma round_even_close n d :
  0 <= n -> 0 < d -> 2 * Z.abs (round_even n d * d - n) <= d.
Proof.
  intros Hn Hd. unfold round_even.
  pose proof (Z.div_mod n d ltac:(lia)) as E.
  pose proof (Z.mod_pos_bound n d Hd) as Hr.
  set (q := n / d) in *. set (r := n mod d) in *.
  destruct (Z.ltb_spec (2 * r) d); [nia|].
  destruct (Z.ltb_spec d (2 * r)); [nia|].
  destruct (Z.even q); nia.
Qed.

(** The rounding error of [binary64] in integers: the rounded significand
    [m] at the scale [2^u] against [n/d]. *)
Lemma binary64_close_up n d u :
  0 < n -> 0 < d -> u = ilog2 n d - 52 -> 0 <= u ->
  Z.abs (round_even n (d * 2 ^ u) * 2 ^ u * d - n) * 2 ^ 53 <= n.
Proof.
  intros Hn Hd Hu Hu0.
  destruct (ilog2_low n d Hn Hd) as [Hlow _]. specialize (Hlow ltac:(lia)).
  assert (Hp : 0 < 2 ^ u) by (apply Z.pow_pos_nonneg; lia).
  pose proof (round_even_close n (d * 2 ^ u) ltac:(lia) ltac:(nia)) as Hc.
  replace (ilog2 n d) with (u + 52) in Hlow by lia.
  rewrite Z.pow_add_r in Hlow by lia.
  set (m := round_even n (d * 2 ^ u)) in *. set (P := 2 ^ u) in *.
  replace (m * P * d - n) with (m * (d * P) - n) by ring.
  change (2 ^ 53) with (2 * 2 ^ 52). change (2 ^ 52) with 4503599627370496 in *. nia.
Qed.

Lemma binary64_close_down n d u :
  0 < n -> 0 < d -> u = ilog2 n d - 52 -> u < 0 ->
  Z.abs (round_even (n * 2 ^ (- u)) d * d - n * 2 ^ (- u)) * 2 ^ 53 <= n * 2 ^ (- u).
Proof.
  intros Hn Hd Hu Hu0.
  destruct (ilog2_low n d Hn Hd) as [Hlow Hlow'].
  assert (Hp : 0 < 2 ^ (- u)) by (apply Z.pow_pos_nonneg; lia).
  pose proof (round_even_close (n * 2 ^ (- u)) d ltac:(nia) Hd) as Hc.
  assert (Hkey : d * 2 ^ 52 <= n * 2 ^ (- u)).
  { destruct (Z.leb_spec 0 (ilog2 n d)) as [He|He].
    - specialize (Hlow He).
      assert (E : 2 ^ 52 = 2 ^ ilog2 n d * 2 ^ (- u)).
      { rewrite <- Z.pow_add_r by lia. f_equal. lia. }
      rewrite E. nia.
    - specialize (Hlow' He).
      assert (E : 2 ^ (- u) = 2 ^ (- ilog2 n d) * 2 ^ 52).
      { rewrite <- Z.pow_add_r by lia. f_equal. lia. }
      rewrite E. nia. }
  set (m := round_even (n * 2 ^ (- u)) d) in *. set (P := 2 ^ (- u)) in *.
  change (2 ^ 53) with (2 * 2 ^ 52). change (2 ^ 52) with 4503599627370496 in *. nia.
Qed.

Lemma binary64_error (x : Q) :
  (Qabs (binary64 x - x) <= Qabs x * (1 # 9007199254740992))%Q.
Proof.
  destruct x as [xn xd]. unfold binary64. cbn [Qnum Qden].
  destruct (Z.eqb_spec (Z.abs xn) 0) as [E0|Hn0].
  { assert (xn = 0) by lia. subst xn. unfold Qle. cbn. lia. }
  assert (Hn : 0 < Z.abs xn) by lia.
  assert (Hd : 0 < Z.pos xd) by lia.
  set (n := Z.abs xn) in *. set (d := Z.pos xd) in *.
  set (u := ilog2 n d - 52).
  destruct (Z.leb_spec 0 u) as [Hu|Hu].
  - pose proof (binary64_close_up n d u Hn Hd eq_refl Hu) as Hc.
    set (R := round_even n (d * 2 ^ u) * 2 ^ u) in *.
    destruct (Z.ltb_spec xn 0) as [Hneg|Hpos];
      unfold Qle, Qabs, Qminus, Qplus, Qopp, Qmult, inject_Z; cbn [Qnum Qden];
      rewrite ?Pos.mul_1_l, ?Pos2Z.inj_mul; fold d;
      change (Z.pos 9007199254740992) with (2 ^ 53).
    + replace (- R * d + - xn * 1) with (- (R * d - n)) by lia.
      rewrite Z.abs_opp. fold n. nia.
    + replace (R * d + - xn * 1) with (R * d - n) by lia.
      fold n. nia.
  - pose proof (binary64_close_down n d u Hn Hd eq_refl Hu) as Hc.
    assert (Hp : 0 < 2 ^ (- u)) by (apply Z.pow_pos_nonneg; lia).
    set (m := round_even (n * 2 ^ (- u)) d) in *.
    destruct (2 ^ (- u)) as [|p|p] eqn:EP; try lia.
    destruct (Z.ltb_spec xn 0) as [Hneg|Hpos];
      unfold Qdiv, Qinv, inject_Z; cbn [Qnum Qden];
      unfold Qle, Qabs, Qminus, Qplus, Qopp, Qmult; cbn [Qnum Qden];
      rewrite ?Pos.mul_1_l, ?Pos.mul_1_r, ?Pos2Z.inj_mul; fold d;
      change (Z.pos 9007199254740992) with (2 ^ 53).
    + replace (- (m * 1) * d + - xn * Z.pos p) with (- (m * d - n * Z.pos p)) by lia.
      rewrite Z.abs_opp. fold n. nia.
    + replace (m * 1 * d + - xn * Z.pos p) with (m * d - n * Z.pos p) by lia.
      fold n. nia.
Qed.

(** Rounding to double raises a magnitude by at most one part in 2^53. *)
Lemma binary64_abs_le (x : Q) :
  (Qabs (binary64 x) <= Qabs x * (9007199254740993 # 9007199254740992))%Q.
Proof.
  pose proof (binary64_error x) as He.
  pose proof (Qabs_triangle (binary64 x - x) x) as Ht.
  assert (E : (binary64 x - x + x == binary64 x)%Q) by ring.
  rewrite E in Ht.
  set (b := Qabs (binary64 x)) in *. set (e := Qabs (binary64 x - x)) in *.
  set (y := Qabs x) in *. clearbody b e y. clear E. lra.
Qed.

End Rounding.

(** ** The presenter's sync bands *)

(** [diff] is the drift in seconds up to the two roundings of its
    computation. *)
Lemma renderLoop_diff_bound v a :
  (Qabs (Player.renderLoop_diff v a)
   <= inject_Z (Z.abs (wrap_s64 (v - a))) * (1 # 1000000)
      * (9007199254740993 # 9007199254740992)
      * (9007199254740993 # 9007199254740992))%Q.
Proof.
  unfold Player.renderLoop_diff.
  set (x := wrap_s64 (v - a)).
  pose proof (binary64_abs_le (inject_Z x)) as H1.
  pose proof (binary64_abs_le (binary64 (inject_Z x) / inject_Z AV_TIME_BASE)) as H2.
  assert (E : (Qabs (binary64 (inject_Z x) / inject_Z AV_TIME_BASE)
               == Qabs (binary64 (inject_Z x)) * (1 # 1000000))%Q).
  { unfold Qdiv. rewrite Qabs_Qmult. reflexivity. }
  rewrite E in H2.
  change (Qabs (inject_Z x)) with (inject_Z (Z.abs x)) in H1.
  set (D := Qabs (binary64 (binary64 (inject_Z x) / inject_Z AV_TIME_BASE))) in *.
  set (A := Qabs (binary64 (inject_Z x))) in *.
  set (B := inject_Z (Z.abs x)) in *.
  clearbody D A B. clear E. lra.
Qed.

(** X17. Whatever the drift, the third branch of the chain of [renderLoop]
    is never taken: once the first two conditions have failed, [|diff|] lies between the two
    middle thresholds and [diff] cannot exceed the largest one. *)
Lemma renderLoop_sync_two_branches v a d :
  Player.renderLoop_sync v a d =
  let diff := Player.renderLoop_diff v a in
  if Qltb (Qabs diff) (inject_Z Player.AV_SYNC_THRESHOLD_MIN) then d
  else if Qltb (inject_Z Player.AV_SYNC_THRESHOLD_MAX) (Qabs diff)
       then Qmax 0 (binary64 (d + diff))
       else d.
Proof.
  unfold Player.renderLoop_sync. cbv zeta.
  set (diff := Player.renderLoop_diff v a).
  destruct (Qltb (Qabs diff) _) eqn:H1; [reflexivity|].
  destruct (Qltb (inject_Z Player.AV_SYNC_THRESHOLD_MAX) (Qabs diff)) eqn:H2;
    [reflexivity|].
  destruct (Qltb (inject_Z Player.AV_SYNC_FRAMEDUP_THRESHOLD) diff) eqn:H3;
    [|reflexivity].
  exfalso. apply Qltb_ge in H2. apply Qltb_lt in H3.
  pose proof (Qle_Qabs diff) as Habs.
  assert (Hc : (inject_Z Player.AV_SYNC_THRESHOLD_MAX
                < inject_Z Player.AV_SYNC_FRAMEDUP_THRESHOLD)%Q) by reflexivity.
  apply (Qlt_irrefl diff).
  eapply Qle_lt_trans; [exact Habs|].
  eapply Qle_lt_trans; [exact H2|].
  eapply Qlt_trans; [exact Hc|exact H3].
Qed.

(** The in-sync branch is taken for every drift below 40000 seconds, the
    value the first threshold has once it is read in the unit of [diff]. *)
Lemma renderLoop_sync_unchanged_below_40000_seconds v a d :
  Z.abs (wrap_s64 (v - a)) < Player.AV_SYNC_THRESHOLD_MIN * AV_TIME_BASE ->
  Player.renderLoop_sync v a d = d.
Proof.
  intros H. unfold Player.renderLoop_sync. cbv zeta.
  assert (Hlt : Qltb (Qabs (Player.renderLoop_diff v a))
                     (inject_Z Player.AV_SYNC_THRESHOLD_MIN) = true).
  { apply Qltb_lt. pose proof (renderLoop_diff_bound v a) as Hb.
    assert (Hx : (inject_Z (Z.abs (wrap_s64 (v - a))) <= inject_Z 39999999999)%Q).
    { rewrite <- Zle_Qle. unfold Player.AV_SYNC_THRESHOLD_MIN, AV_TIME_BASE in H. lia. }
    change (inject_Z Player.AV_SYNC_THRESHOLD_MIN) with (40000 # 1)%Q.
    change (inject_Z 39999999999) with (39999999999 # 1)%Q in Hx.
    set (D := Qabs (Player.renderLoop_diff v a)) in *.
    set (B := inject_Z (Z.abs (wrap_s64 (v - a)))) in *.
    clearbody D B. lra. }
  now rewrite Hlt.
Qed.

(** The chain on three drifts with a nominal delay of 40 ms: 10 ms and
    150 ms leave the delay alone, and the correction sets in at a drift of
    more than 100000 seconds, here with a delay of 1/32 s, for which the
    sum is a double. *)
Example renderLoop_sync_samples :
  Player.renderLoop_sync 10000 0 (40000 # 1000000) = (40000 # 1000000) /\
  Player.renderLoop_sync 150000 0 (40000 # 1000000) = (40000 # 1000000) /\
  (Player.renderLoop_sync 100001000000 0 (1 # 32) == 100001 + (1 # 32))%Q.
Proof. split_and!; vm_compute; reflexivity. Qed.

(** C1. Sync bands at a drift of 150 ms (video 150000 us ahead of the
    audio clock, nominal delay 40 ms): the claim asks for the hard
    correction [max(0, d + diff)], the code leaves [d] unchanged, because it
    compares [diff], in seconds, with thresholds held in microseconds. *)
Theorem sync_band_150ms_left_unchanged :
  Player.renderLoop_sync 150000 0 (40000 # 1000000) = (40000 # 1000000) /\
  ~ (Player.renderLoop_sync 150000 0 (40000 # 1000000)
     == Qmax 0 ((40000 # 1000000) + (150000 # 1000000)))%Q.
Proof.
  split; [vm_compute; reflexivity|].
  intros H. vm_compute in H. discriminate H.
Qed.

(** ** Volume *)

Lemma wrap_s32_small z : - 2 ^ 31 <= z < 2 ^ 31 -> wrap_s32 z = z.
Proof. unfold wrap_s32. intros H. rewrite Z.mod_small; lia. Qed.

Lemma round_nonneg (q : Q) : (0 <= q)%Q -> round q = Qfloor (q + (1 # 2))%Q.
Proof.
  intros H. unfold round.
  destruct (Qltb q 0) eqn:E; [|reflexivity].
  apply Qltb_lt in E. exfalso. apply (Qlt_irrefl q).
  eapply Qlt_le_trans; [exact E|exact H].
Qed.

(** [std::round] is within one half of its argument. *)
Lemma round_close (q : Q) :
  (0 <= q)%Q -> (Qabs (inject_Z (round q) - q) <= 1 # 2)%Q.
Proof.
  intros H. rewrite (round_nonneg q H).
  pose proof (Qfloor_le (q + (1 # 2))) as Hlo.
  pose proof (Qlt_floor (q + (1 # 2))) as Hhi.
  rewrite inject_Z_plus in Hhi. change (inject_Z 1) with 1%Q in Hhi.
  set (w := inject_Z (Qfloor (q + (1 # 2)))) in *.
  apply Qabs_Qle_condition. split; lra.
Qed.

Lemma round_scaled_range (x : Q) :
  (0 <= x <= 1)%Q -> 0 <= round (x * inject_Z SDL_MIX_MAXVOLUME) <= SDL_MIX_MAXVOLUME.
Proof.
  intros [H0 H1].
  assert (Hy : (0 <= x * inject_Z SDL_MIX_MAXVOLUME)%Q).
  { apply Qmult_le_0_compat; [exact H0|]. discriminate. }
  assert (Hy' : (x * inject_Z SDL_MIX_MAXVOLUME <= 1 * inject_Z SDL_MIX_MAXVOLUME)%Q).
  { apply Qmult_le_compat_r; [exact H1|]. discriminate. }
  rewrite (round_nonneg _ Hy).
  set (y := (x * inject_Z SDL_MIX_MAXVOLUME)%Q) in *.
  change (1 * inject_Z SDL_MIX_MAXVOLUME)%Q with (128 # 1) in Hy'.
  clearbody y.
  assert (Hlo : (0 <= y + (1 # 2))%Q) by (clear - Hy; lra).
  assert (Hhi : (y + (1 # 2) <= (128 # 1) + (1 # 2))%Q) by (clear - Hy'; lra).
  apply Qfloor_resp_le in Hlo, Hhi. split; [exact Hlo|exact Hhi].
Qed.

(** The level stored by [setVolume] for a finite argument in [0, 1]. *)
Lemma setVolume_stores (x : Q) (a : AudioPlayer.t) :
  (0 <= x <= 1)%Q ->
  AudioPlayer.volume_ (AudioPlayer.setVolume (Fin x) a)
  = round (x * inject_Z SDL_MIX_MAXVOLUME).
Proof.
  intros Hx. pose proof (round_scaled_range x Hx) as Hr. destruct Hx as [H0 H1].
  unfold AudioPlayer.setVolume. cbn [isnan dlt].
  assert (E0 : Qltb x 0 = false) by now apply Qltb_ge.
  rewrite E0. cbn [dlt].
  assert (E1 : Qltb 1 x = false) by now apply Qltb_ge.
  rewrite E1. cbn [dmul_int dround to_int AudioPlayer.set_volume AudioPlayer.volume_].
  rewrite Qfloor_Z. apply wrap_s32_small.
  set (v := round (x * inject_Z SDL_MIX_MAXVOLUME)) in *.
  unfold SDL_MIX_MAXVOLUME in Hr. lia.
Qed.

(** Whatever the argument, the stored level is between 0 and the maximum. *)
Lemma setVolume_range (d : double) (a : AudioPlayer.t) :
  0 <= AudioPlayer.volume_ (AudioPlayer.setVolume d a) <= SDL_MIX_MAXVOLUME.
Proof.
  assert (Hone : forall b, 0 <= AudioPlayer.volume_ (AudioPlayer.setVolume (Fin 1) b)
                           <= SDL_MIX_MAXVOLUME) by (intros b; vm_compute; split; discriminate).
  assert (Hzero : forall b, 0 <= AudioPlayer.volume_ (AudioPlayer.setVolume (Fin 0) b)
                            <= SDL_MIX_MAXVOLUME) by (intros b; vm_compute; split; discriminate).
  destruct d as [|[|]|x].
  - apply (Hone a).
  - apply (Hzero a).
  - apply (Hone a).
  - destruct (Qltb x 0) eqn:E0.
    + unfold AudioPlayer.setVolume. cbn [isnan dlt]. rewrite E0. apply (Hzero a).
    + destruct (Qltb 1 x) eqn:E1.
      * unfold AudioPlayer.setVolume. cbn [isnan dlt]. rewrite E0. cbn [dlt].
        rewrite E1. apply (Hone a).
      * apply Qltb_ge in E0, E1. rewrite setVolume_stores by (split; assumption).
        apply round_scaled_range. split; assumption.
Qed.

(** Setting the volume to what [getVolume] reports stores the same level. *)
Lemma setVolume_getVolume_level (a : AudioPlayer.t) :
  0 <= AudioPlayer.volume_ a <= SDL_MIX_MAXVOLUME ->
  AudioPlayer.volume_ (AudioPlayer.setVolume (AudioPlayer.getVolume a) a)
  = AudioPlayer.volume_ a.
Proof.
  intros Hv. unfold AudioPlayer.getVolume.
  set (v := AudioPlayer.volume_ a) in *.
  assert (Hq : (0 <= inject_Z v / inject_Z SDL_MIX_MAXVOLUME <= 1)%Q).
  { change (inject_Z v / inject_Z SDL_MIX_MAXVOLUME)%Q with (v * 1 # 128).
    unfold SDL_MIX_MAXVOLUME in Hv. unfold Qle. cbn [Qnum Qden]. lia. }
  rewrite setVolume_stores by exact Hq.
  assert (Hy : (inject_Z v / inject_Z SDL_MIX_MAXVOLUME * inject_Z SDL_MIX_MAXVOLUME
                == inject_Z v)%Q) by (field; discriminate).
  rewrite round_nonneg by (rewrite Hy; unfold Qle; cbn; lia).
  rewrite Hy, <- (Qfloor_Z v) at 1.
  assert (Hle : (inject_Z v <= inject_Z v + (1 # 2))%Q) by lra.
  assert (Hlt : (inject_Z v + (1 # 2) < inject_Z (v + 1))%Q)
    by (rewrite inject_Z_plus; change (inject_Z 1) with 1%Q; lra).
  apply Qfloor_resp_le in Hle. rewrite Qfloor_Z in Hle.
  pose proof (Qfloor_le (inject_Z v + (1 # 2))) as Hfl.
  assert (Hz : (inject_Z (Qfloor (inject_Z v + (1 # 2))) < inject_Z (v + 1))%Q)
    by (eapply Qle_lt_trans; eassumption).
  rewrite <- Zlt_Qlt in Hz. rewrite Qfloor_Z. lia.
Qed.

(** The clamp and the rounding on a few arguments: not-a-number and
    anything above 1 give the maximum, anything below 0 gives 0, and a half
    is rounded away from zero. *)
Example setVolume_samples :
  map (fun d => AudioPlayer.volume_ (AudioPlayer.setVolume d AudioPlayer.new))
      [NaN; Inf false; Inf true; Fin (3 # 2); Fin (- (1 # 4)); Fin (1 # 2);
       Fin (1 # 256); Fin (1 # 3)]
  = [128; 128; 0; 128; 0; 64; 1; 43].
Proof. vm_compute. reflexivity. Qed.

(** C10. For a finite [x] in [0, 1], [getVolume] after [setVolume x] gives
    [round (x * 128) / 128], which is within [1 / 256] of [x]; and setting
    the volume to the value just read back leaves the object unchanged. *)
Theorem volume_round_trip (x : Q) (a : AudioPlayer.t) :
  (0 <= x <= 1)%Q ->
  let a' := AudioPlayer.setVolume (Fin x) a in
  AudioPlayer.getVolume a'
  = Fin (inject_Z (round (x * inject_Z SDL_MIX_MAXVOLUME)) / inject_Z SDL_MIX_MAXVOLUME) /\
  (Qabs (inject_Z (round (x * inject_Z SDL_MIX_MAXVOLUME)) / inject_Z SDL_MIX_MAXVOLUME - x)
   <= 1 # 256)%Q /\
  AudioPlayer.setVolume (AudioPlayer.getVolume a') a' = a'.
Proof.
  intros Hx a'. split_and!.
  - unfold AudioPlayer.getVolume. subst a'. now rewrite setVolume_stores.
  - assert (Hy : (0 <= x * inject_Z SDL_MIX_MAXVOLUME)%Q).
    { apply Qmult_le_0_compat; [apply Hx|]. discriminate. }
    pose proof (round_close _ Hy) as Hc.
    apply Qabs_Qle_condition in Hc. destruct Hc as [Hlo Hhi].
    apply Qabs_Qle_condition. unfold SDL_MIX_MAXVOLUME in *.
    set (z := inject_Z (round (x * inject_Z 128))) in *.
    assert (Hdiv : (z / inject_Z 128 == z * (1 # 128))%Q) by reflexivity.
    rewrite Hdiv. change (inject_Z 128) with (128 # 1) in *.
    clearbody z. clear - Hlo Hhi. split; lra.
  - pose proof (setVolume_getVolume_level a' (setVolume_range (Fin x) a)) as Hlvl.
    unfold AudioPlayer.setVolume in Hlvl |- *.
    cbv zeta in Hlvl |- *.
    cbn [AudioPlayer.set_volume AudioPlayer.volume_] in Hlvl.
    unfold AudioPlayer.set_volume at 1. rewrite Hlvl.
    subst a'. unfold AudioPlayer.setVolume. cbv zeta.
    unfold AudioPlayer.set_volume. reflexivity.
Qed.

Lemma volume_round_trip_witness :
  (0 <= 1 # 3 <= 1)%Q /\
  AudioPlayer.getVolume (AudioPlayer.setVolume (Fin (1 # 3)) AudioPlayer.new)
  = Fin (inject_Z 43 / inject_Z 128).
Proof.
  assert (H : (0 <= 1 # 3 <= 1)%Q) by (split; discriminate).
  split; [exact H|].
  exact (proj1 (volume_round_trip (1 # 3) AudioPlayer.new H)).
Defined.

(** ** The frame queue *)

Section FrameQueue.
Import StreamSource.

Lemma queue_kept_refl s : queue_kept s s.
Proof. unfold queue_kept. tauto. Qed.

Lemma queue_kept_trans s1 s2 s3 :
  queue_kept s1 s2 -> queue_kept s2 s3 -> queue_kept s1 s3.
Proof. unfold queue_kept. intros (-> & -> & H1) (-> & -> & H2). tauto. Qed.

(** A state that differs only outside the queue and its capacity. *)
Lemma queue_kept_same s s' :
  frame_queue_ s' = frame_queue_ s -> MAX_QUEUE_SIZE s' = MAX_QUEUE_SIZE s ->
  type_ s' = type_ s -> queue_kept s s'.
Proof. unfold queue_kept, queue_ok. intros -> -> ->. tauto. Qed.

Lemma pushFrameToQueue_kept f s : queue_kept s (pushFrameToQueue f s).
Proof.
  unfold pushFrameToQueue. destruct f as [fr|]; [|apply queue_kept_refl].
  destruct (MAX_QUEUE_SIZE s <=? Z.of_nat (length (frame_queue_ s))) eqn:E;
    [apply queue_kept_refl|].
  apply Z.leb_gt in E. unfold queue_kept, queue_ok. cbn.
  rewrite length_app. cbn. split_and!; try reflexivity. lia.
Qed.

Lemma clearFrameQueue_kept s :
  0 <= MAX_QUEUE_SIZE s -> queue_kept s (clearFrameQueue s).
Proof. intros H. unfold queue_kept, queue_ok. cbn. tauto. Qed.

Lemma getNextFrame_kept s : queue_kept s (snd (getNextFrame s)).
Proof.
  unfold getNextFrame. destruct (frame_queue_ s) eqn:E; cbn; [apply queue_kept_refl|].
  unfold queue_kept, queue_ok. cbn. rewrite E. cbn. split_and!; try reflexivity. lia.
Qed.

Lemma process_frames_kept L fuel packet dec s :
  queue_kept s (snd (process_frames L fuel packet dec s)).
Proof.
  revert dec s. induction fuel as [|fuel IH]; intros dec s; [apply queue_kept_refl|].
  cbn [process_frames].
  destruct (Decoder.receiveFrame dec) as [[raw|] dec']; [|apply queue_kept_refl].
  cbv zeta.
  match goal with
  | |- context [if ?c then (?p1, ?s1) else (?p2, ?s2)] =>
      assert (Hs : queue_kept s (snd (if c then (p1, s1) else (p2, s2))))
        by (destruct c; cbn [snd]; [now apply queue_kept_same|apply queue_kept_refl]);
      destruct (if c then (p1, s1) else (p2, s2)) as [pts s1'] eqn:Es
  end.
  cbn [snd] in Hs.
  destruct (av_frame_clone L raw) as [clone|].
  - eapply queue_kept_trans; [exact Hs|].
    eapply queue_kept_trans; [apply pushFrameToQueue_kept|apply IH].
  - eapply queue_kept_trans; [exact Hs|apply IH].
Qed.

Lemma processPacket_kept L packet s : queue_kept s (processPacket L packet s).
Proof.
  unfold processPacket. destruct (decoder_ s) as [dec|]; [|apply queue_kept_refl].
  destruct (Decoder.isOpen dec); cbn [negb]; [|apply queue_kept_refl].
  destruct (Decoder.decodePacket L packet dec) as [ret dec1].
  destruct (ret <? 0); [now apply queue_kept_same|].
  pose proof (process_frames_kept L (S (ready_count dec1)) packet dec1 s) as H.
  destruct (process_frames L (S (ready_count dec1)) packet dec1 s) as [dec2 s'].
  cbn [snd] in H. eapply queue_kept_trans; [exact H|]. now apply queue_kept_same.
Qed.

Lemma seek_frames_kept L fuel ts n dec s :
  queue_kept s (snd (seek_frames L fuel ts n dec s)).
Proof.
  revert n dec s. induction fuel as [|fuel IH]; intros n dec s; [apply queue_kept_refl|].
  cbn [seek_frames].
  destruct (Decoder.receiveFrame dec) as [[avframe|] dec']; [|apply queue_kept_refl].
  cbv zeta.
  destruct (_ =? AV_NOPTS_VALUE); [apply IH|].
  destruct (av_frame_clone L avframe) as [clone|]; [|apply IH].
  destruct (ts <=? _); [|apply IH].
  destruct (5 <=? n + 1); cbn [snd].
  - apply pushFrameToQueue_kept.
  - eapply queue_kept_trans; [apply pushFrameToQueue_kept|apply IH].
Qed.

Lemma seek_packets_kept L fuel ts n s :
  queue_kept s (snd (seek_packets L fuel ts n s)).
Proof.
  revert n s. induction fuel as [|fuel IH]; intros n s; [apply queue_kept_refl|].
  cbn [seek_packets].
  destruct (demuxer_ s) as [dmx|]; [|apply queue_kept_refl].
  destruct (decoder_ s) as [dec|]; [|apply queue_kept_refl].
  destruct (Demuxer.readNextPacket dmx) as [[p|] dmx']; cbv zeta;
    [|now apply queue_kept_same].
  assert (H1 : queue_kept s (set_demuxer (Some dmx') s)) by now apply queue_kept_same.
  destruct (negb _); [eapply queue_kept_trans; [exact H1|apply IH]|].
  destruct (Decoder.decodePacket L (Some p) dec) as [ret dec1].
  destruct (ret <? 0); [now apply queue_kept_same|].
  pose proof (seek_frames_kept L (S (ready_count dec1)) ts n dec1
                (set_demuxer (Some dmx') s)) as H2.
  destruct (seek_frames L (S (ready_count dec1)) ts n dec1 (set_demuxer (Some dmx') s))
    as [[[done n'] dec2] s2].
  cbn [snd] in H2.
  assert (H3 : queue_kept s (set_decoder (Some dec2) s2)).
  { eapply queue_kept_trans; [exact H1|].
    eapply queue_kept_trans; [exact H2|]. now apply queue_kept_same. }
  destruct done; cbn [snd]; [exact H3|].
  eapply queue_kept_trans; [exact H3|apply IH].
Qed.

Lemma seek_kept L ts s :
  0 <= MAX_QUEUE_SIZE s -> queue_kept s (snd (seek L ts s)).
Proof.
  intros Hcap. unfold seek, seek_run.
  destruct ((ts <? 0) || (getDuration L s <? ts)); [apply queue_kept_refl|].
  destruct (demuxer_ s) as [dmx|]; [|apply queue_kept_refl].
  destruct (Demuxer.seek L ts AVSEEK_FLAG_BACKWARD dmx) as [ok dmx'].
  cbv zeta. destruct ok; cbn [negb snd]; [|now apply queue_kept_same].
  match goal with
  | |- context [seek_packets L ?f ts 0 ?s3] =>
      pose proof (seek_packets_kept L f ts 0 s3) as H;
      destruct (seek_packets L f ts 0 s3) as [e s4];
      assert (H0 : queue_kept s s3)
  end.
  { unfold queue_kept, queue_ok. cbn. tauto. }
  cbn [snd] in *. eapply queue_kept_trans; eassumption.
Qed.

Lemma open_kept fs filename s : queue_kept s (snd (open fs filename s)).
Proof.
  unfold open.
  destruct (Demuxer.open fs filename (Demuxer.new (type_ s))) as [ok dmx].
  cbv zeta. destruct ok; cbn [negb]; [|now apply queue_kept_same].
  destruct (Demuxer.getAVStream dmx) as [stream|]; [|now apply queue_kept_same].
  match goal with
  | |- context [initializeDecoder ?st ?s2] =>
      assert (H : queue_kept s (snd (initializeDecoder st s2)));
      [|destruct (initializeDecoder st s2) as [ok' s3]]
  end.
  { unfold initializeDecoder. cbn [decoder_ set_decoder].
    destruct (Decoder.open _ _) as [ok dec']. cbv zeta.
    destruct ok; cbn [negb snd]; [|now apply queue_kept_same].
    cbn [type_ set_decoder set_demuxer].
    destruct (type_ s) eqn:Et; cbn [snd]; apply queue_kept_same; cbn; congruence. }
  cbn [snd] in H.
  destruct ok'; cbn [negb snd];
    (eapply queue_kept_trans; [exact H|]); now apply queue_kept_same.
Qed.

Lemma close_kept s : 0 <= MAX_QUEUE_SIZE s -> queue_kept s (close s).
Proof.
  intros H. unfold close. cbv zeta.
  unfold queue_kept, queue_ok.
  destruct (decoder_ _) as [dec|]; [destruct (Decoder.isOpen dec)|]; cbn; tauto.
Qed.

Lemma startDecoding_kept s :
  0 <= MAX_QUEUE_SIZE s -> queue_kept s (default s (startDecoding s)).
Proof.
  intros H. unfold startDecoding.
  destruct (State_eqb (state_ s) Running); [apply queue_kept_refl|].
  cbv zeta.
  destruct (decoding_thread_ _); [apply queue_kept_refl|].
  unfold queue_kept, queue_ok.
  destruct (State_eqb (state_ s) Stopped); cbn; tauto.
Qed.

Lemma source_call_kept L c s :
  0 <= MAX_QUEUE_SIZE s -> queue_kept s (source_call L c s).
Proof.
  intros H. destruct c; cbn [source_call].
  - apply open_kept.
  - now apply close_kept.
  - now apply startDecoding_kept.
  - unfold pauseDecoding. destruct (State_eqb _ _);
      [now apply queue_kept_same|apply queue_kept_refl].
  - unfold resumeDecoding. destruct (State_eqb _ _);
      [now apply queue_kept_same|apply queue_kept_refl].
  - now apply queue_kept_same.
  - now apply seek_kept.
  - apply getNextFrame_kept.
  - apply processPacket_kept.
  - apply pushFrameToQueue_kept.
  - now apply clearFrameQueue_kept.
Qed.

Lemma source_calls_kept L cs s :
  0 <= MAX_QUEUE_SIZE s -> queue_kept s (source_calls L cs s).
Proof.
  revert s. induction cs as [|c cs IH]; intros s H; [apply queue_kept_refl|].
  cbn [source_calls fold_left].
  pose proof (source_call_kept L c s H) as Hc.
  eapply queue_kept_trans; [exact Hc|].
  apply IH. destruct Hc as (-> & _). exact H.
Qed.

End FrameQueue.

(** C7. Queue bound: after any sequence of calls on a stream source made
    by the constructor, the frame queue is no longer than the capacity,
    which is 30 for video and 50 for audio; [pushFrameToQueue] on a full
    queue leaves the source as it is, and [getNextFrame] on an empty queue
    returns no frame at once and changes nothing. *)
Theorem frame_queue_never_exceeds_capacity
    (L : Lib) (type : Type_) (calls : list SourceCall) :
  let s := source_calls L calls (StreamSource.new type) in
  StreamSource.MAX_QUEUE_SIZE s = match type with Video => 30 | Audio => 50 end /\
  Z.of_nat (length (StreamSource.frame_queue_ s)) <= StreamSource.MAX_QUEUE_SIZE s /\
  (forall f, StreamSource.MAX_QUEUE_SIZE s <= Z.of_nat (length (StreamSource.frame_queue_ s)) ->
             StreamSource.pushFrameToQueue f s = s) /\
  (StreamSource.frame_queue_ s = [] -> StreamSource.getNextFrame s = (None, s)).
Proof.
  intros s.
  assert (Hcap : 0 <= StreamSource.MAX_QUEUE_SIZE (StreamSource.new type))
    by (destruct type; cbn; lia).
  destruct (source_calls_kept L calls (StreamSource.new type) Hcap) as (Hmax & _ & Hq).
  fold s in Hmax, Hq. split_and!.
  - rewrite Hmax. now destruct type.
  - apply Hq. unfold queue_ok. destruct type; cbn; lia.
  - intros f Hfull. unfold StreamSource.pushFrameToQueue.
    destruct f as [fr|]; [|reflexivity].
    apply Z.leb_le in Hfull. now rewrite Hfull.
  - intros Hempty. unfold StreamSource.getNextFrame. now rewrite Hempty.
Qed.

(** ** Seek *)

Section Seek.
Import StreamSource.

Lemma seek_progress_push ts n fr s :
  n < MAX_QUEUE_SIZE s -> ts <= pts fr ->
  seek_progress ts n s -> seek_progress ts (n + 1) (pushFrameToQueue (Some fr) s).
Proof.
  intros Hcap Hts [Hlen Hall]. unfold pushFrameToQueue.
  destruct (MAX_QUEUE_SIZE s <=? Z.of_nat (length (frame_queue_ s))) eqn:E.
  - apply Z.leb_le in E. lia.
  - unfold seek_progress. cbn. rewrite length_app. cbn. split; [lia|].
    apply Forall_app. split; [exact Hall|]. now constructor.
Qed.

(** The inner loop keeps the count equal to the queue length, queues only
    frames at or after the target, and reports the fifth one. *)
Lemma seek_frames_progress L fuel ts n dec s done n' dec' s' :
  5 <= MAX_QUEUE_SIZE s -> 0 <= n < 5 -> seek_progress ts n s ->
  seek_frames L fuel ts n dec s = (done, n', dec', s') ->
  seek_progress ts n' s' /\ n <= n' /\
  (done = true -> n' = 5) /\ (done = false -> n' < 5) /\
  queue_kept s s' /\ demuxer_ s' = demuxer_ s.
Proof.
  revert n dec s. induction fuel as [|fuel IH]; intros n dec s Hcap Hn Hp Hrun.
  - cbn in Hrun. injection Hrun as <- <- <- <-.
    split_and!; first [done | lia | apply queue_kept_refl].
  - cbn [seek_frames] in Hrun.
    destruct (Decoder.receiveFrame dec) as [[avframe|] d1].
    2:{ injection Hrun as <- <- <- <-.
        split_and!; first [done | lia | apply queue_kept_refl]. }
    cbv zeta in Hrun.
    destruct (_ =? AV_NOPTS_VALUE); [now apply (IH n d1 s)|].
    destruct (av_frame_clone L avframe) as [clone|]; [|now apply (IH n d1 s)].
    match type of Hrun with
    | context [pushFrameToQueue (Some ?x) s] => set (fr := x) in *
    end.
    destruct (ts <=? _) eqn:Ets; [|now apply (IH n d1 s)].
    apply Z.leb_le in Ets.
    assert (Hp1 : seek_progress ts (n + 1) (pushFrameToQueue (Some fr) s))
      by (apply seek_progress_push; [lia|exact Ets|exact Hp]).
    pose proof (pushFrameToQueue_kept (Some fr) s) as Hk.
    assert (Hd : demuxer_ (pushFrameToQueue (Some fr) s) = demuxer_ s).
    { unfold pushFrameToQueue.
      destruct (MAX_QUEUE_SIZE s <=? Z.of_nat (length (frame_queue_ s))); reflexivity. }
    destruct (5 <=? n + 1) eqn:E5.
    + apply Z.leb_le in E5. injection Hrun as <- <- <- <-.
      split_and!; try done; try lia.
    + apply Z.leb_gt in E5.
      destruct (IH (n + 1) d1 (pushFrameToQueue (Some fr) s)) as (A & B & C & D & E & F);
        try done; try lia.
      { destruct Hk as (-> & _). exact Hcap. }
      split_and!; try done; try lia.
      * eapply queue_kept_trans; eassumption.
      * congruence.
Qed.

(** The outer loop: the exit [QueuedFive] leaves five frames in the queue,
    the two others fewer, and all of them are at or after the target. *)
Lemma seek_packets_progress L fuel ts n s e s' :
  5 <= MAX_QUEUE_SIZE s -> 0 <= n < 5 -> seek_progress ts n s ->
  seek_packets L fuel ts n s = (e, s') ->
  exists n', seek_progress ts n' s' /\
             (e = QueuedFive -> n' = 5) /\ (e <> QueuedFive -> n' < 5).
Proof.
  revert n s. induction fuel as [|fuel IH]; intros n s Hcap Hn Hp Hrun.
  - cbn in Hrun. injection Hrun as <- <-. exists n. split_and!; try done. lia.
  - cbn [seek_packets] in Hrun.
    destruct (demuxer_ s) as [dmx|];
      [|injection Hrun as <- <-; exists n; split_and!; try done; lia].
    destruct (decoder_ s) as [dec|];
      [|injection Hrun as <- <-; exists n; split_and!; try done; lia].
    destruct (Demuxer.readNextPacket dmx) as [[p|] dmx']; cbv zeta in Hrun.
    2:{ injection Hrun as <- <-. exists n. split_and!; try done. lia. }
    assert (Hp1 : seek_progress ts n (set_demuxer (Some dmx') s)) by exact Hp.
    destruct (negb _); [now apply (IH n (set_demuxer (Some dmx') s))|].
    destruct (Decoder.decodePacket L (Some p) dec) as [ret dec1].
    destruct (ret <? 0).
    { injection Hrun as <- <-. exists n. split_and!; try done. lia. }
    destruct (seek_frames L (S (ready_count dec1)) ts n dec1 (set_demuxer (Some dmx') s))
      as [[[done n'] dec2] s2] eqn:Efr.
    assert (Hcap1 : 5 <= MAX_QUEUE_SIZE (set_demuxer (Some dmx') s)) by exact Hcap.
    destruct (seek_frames_progress L _ ts n dec1 _ done n' dec2 s2 Hcap1 Hn Hp1 Efr)
      as (A & B & C & D & (Hmax & _) & _).
    assert (Hp3 : seek_progress ts n' (set_decoder (Some dec2) s2)) by exact A.
    destruct done.
    + injection Hrun as <- <-. exists n'. split_and!; try done. intros _. now apply C.
    + apply (IH n' (set_decoder (Some dec2) s2)); try done.
      * cbn. rewrite Hmax. exact Hcap.
      * specialize (D eq_refl). lia.
Qed.

Lemma seek_run_progress L ts s e s' :
  5 <= MAX_QUEUE_SIZE s ->
  seek_run L ts s = (Some e, s') ->
  0 <= ts <= getDuration L s /\
  exists n', seek_progress ts n' s' /\
             (e = QueuedFive -> n' = 5) /\ (e <> QueuedFive -> n' < 5).
Proof.
  intros Hcap Hrun. unfold seek_run in Hrun.
  destruct ((ts <? 0) || (getDuration L s <? ts)) eqn:Erange; [discriminate|].
  apply orb_false_elim in Erange. destruct Erange as [E1 E2].
  apply Z.ltb_ge in E1, E2. split; [lia|].
  destruct (demuxer_ s) as [dmx|]; [|discriminate].
  destruct (Demuxer.seek L ts AVSEEK_FLAG_BACKWARD dmx) as [ok dmx'].
  cbv zeta in Hrun. destruct ok; cbn [negb] in Hrun; [|discriminate].
  match type of Hrun with
  | context [seek_packets L ?f ts 0 ?s3] =>
      destruct (seek_packets L f ts 0 s3) as [e' s4] eqn:Ep
  end.
  injection Hrun as <- <-.
  eapply seek_packets_progress; [| |  |exact Ep].
  - exact Hcap.
  - lia.
  - split; [reflexivity|constructor].
Qed.

(** *** The loops run to their own exit *)

Lemma receiveFrame_ready dec f dec' :
  Decoder.receiveFrame dec = (Some f, dec') -> ready_count dec = S (ready_count dec').
Proof.
  unfold Decoder.receiveFrame, ready_count.
  destruct (Decoder.codec_ctx_ dec) as [ctx|]; [|discriminate].
  destruct (Decoder.ready ctx) as [|f0 rest]; [discriminate|].
  intros E. injection E as <- <-. reflexivity.
Qed.

(** With more rounds than ready frames, the drain loop of [processPacket]
    ends when the decoder has no frame left, whatever the bound. *)
Lemma process_frames_fuel L fuel1 fuel2 packet dec s :
  (ready_count dec < fuel1)%nat -> (ready_count dec < fuel2)%nat ->
  process_frames L fuel1 packet dec s = process_frames L fuel2 packet dec s.
Proof.
  revert fuel2 dec s. induction fuel1 as [|fuel1 IH]; intros fuel2 dec s H1 H2; [lia|].
  destruct fuel2 as [|fuel2]; [lia|].
  cbn [process_frames].
  destruct (Decoder.receiveFrame dec) as [[raw|] dec'] eqn:E; [|reflexivity].
  apply receiveFrame_ready in E. cbv zeta.
  destruct (if _ =? AV_NOPTS_VALUE then _ else _) as [pts s1].
  destruct (av_frame_clone L raw); apply IH; lia.
Qed.

(** The same for the inner loop of [seek]. *)
Lemma seek_frames_fuel L fuel1 fuel2 ts n dec s :
  (ready_count dec < fuel1)%nat -> (ready_count dec < fuel2)%nat ->
  seek_frames L fuel1 ts n dec s = seek_frames L fuel2 ts n dec s.
Proof.
  revert fuel2 n dec s. induction fuel1 as [|fuel1 IH]; intros fuel2 n dec s H1 H2; [lia|].
  destruct fuel2 as [|fuel2]; [lia|].
  cbn [seek_frames].
  destruct (Decoder.receiveFrame dec) as [[avframe|] dec'] eqn:E; [|reflexivity].
  apply receiveFrame_ready in E. cbv zeta.
  destruct (_ =? AV_NOPTS_VALUE); [apply IH; lia|].
  destruct (av_frame_clone L avframe); [|apply IH; lia].
  destruct (ts <=? _); [|apply IH; lia].
  destruct (5 <=? n + 1); [reflexivity|apply IH; lia].
Qed.

Lemma read_loop_shorter index items p rest saw_eof :
  Demuxer.read_loop index items = (Some p, rest, saw_eof) ->
  (length rest < length items)%nat.
Proof.
  revert p rest saw_eof. induction items as [|it items IH]; intros p rest saw_eof;
    cbn [Demuxer.read_loop]; [discriminate|].
  destruct it as [q|code]; [|discriminate].
  destruct (stream_index q =? index).
  - intros E. injection E as <- <- <-. cbn. lia.
  - intros E. apply IH in E. cbn. lia.
Qed.

Lemma readNextPacket_shorter dmx p dmx' s :
  Demuxer.readNextPacket dmx = (Some p, dmx') ->
  (pending_count (set_demuxer (Some dmx') s) < pending_count (set_demuxer (Some dmx) s))%nat.
Proof.
  unfold Demuxer.readNextPacket, pending_count. cbn [demuxer_ set_demuxer].
  destruct (Demuxer.format_ctx_ dmx) as [ctx|]; [|discriminate].
  destruct (Demuxer.stream_index_ dmx <? 0); [discriminate|].
  destruct (Demuxer.read_loop _ _) as [[q rest] saw_eof] eqn:E.
  intros H. injection H as -> <-. cbn. now apply read_loop_shorter in E.
Qed.

Lemma seek_frames_demuxer L fuel ts n dec s :
  demuxer_ (snd (seek_frames L fuel ts n dec s)) = demuxer_ s.
Proof.
  revert n dec s. induction fuel as [|fuel IH]; intros n dec s; [reflexivity|].
  cbn [seek_frames].
  destruct (Decoder.receiveFrame dec) as [[avframe|] dec']; [|reflexivity].
  cbv zeta.
  destruct (_ =? AV_NOPTS_VALUE); [apply IH|].
  destruct (av_frame_clone L avframe) as [clone|]; [|apply IH].
  destruct (ts <=? _); [|apply IH].
  match goal with
  | |- context [pushFrameToQueue ?f s] =>
      assert (Hd : demuxer_ (pushFrameToQueue f s) = demuxer_ s)
        by (unfold pushFrameToQueue;
            destruct (MAX_QUEUE_SIZE s <=? Z.of_nat (length (frame_queue_ s)));
            reflexivity)
  end.
  destruct (5 <=? n + 1); cbn [snd]; [exact Hd|].
  rewrite IH. exact Hd.
Qed.

(** With more rounds than items left in the file, the outer loop of [seek]
    ends at one of its own exits, whatever the bound. *)
Lemma seek_packets_fuel L fuel1 fuel2 ts n s :
  (pending_count s < fuel1)%nat -> (pending_count s < fuel2)%nat ->
  seek_packets L fuel1 ts n s = seek_packets L fuel2 ts n s.
Proof.
  revert fuel2 n s. induction fuel1 as [|fuel1 IH]; intros fuel2 n s H1 H2; [lia|].
  destruct fuel2 as [|fuel2]; [lia|].
  cbn [seek_packets].
  destruct (demuxer_ s) as [dmx|] eqn:Ed; [|reflexivity].
  destruct (decoder_ s) as [dec|]; [|reflexivity].
  destruct (Demuxer.readNextPacket dmx) as [[p|] dmx'] eqn:Er; [|reflexivity].
  cbv zeta.
  pose proof (readNextPacket_shorter dmx p dmx' s Er) as Hlt.
  assert (Hsame : pending_count (set_demuxer (Some dmx) s) = pending_count s)
    by (unfold pending_count; cbn [demuxer_ set_demuxer]; now rewrite Ed).
  destruct (negb _); [apply IH; lia|].
  destruct (Decoder.decodePacket L (Some p) dec) as [ret dec1].
  destruct (ret <? 0); [reflexivity|].
  pose proof (seek_frames_demuxer L (S (ready_count dec1)) ts n dec1
                (set_demuxer (Some dmx') s)) as Hd.
  destruct (seek_frames L (S (ready_count dec1)) ts n dec1 (set_demuxer (Some dmx') s))
    as [[[done n'] dec2] s2].
  cbn [snd] in Hd. destruct done; [reflexivity|].
  apply IH; unfold pending_count in *; cbn [demuxer_ set_decoder set_demuxer] in *;
    rewrite Hd; lia.
Qed.

(** *** What the exit on no packet means *)

Lemma read_loop_end index items rest saw_eof :
  error_free items ->
  Demuxer.read_loop index items = (None, rest, saw_eof) ->
  rest = [] /\ saw_eof = true.
Proof.
  intros Hfree. revert rest saw_eof.
  induction Hfree as [|it items Hit _ IH]; intros rest saw_eof; cbn [Demuxer.read_loop].
  - intros E. injection E as <- <-. now split.
  - destruct it as [q|code]; [|contradiction].
    destruct (stream_index q =? index); [discriminate|apply IH].
Qed.

Lemma read_loop_error_free index items p rest saw_eof :
  error_free items ->
  Demuxer.read_loop index items = (p, rest, saw_eof) -> error_free rest.
Proof.
  intros Hfree. revert p rest saw_eof.
  induction Hfree as [|it items Hit Hfree IH]; intros p rest saw_eof;
    cbn [Demuxer.read_loop].
  - intros E. injection E as <- <- <-. constructor.
  - destruct it as [q|code]; [|contradiction].
    destruct (stream_index q =? index); [|apply IH].
    intros E. injection E as <- <- <-. exact Hfree.
Qed.

(** X19. On a file read without error, the loop of [seek] leaves by its
    [break] only at the end of the file: nothing is left to read and the
    demuxer has seen EOF. *)
Lemma seek_packets_no_packet_is_end_of_file L fuel ts n s s' :
  source_reading s -> (pending_count s < fuel)%nat ->
  seek_packets L fuel ts n s = (NoPacket, s') ->
  exists dmx', demuxer_ s' = Some dmx' /\ Demuxer.isEOF dmx' = true /\
               pending_count s' = 0%nat.
Proof.
  revert n s. induction fuel as [|fuel IH]; intros n s Hread Hfuel Hrun; [lia|].
  destruct Hread as (dmx & ctx & dec & Hd & Hctx & Hidx & Hfree & Hdec).
  cbn [seek_packets] in Hrun. rewrite Hd, Hdec in Hrun.
  destruct (Demuxer.readNextPacket dmx) as [[p|] dmx'] eqn:Er; cbv zeta in Hrun.
  - pose proof (readNextPacket_shorter dmx p dmx' s Er) as Hlt.
    assert (Hsame : pending_count (set_demuxer (Some dmx) s) = pending_count s)
      by (unfold pending_count; cbn [demuxer_ set_demuxer]; now rewrite Hd).
    assert (Hread1 : forall dec', source_reading
                       (set_decoder (Some dec') (set_demuxer (Some dmx') s))).
    { intros dec'. unfold Demuxer.readNextPacket in Er. rewrite Hctx in Er.
      apply Z.ltb_ge in Hidx. rewrite Hidx in Er.
      destruct (Demuxer.read_loop _ _) as [[q rest] saw_eof] eqn:El.
      injection Er as -> <-.
      eexists _, _, dec'. cbn. split_and!; try reflexivity.
      - now apply Z.ltb_ge.
      - eapply read_loop_error_free; eassumption. }
    destruct (negb _).
    { apply (IH n (set_demuxer (Some dmx') s)); [|lia|exact Hrun].
      destruct (Hread1 dec) as (d1 & c1 & _ & A & B & C & D & _).
      exists d1, c1, dec. split_and!; try done. }
    destruct (Decoder.decodePacket L (Some p) dec) as [ret dec1].
    destruct (ret <? 0); [discriminate|].
    pose proof (seek_frames_demuxer L (S (ready_count dec1)) ts n dec1
                  (set_demuxer (Some dmx') s)) as Hd2.
    destruct (seek_frames L (S (ready_count dec1)) ts n dec1 (set_demuxer (Some dmx') s))
      as [[[done n'] dec2] s2].
    cbn [snd] in Hd2. destruct done; [discriminate|].
    apply (IH n' (set_decoder (Some dec2) s2)); [| |exact Hrun].
    + destruct (Hread1 dec2) as (d1 & c1 & d2 & A & B & C & D & E).
      exists d1, c1, dec2. cbn [demuxer_ decoder_ set_decoder set_demuxer] in *.
      rewrite Hd2. split_and!; try done.
    + unfold pending_count in *. cbn [demuxer_ set_decoder set_demuxer] in *.
      rewrite Hd2. lia.
  - injection Hrun as <-.
    unfold Demuxer.readNextPacket in Er. rewrite Hctx in Er.
    apply Z.ltb_ge in Hidx. rewrite Hidx in Er.
    destruct (Demuxer.read_loop _ _) as [[q rest] saw_eof] eqn:El.
    injection Er as -> <-.
    destruct (read_loop_end _ _ _ _ Hfree El) as [-> ->].
    eexists. cbn. split_and!; reflexivity.
Qed.

End Seek.

(** ** The audio clock *)

Section AudioClock.
Import AudioPlayer.

Lemma wrap_s64_small z : INT64_MIN <= z <= INT64_MAX -> wrap_s64 z = z.
Proof.
  unfold wrap_s64, INT64_MIN, INT64_MAX, U64. intros H.
  rewrite Z.mod_small; lia.
Qed.

Lemma quot_time_base_mono (c c' sr : Z) :
  0 <= c <= c' -> 0 < sr ->
  0 <= Z.quot (c * AV_TIME_BASE) sr <= Z.quot (c' * AV_TIME_BASE) sr /\
  Z.quot (c' * AV_TIME_BASE) sr <= c' * AV_TIME_BASE.
Proof.
  intros Hc Hsr. unfold AV_TIME_BASE.
  rewrite !Z.quot_div_nonneg by lia. split_and!.
  - apply Z.div_pos; lia.
  - apply Z.div_le_mono; lia.
  - apply Z.div_le_upper_bound; [lia|]. nia.
Qed.

Lemma clock_inv_budget hi b b' a : 0 <= b' <= b -> clock_inv hi b a -> clock_inv hi b' a.
Proof.
  unfold clock_inv. cbv zeta. unfold AV_TIME_BASE.
  intros Hb (A & B & C & D & E & F & G & Hb0 & Hhi0 & Hhi).
  split_and!; try done; lia.
Qed.

(** What [resetClock] leaves in the object. *)
Lemma resetClock_fields pts a :
  clock (resetClock pts a) = mkClock pts pts 0 /\
  ring (resetClock pts a)
  = mkRing (replicate (length (pcm_ring_buf_ (ring a))) Byte.x00)
           (pcm_ring_cap_ (ring a)) 0 0 /\
  playback_finished_ (resetClock pts a) = false /\
  sample_rate_ (resetClock pts a) = sample_rate_ a /\
  channels_ (resetClock pts a) = channels_ a /\
  device_paused (resetClock pts a)
  = (if audio_dev_ a =? 0 then device_paused a else false).
Proof.
  unfold resetClock. cbv zeta.
  destruct (audio_dev_ a =? 0) eqn:E; cbn; rewrite ?E; cbn; split_and!; reflexivity.
Qed.

(** [resetClock] establishes the clock invariant. *)
Lemma resetClock_inv hi budget pts a :
  0 <= pcm_ring_cap_ (ring a) < U64 ->
  0 < sample_rate_ a -> 0 < channels_ a < 2 ^ 30 ->
  INT64_MIN <= pts <= hi -> 0 <= budget -> 0 <= hi ->
  hi + budget * AV_TIME_BASE <= INT64_MAX ->
  clock_inv hi budget (resetClock pts a).
Proof.
  intros Hcap Hsr Hch Hpts Hb Hhi0 Hhi.
  destruct (resetClock_fields pts a) as (Hc & Hr & _ & Hs & Hn & _).
  unfold clock_inv. cbv zeta. rewrite Hc, Hr, Hs, Hn. cbn.
  unfold ring_ok, occupancy. cbn.
  change (wrap_u64 (0 - 0)) with 0. change (0 * AV_TIME_BASE) with 0.
  rewrite Z.quot_0_l by lia. unfold U64 in *.
  split_and!; try done; lia.
Qed.

(** The loop of [fillAudioData] never lowers the published clock. *)
Lemma fill_loop_clock hi rest fuel needed filled stream a n stream' a' :
  0 <= filled <= needed -> needed < 2 ^ 31 ->
  clock_inv hi (needed - filled + rest) a -> 0 <= rest ->
  fill_loop fuel needed filled stream a = (n, stream', a') ->
  clock_inv hi rest a' /\
  audio_clock_ (clock a) <= audio_clock_ (clock a') /\
  base_pts_ (clock a') = base_pts_ (clock a).
Proof.
  revert filled stream a.
  induction fuel as [|fuel IH]; intros filled stream a Hf Hn Hinv Hrest Hrun.
  - cbn in Hrun. injection Hrun as <- <- <-.
    split_and!; try done. eapply clock_inv_budget; [|exact Hinv]. lia.
  - cbn [fill_loop] in Hrun.
    assert (Hstop : clock_inv hi rest a /\
                    audio_clock_ (clock a) <= audio_clock_ (clock a) /\
                    base_pts_ (clock a) = base_pts_ (clock a)).
    { split_and!; try done. eapply clock_inv_budget; [|exact Hinv]. lia. }
    destruct (negb (filled <? needed)) eqn:Eloop;
      [injection Hrun as <- <- <-; exact Hstop|].
    apply negb_false_iff, Z.ltb_lt in Eloop.
    destruct (playback_finished_ a && _);
      [injection Hrun as <- <- <-; exact Hstop|].
    cbv zeta in Hrun.
    rewrite (wrap_s32_small (needed - filled)) in Hrun by lia.
    rewrite (wrap_u64_small (needed - filled)) in Hrun by (unfold U64; lia).
    destruct (popPCMData false (needed - filled) (ring a)) as [[k out] r'] eqn:Epop.
    destruct (k =? 0); [injection Hrun as <- <- <-; exact Hstop|].
    pose proof Hinv as (Hring & Hsr & Hch & Hcons & Hbase & Hclk0 & Hclk & Hb & Hhi0 & Hhi).
    cbv zeta in Hring, Hsr, Hch, Hcons, Hbase, Hclk0, Hclk, Hb, Hhi.
    destruct (popPCMData_bounds false (needed - filled) (ring a) k out r' Hring
                ltac:(unfold U64; lia) Epop) as (Hk & _ & _ & _ & _ & Hring').
    set (bpf := wrap_u64 (wrap_s32 (bytes_per_sample_S16 * channels_ a))) in *.
    assert (Hbpf : bpf = 2 * channels_ a).
    { unfold bpf, bytes_per_sample_S16.
      rewrite wrap_s32_small by lia. apply wrap_u64_small. unfold U64. lia. }
    assert (Hq : 0 <= k / bpf <= k).
    { rewrite Hbpf. split; [apply Z.div_pos; lia|].
      apply Z.div_le_upper_bound; [lia|]. nia. }
    set (consumed' := wrap_s64 (consumed_samples_ (clock a) + wrap_u64 (k / bpf))) in *.
    assert (Hcons' : consumed' = consumed_samples_ (clock a) + k / bpf).
    { unfold consumed'. rewrite wrap_u64_small by (unfold U64; lia).
      apply wrap_s64_small. unfold INT64_MIN, INT64_MAX, AV_TIME_BASE in *. lia. }
    destruct (quot_time_base_mono (consumed_samples_ (clock a)) consumed'
                (sample_rate_ a) ltac:(lia) Hsr) as ((Hq0 & Hq1) & Hq2).
    assert (Hmul : wrap_s64 (consumed' * AV_TIME_BASE) = consumed' * AV_TIME_BASE).
    { apply wrap_s64_small. unfold INT64_MIN, INT64_MAX, AV_TIME_BASE in *. lia. }
    rewrite Hmul in Hrun.
    unfold AV_TIME_BASE in Hhi, Hq2.
    assert (Hclk' : wrap_s64 (base_pts_ (clock a)
                              + Z.quot (consumed' * AV_TIME_BASE) (sample_rate_ a))
                    = base_pts_ (clock a)
                      + Z.quot (consumed' * AV_TIME_BASE) (sample_rate_ a)).
    { apply wrap_s64_small. unfold INT64_MIN, INT64_MAX, AV_TIME_BASE in *. lia. }
    rewrite Hclk' in Hrun.
    rewrite (wrap_s32_small (filled + k)) in Hrun by lia.
    match type of Hrun with
    | fill_loop fuel needed (filled + k) ?st ?a1 = _ =>
        destruct (IH (filled + k) st a1) as (I1 & I2 & I3); [lia|lia| |lia|exact Hrun|]
    end.
    + unfold clock_inv. cbn. unfold AV_TIME_BASE in *.
      split_and!; try done; lia.
    + cbn in I2, I3. split_and!; [exact I1|lia|exact I3].
Qed.

(** With more rounds than bytes still to fill, the loop of
    [fillAudioData] ends at one of its own exits, whatever the bound: every
    round that goes on has filled at least one byte. *)
Lemma fill_loop_fuel fuel1 fuel2 needed filled stream a :
  ring_ok (ring a) -> 0 <= filled <= needed -> needed < 2 ^ 31 ->
  (Z.to_nat (needed - filled) < fuel1)%nat -> (Z.to_nat (needed - filled) < fuel2)%nat ->
  fill_loop fuel1 needed filled stream a = fill_loop fuel2 needed filled stream a.
Proof.
  revert fuel2 filled stream a.
  induction fuel1 as [|fuel1 IH]; intros fuel2 filled stream a Hring Hf Hn H1 H2; [lia|].
  destruct fuel2 as [|fuel2]; [lia|].
  cbn [fill_loop].
  destruct (negb (filled <? needed)) eqn:Eloop; [reflexivity|].
  apply negb_false_iff, Z.ltb_lt in Eloop.
  destruct (playback_finished_ a && _); [reflexivity|].
  cbv zeta.
  rewrite (wrap_s32_small (needed - filled)) by lia.
  rewrite (wrap_u64_small (needed - filled)) by (unfold U64; lia).
  destruct (popPCMData false (needed - filled) (ring a)) as [[k out] r'] eqn:Epop.
  destruct (k =? 0) eqn:Ek; [reflexivity|]. apply Z.eqb_neq in Ek.
  destruct (popPCMData_bounds false (needed - filled) (ring a) k out r' Hring
              ltac:(unfold U64; lia) Epop) as (Hk & _ & _ & _ & _ & Hring').
  rewrite (wrap_s32_small (filled + k)) by lia.
  apply IH; cbn; try lia. exact Hring'.
Qed.

Lemma fillAudioData_clock H hi rest len a :
  0 <= len < 2 ^ 31 -> clock_inv hi (len + rest) a -> 0 <= rest ->
  clock_inv hi rest (snd (fillAudioData H len a)) /\
  audio_clock_ (clock a) <= audio_clock_ (clock (snd (fillAudioData H len a))).
Proof.
  intros Hlen Hinv Hrest. unfold fillAudioData. cbv zeta.
  destruct (paused_ a || stop_ a); cbn [snd].
  { split; [|lia]. eapply clock_inv_budget; [|exact Hinv]. lia. }
  destruct (fill_loop _ len 0 _ a) as [[n stream'] a'] eqn:Erun.
  destruct (fill_loop_clock hi rest _ len 0 _ a n stream' a'
              ltac:(lia) ltac:(lia) ltac:(now rewrite Z.sub_0_r) Hrest Erun)
    as (I1 & I2 & _).
  destruct (_ && _); cbn [snd]; split; assumption.
Qed.

Lemma producer_push_clock hi b data a :
  clock_inv hi b a ->
  clock_inv hi b (snd (producer_push data a)) /\
  clock (snd (producer_push data a)) = clock a.
Proof.
  intros Hinv. unfold producer_push.
  destruct (_ && _); [|now split].
  destruct (pushPCMData (Some data) (ring a)) as [k r'] eqn:Epush.
  destruct (0 <? k); [|now split].
  cbn [snd]. split; [|reflexivity].
  destruct Hinv as (Hring & Hrest). cbv zeta in Hring, Hrest.
  destruct (pushPCMData_bounds _ _ _ _ Hring Epush) as (_ & _ & _ & _ & _ & Hring').
  unfold clock_inv. cbn. split; [exact Hring'|exact Hrest].
Qed.

Lemma producer_round_clock L tb hi b pulled a :
  event_in_range L tb hi (ProducerRound pulled) -> clock_inv hi b a ->
  clock_inv hi b (snd (producer_round L tb pulled a)) /\
  audio_clock_ (clock (snd (producer_round L tb pulled a))) = audio_clock_ (clock a).
Proof.
  intros Hrange Hinv. unfold producer_round.
  destruct (stop_ a || playback_finished_ a); [now split|].
  destruct (paused_ a); [now split|].
  destruct pulled as [eof|f pcm].
  - destruct eof; now split.
  - destruct pcm as [|b0 pcm]; [now split|].
    cbv zeta. cbn [event_in_range] in Hrange.
    match goal with
    | |- context [producer_push ?d ?a1] =>
        assert (H1 : clock_inv hi b a1 /\ audio_clock_ (clock a1) = audio_clock_ (clock a))
    end.
    { destruct ((base_pts_ (clock a) =? AV_NOPTS_VALUE) && _) eqn:Egate; [|now split].
      apply andb_true_iff in Egate. destruct Egate as [Ebase _].
      apply Z.eqb_eq in Ebase.
      destruct Hinv as (A & B & C & D & E & F & G & Hb & Hhi0 & Hhi).
      cbv zeta in A, B, C, D, E, F, G, Hb, Hhi.
      unfold clock_inv. cbn. rewrite Ebase in G. unfold AV_NOPTS_VALUE in G.
      split_and!; try done; lia. }
    destruct H1 as [H1 H2].
    match goal with
    | |- context [producer_push ?d ?a1] =>
        destruct (producer_push_clock hi b d a1 H1) as [H3 H4]
    end.
    split; [exact H3|]. rewrite H4. exact H2.
Qed.

Lemma callback_bytes_app evs1 evs2 :
  callback_bytes (evs1 ++ evs2) = callback_bytes evs1 + callback_bytes evs2.
Proof.
  induction evs1 as [|ev evs1 IH]; cbn; [reflexivity|].
  fold (callback_bytes (evs1 ++ evs2)). fold (callback_bytes evs1).
  destruct ev; lia.
Qed.

Lemma callback_bytes_nonneg L tb hi evs :
  Forall (event_in_range L tb hi) evs -> 0 <= callback_bytes evs.
Proof.
  induction 1 as [|ev evs Hev _ IH]; cbn; [lia|].
  fold (callback_bytes evs). destruct ev; cbn in Hev; lia.
Qed.

(** One event keeps the invariant and never lowers the published clock. *)
Lemma audio_event_clock H L tb hi rest ev a :
  event_in_range L tb hi ev -> 0 <= rest ->
  clock_inv hi (callback_bytes [ev] + rest) a ->
  clock_inv hi rest (audio_event H L tb ev a) /\
  getAudioClock a <= getAudioClock (audio_event H L tb ev a).
Proof.
  intros Hev Hrest Hinv. unfold getAudioClock. destruct ev as [len|pulled|data]; cbn in *.
  - rewrite Z.add_0_r in Hinv. now apply fillAudioData_clock.
  - destruct (producer_round_clock L tb hi rest pulled a Hev Hinv) as [H1 H2].
    split; [exact H1|lia].
  - destruct (producer_push_clock hi rest data a Hinv) as [H1 H2].
    split; [exact H1|]. rewrite H2. lia.
Qed.

Lemma audio_events_clock H L tb hi rest evs a :
  Forall (event_in_range L tb hi) evs -> 0 <= rest ->
  clock_inv hi (callback_bytes evs + rest) a ->
  clock_inv hi rest (audio_events H L tb evs a) /\
  getAudioClock a <= getAudioClock (audio_events H L tb evs a).
Proof.
  intros Hevs. revert a. induction Hevs as [|ev evs Hev Hevs IH]; intros a Hrest Hinv.
  - cbn in *. split; [exact Hinv|lia].
  - cbn [audio_events fold_left].
    change (ev :: evs) with ([ev] ++ evs) in Hinv.
    rewrite callback_bytes_app, <- Z.add_assoc in Hinv.
    pose proof (callback_bytes_nonneg L tb hi evs Hevs) as Hnn.
    destruct (audio_event_clock H L tb hi (callback_bytes evs + rest) ev a Hev
                ltac:(lia) Hinv) as [H1 H2].
    destruct (IH (audio_event H L tb ev a) Hrest H1) as [H3 H4].
    split; [exact H3|]. unfold audio_events in H4. lia.
Qed.

End AudioClock.

Lemma audio_events_app H L tb evs1 evs2 a :
  audio_events H L tb (evs1 ++ evs2) a
  = audio_events H L tb evs2 (audio_events H L tb evs1 a).
Proof. unfold audio_events. apply fold_left_app. Qed.

(** C6. Audio clock: right after [resetClock(t0)] the published clock and
    the base timestamp are [t0], no sample is counted as consumed, both ring
    positions are 0 over a zeroed buffer and [playback_finished_] is clear;
    and over any run of device callbacks and producer steps that follows,
    as long as the clock stays within [int64_t], the published clock never
    goes below [t0] and never decreases. *)
Theorem audio_clock_reset_then_monotone
    (H : AudioPlayer.Host) (L : Lib) (tb : AVRational) (t0 hi : Z)
    (a : AudioPlayer.t) (evs1 evs2 : list AudioEvent) :
  0 <= AudioPlayer.pcm_ring_cap_ (AudioPlayer.ring a) < U64 ->
  0 < AudioPlayer.sample_rate_ a ->
  0 < AudioPlayer.channels_ a < 2 ^ 30 ->
  INT64_MIN <= t0 <= hi -> 0 <= hi ->
  Forall (event_in_range L tb hi) (evs1 ++ evs2) ->
  hi + callback_bytes (evs1 ++ evs2) * AV_TIME_BASE <= INT64_MAX ->
  let a0 := AudioPlayer.resetClock t0 a in
  (AudioPlayer.getAudioClock a0 = t0 /\
   AudioPlayer.base_pts_ (AudioPlayer.clock a0) = t0 /\
   AudioPlayer.consumed_samples_ (AudioPlayer.clock a0) = 0 /\
   AudioPlayer.pcm_ring_read_ (AudioPlayer.ring a0) = 0 /\
   AudioPlayer.pcm_ring_write_ (AudioPlayer.ring a0) = 0 /\
   AudioPlayer.pcm_ring_buf_ (AudioPlayer.ring a0)
   = replicate (length (AudioPlayer.pcm_ring_buf_ (AudioPlayer.ring a))) Byte.x00 /\
   AudioPlayer.playback_finished_ a0 = false) /\
  t0 <= AudioPlayer.getAudioClock (audio_events H L tb evs1 a0)
     <= AudioPlayer.getAudioClock (audio_events H L tb (evs1 ++ evs2) a0).
Proof.
  intros Hcap Hsr Hch Ht0 Hhi0 Hevs Hhi a0.
  destruct (resetClock_fields t0 a) as (Hc & Hr & Hf & _).
  fold a0 in Hc, Hr, Hf. split.
  - unfold AudioPlayer.getAudioClock. rewrite Hc, Hr. cbn. split_and!; try reflexivity.
    exact Hf.
  - apply Forall_app in Hevs. destruct Hevs as [Hevs1 Hevs2].
    pose proof (callback_bytes_nonneg L tb hi evs1 Hevs1) as Hn1.
    pose proof (callback_bytes_nonneg L tb hi evs2 Hevs2) as Hn2.
    rewrite callback_bytes_app in Hhi.
    assert (Hinv0 : clock_inv hi (callback_bytes evs1 + (callback_bytes evs2 + 0)) a0).
    { apply resetClock_inv; try done; lia. }
    destruct (audio_events_clock H L tb hi (callback_bytes evs2 + 0) evs1 a0 Hevs1
                ltac:(lia) Hinv0) as [Hinv1 Hle1].
    destruct (audio_events_clock H L tb hi 0 evs2 _ Hevs2 ltac:(lia) Hinv1) as [_ Hle2].
    rewrite audio_events_app.
    assert (Hstart : AudioPlayer.getAudioClock a0 = t0)
      by (unfold AudioPlayer.getAudioClock; now rewrite Hc).
    lia.
Qed.

Lemma audio_clock_reset_then_monotone_witness :
  (0 <= AudioPlayer.pcm_ring_cap_ (AudioPlayer.ring audio_sample) < U64 /\
   0 < AudioPlayer.sample_rate_ audio_sample /\
   0 < AudioPlayer.channels_ audio_sample < 2 ^ 30 /\
   INT64_MIN <= 1000000 <= 2000000 /\ 0 <= 2000000 /\
   Forall (event_in_range lib_sample (1, 1000000) 2000000) (events_before ++ events_after) /\
   2000000 + callback_bytes (events_before ++ events_after) * AV_TIME_BASE <= INT64_MAX) /\
  1000000
  <= AudioPlayer.getAudioClock
       (audio_events host_sample lib_sample (1, 1000000) events_before
          (AudioPlayer.resetClock 1000000 audio_sample))
  <= AudioPlayer.getAudioClock
       (audio_events host_sample lib_sample (1, 1000000) (events_before ++ events_after)
          (AudioPlayer.resetClock 1000000 audio_sample)).
Proof.
  assert (H1 : 0 <= AudioPlayer.pcm_ring_cap_ (AudioPlayer.ring audio_sample) < U64)
    by (vm_compute; split; [discriminate|reflexivity]).
  assert (H2 : 0 < AudioPlayer.sample_rate_ audio_sample) by reflexivity.
  assert (H3 : 0 < AudioPlayer.channels_ audio_sample < 2 ^ 30)
    by (split; reflexivity).
  assert (H4 : INT64_MIN <= 1000000 <= 2000000) by (split; discriminate).
  assert (H5 : 0 <= 2000000) by discriminate.
  assert (H6 : Forall (event_in_range lib_sample (1, 1000000) 2000000)
                      (events_before ++ events_after)).
  { repeat constructor; discriminate. }
  assert (H7 : 2000000 + callback_bytes (events_before ++ events_after) * AV_TIME_BASE
               <= INT64_MAX) by (vm_compute; discriminate).
  split; [split_and!; assumption|].
  exact (proj2 (audio_clock_reset_then_monotone host_sample lib_sample (1, 1000000)
                  1000000 2000000 audio_sample events_before events_after
                  H1 H2 H3 H4 H5 H6 H7)).
Defined.

(** The clock values of the run above: 250 us per callback of two samples
    at 8 kHz. *)
Example audio_clock_sample_values :
  AudioPlayer.getAudioClock
    (audio_events host_sample lib_sample (1, 1000000) events_before
       (AudioPlayer.resetClock 1000000 audio_sample)) = 1000250 /\
  AudioPlayer.getAudioClock
    (audio_events host_sample lib_sample (1, 1000000) (events_before ++ events_after)
       (AudioPlayer.resetClock 1000000 audio_sample)) = 1000500.
Proof. split; vm_compute; reflexivity. Qed.

(** ** The base timestamp *)

Section BasePts.
Import AudioPlayer.

Lemma fill_loop_base fuel needed filled stream a :
  base_pts_ (clock (snd (fill_loop fuel needed filled stream a))) = base_pts_ (clock a).
Proof.
  revert filled stream a. induction fuel as [|fuel IH]; intros filled stream a;
    [reflexivity|].
  cbn [fill_loop].
  destruct (negb _); [reflexivity|].
  destruct (_ && _); [reflexivity|].
  cbv zeta. destruct (popPCMData _ _ _) as [[k out] r'].
  destruct (k =? 0); [reflexivity|].
  rewrite IH. reflexivity.
Qed.

Lemma fillAudioData_base H len a :
  base_pts_ (clock (snd (fillAudioData H len a))) = base_pts_ (clock a).
Proof.
  unfold fillAudioData. cbv zeta. destruct (_ || _); [reflexivity|].
  pose proof (fill_loop_base (S (Z.to_nat len)) len 0
                (replicate (Z.to_nat len) Byte.x00) a) as Hb.
  destruct (fill_loop _ _ _ _ _) as [[n st] a'].
  cbn [snd] in Hb. destruct (_ && _); exact Hb.
Qed.

Lemma producer_push_base data a :
  clock (snd (producer_push data a)) = clock a.
Proof.
  unfold producer_push. destruct (_ && _); [|reflexivity].
  destruct (pushPCMData _ _) as [k r']. destruct (0 <? k); reflexivity.
Qed.

(** When a producer round writes the base timestamp, and what it writes. *)
Lemma producer_round_base L tb pulled a :
  base_pts_ (clock (snd (producer_round L tb pulled a))) = base_pts_ (clock a) \/
  base_pts_ (clock a) = AV_NOPTS_VALUE /\
  exists f pcm, pulled = GotFrame f pcm /\
    StreamSource.pts f <> AV_NOPTS_VALUE /\
    base_pts_ (clock (snd (producer_round L tb pulled a)))
    = av_rescale_q L (StreamSource.pts f) tb AV_TIME_BASE_Q.
Proof.
  unfold producer_round.
  destruct (_ || _); [now left|].
  destruct (paused_ a); [now left|].
  destruct pulled as [eof|f pcm]; [destruct eof; now left|].
  destruct pcm as [|b pcm]; [now left|].
  cbv zeta. rewrite producer_push_base.
  destruct (base_pts_ (clock a) =? AV_NOPTS_VALUE) eqn:Eb; cbn [andb]; [|now left].
  destruct (StreamSource.pts f =? AV_NOPTS_VALUE) eqn:Ef; cbn [negb]; [now left|].
  right. apply Z.eqb_eq in Eb. apply Z.eqb_neq in Ef.
  split; [exact Eb|]. exists f, (b :: pcm). split_and!; try done.
Qed.

Lemma audio_event_base H L tb ev a :
  base_pts_ (clock a) <> AV_NOPTS_VALUE ->
  base_pts_ (clock (audio_event H L tb ev a)) = base_pts_ (clock a).
Proof.
  intros Hne. destruct ev as [len|pulled|data]; cbn [audio_event].
  - apply fillAudioData_base.
  - destruct (producer_round_base L tb pulled a) as [Hsame|[Hnopts _]];
      [exact Hsame|contradiction].
  - now rewrite producer_push_base.
Qed.

Lemma audio_events_base H L tb evs a :
  base_pts_ (clock a) <> AV_NOPTS_VALUE ->
  base_pts_ (clock (audio_events H L tb evs a)) = base_pts_ (clock a).
Proof.
  revert a. induction evs as [|ev evs IH]; intros a Hne; [reflexivity|].
  cbn [audio_events fold_left].
  pose proof (audio_event_base H L tb ev a Hne) as Hev.
  unfold audio_events in IH. rewrite IH by congruence. exact Hev.
Qed.

End BasePts.

(** C3. The code does not do what is claimed. After [resetClock(t0)] with
    [t0] other than [AV_NOPTS_VALUE], the base timestamp is [t0] and stays
    [t0] through every producer round, retried push and device callback
    that follows: the first frame the producer handles does not store its
    timestamp, whatever that timestamp is. *)
Theorem base_pts_after_reset_is_target
    (H : AudioPlayer.Host) (L : Lib) (tb : AVRational) (t0 : Z)
    (a : AudioPlayer.t) (evs : list AudioEvent) :
  t0 <> AV_NOPTS_VALUE ->
  AudioPlayer.base_pts_
    (AudioPlayer.clock (audio_events H L tb evs (AudioPlayer.resetClock t0 a))) = t0.
Proof.
  intros Hne. destruct (resetClock_fields t0 a) as (Hc & _).
  rewrite audio_events_base; rewrite Hc; [reflexivity|exact Hne].
Qed.

Lemma base_pts_after_reset_is_target_witness :
  1000000 <> AV_NOPTS_VALUE /\
  AudioPlayer.base_pts_
    (AudioPlayer.clock
       (audio_events host_sample lib_sample (1, 1000000)
          [ProducerRound (AudioPlayer.GotFrame frame_after_seek [Byte.x01; Byte.x02])]
          (AudioPlayer.resetClock 1000000 audio_sample))) = 1000000.
Proof.
  assert (Hne : 1000000 <> AV_NOPTS_VALUE) by discriminate.
  split; [exact Hne|].
  exact (base_pts_after_reset_is_target host_sample lib_sample (1, 1000000)
           1000000 audio_sample _ Hne).
Defined.

(** C3 at a first frame: the first frame the producer handles after
    [resetClock(1000000)] has timestamp 1023219 and its two bytes are
    written to the ring, and the base timestamp is still 1000000
    afterwards. *)
Lemma base_pts_not_first_frame_pts :
  let a0 := AudioPlayer.resetClock 1000000 audio_sample in
  let a1 :=
    snd (AudioPlayer.producer_round lib_sample (1, 1000000)
           (AudioPlayer.GotFrame frame_after_seek [Byte.x01; Byte.x02]) a0) in
  AudioPlayer.pcm_ring_write_ (AudioPlayer.ring a1) = 2 /\
  AudioPlayer.base_pts_ (AudioPlayer.clock a1) = 1000000 /\
  AudioPlayer.base_pts_ (AudioPlayer.clock a1) <> StreamSource.pts frame_after_seek.
Proof. vm_compute. split_and!; [reflexivity|reflexivity|discriminate]. Qed.

(** ** The controller: open and close *)

Section Controller.

Lemma find_stream_no_audio sts i :
  Forall (fun st => codec_type st <> AVMEDIA_TYPE_AUDIO) sts ->
  Demuxer.find_stream Audio sts i = None.
Proof.
  intros H. revert i. induction H as [|st sts Hst _ IH]; intros i; [reflexivity|].
  cbn [Demuxer.find_stream]. unfold Demuxer.matches.
  destruct (codec_type st); try contradiction; apply IH.
Qed.

(** The audio demuxer does not open a file without an audio stream. *)
Lemma Demuxer_open_no_audio fs filename file d :
  fs filename = Some file -> no_audio_stream file -> Demuxer.type_ d = Audio ->
  Demuxer.stream_index_ d < 0 ->
  fst (Demuxer.open fs filename d) = false.
Proof.
  intros Hfile Hno Htype Hidx. unfold Demuxer.open.
  destruct filename; [reflexivity|]. rewrite Hfile.
  destruct (negb (find_stream_info_ok file)); [reflexivity|].
  cbn [Demuxer.type_]. rewrite Htype, (find_stream_no_audio _ 0 Hno).
  cbn [Demuxer.stream_index_].
  apply Z.ltb_lt in Hidx. now rewrite Hidx.
Qed.

Lemma StreamSource_open_no_audio fs filename file s :
  fs filename = Some file -> no_audio_stream file -> StreamSource.type_ s = Audio ->
  fst (StreamSource.open fs filename s) = false.
Proof.
  intros Hfile Hno Htype. unfold StreamSource.open.
  pose proof (Demuxer_open_no_audio fs filename file (Demuxer.new (StreamSource.type_ s))
                Hfile Hno) as Hd.
  rewrite Htype in Hd |- *. specialize (Hd eq_refl ltac:(reflexivity)).
  destruct (Demuxer.open fs filename (Demuxer.new Audio)) as [ok dmx].
  cbn [fst] in Hd. subst ok. reflexivity.
Qed.

Lemma StreamSource_close_fields s :
  StreamSource.demuxer_ (StreamSource.close s) = None /\
  StreamSource.decoding_thread_ (StreamSource.close s) = false /\
  StreamSource.frame_queue_ (StreamSource.close s) = [] /\
  StreamSource.state_ (StreamSource.close s) = StreamSource.Stopped /\
  StreamSource.eof_ (StreamSource.close s) = false.
Proof.
  unfold StreamSource.close. cbv zeta.
  destruct (StreamSource.decoder_ _) as [dec|]; [destruct (Decoder.isOpen dec)|];
    cbn; split_and!; reflexivity.
Qed.

Lemma StreamSource_open_type fs filename s :
  StreamSource.type_ (snd (StreamSource.open fs filename s)) = StreamSource.type_ s.
Proof. apply (open_kept fs filename s). Qed.

End Controller.

(** C2, as the code has it. For a file without an audio stream,
    [open(path)] returns false: the audio source cannot be opened, and the
    controller gives up, closing the video source again if it had opened it.
    The player state, the presenter thread and the audio output are left as
    they were. *)
Theorem open_without_audio_stream_fails
    (H : Player.Host) (filename : string) (file : MediaFile) (p : Player.t) :
  Player.files H filename = Some file ->
  no_audio_stream file ->
  StreamSource.type_ (Player.audio_reader_ p) = Audio ->
  let r := Player.open H filename p in
  fst r = false /\
  Player.state_ (snd r) = Player.state_ p /\
  Player.render_thread_ (snd r) = Player.render_thread_ p /\
  Player.is_running_ (snd r) = Player.is_running_ p /\
  Player.audio_player_ (snd r) = Player.audio_player_ p /\
  (Player.state_ p = Player.Stopped ->
   StreamSource.demuxer_ (Player.video_reader_ (snd r)) = None /\
   StreamSource.frame_queue_ (Player.video_reader_ (snd r)) = []).
Proof.
  intros Hfile Hno Htype r. subst r. unfold Player.open, Player.getState.
  destruct (Player.state_ p) eqn:Est; cbn [Player.State_eqb negb fst snd];
    try (rewrite Est; split_and!; try reflexivity; discriminate).
  destruct (StreamSource.open (Player.files H) filename (Player.video_reader_ p))
    as [video_ok v].
  cbv zeta.
  destruct (StreamSource_close_fields v) as (Hd & _ & Hq & _).
  destruct video_ok; cbn [negb].
  2:{ cbn. rewrite Est. split_and!; try reflexivity. intros _. now split. }
  cbn [Player.audio_reader_ Player.set_video_reader].
  pose proof (StreamSource_open_no_audio (Player.files H) filename file
                (Player.audio_reader_ p) Hfile Hno Htype) as Ha.
  destruct (StreamSource.open (Player.files H) filename (Player.audio_reader_ p))
    as [audio_ok a].
  cbn [fst] in Ha. subst audio_ok. cbn. rewrite Est.
  split_and!; try reflexivity. intros _. now split.
Qed.

Lemma open_without_audio_stream_fails_witness :
  (Player.files player_host_sample "clip.mp4"%string = Some video_only_file /\
   no_audio_stream video_only_file /\
   StreamSource.type_ (Player.audio_reader_ Player.new) = Audio) /\
  fst (Player.open player_host_sample "clip.mp4"%string Player.new) = false.
Proof.
  assert (H1 : Player.files player_host_sample "clip.mp4"%string = Some video_only_file)
    by reflexivity.
  assert (H2 : no_audio_stream video_only_file)
    by (repeat constructor; discriminate).
  assert (H3 : StreamSource.type_ (Player.audio_reader_ Player.new) = Audio)
    by reflexivity.
  split; [split_and!; assumption|].
  exact (proj1 (open_without_audio_stream_fails player_host_sample "clip.mp4"%string
                  video_only_file Player.new H1 H2 H3)).
Defined.

(** C2, as claimed, fails: the file has a decodable video stream and no
    audio stream, the video source alone opens it, and [open] returns
    false. *)
Lemma open_video_only_file_returns_false :
  Demuxer.find_stream Video (streams (context video_only_file)) 0
  = Some (0, video_stream_sample) /\
  Demuxer.find_stream Audio (streams (context video_only_file)) 0 = None /\
  fst (StreamSource.open (Player.files player_host_sample) "clip.mp4"%string
         (StreamSource.new Video)) = true /\
  fst (Player.open player_host_sample "clip.mp4"%string Player.new) = false.
Proof. vm_compute. split_and!; reflexivity. Qed.

Section Close.

Lemma GLRenderer_start_ok H w h r r' :
  GLRenderer.start H w h r = (true, r') ->
  GLRenderer.running_ r' = true /\ GLRenderer.render_thread_ r' = true.
Proof.
  unfold GLRenderer.start.
  destruct (GLRenderer.running_ r); [discriminate|].
  destruct (negb (GLRenderer.glfwInit_ok H)); [discriminate|].
  destruct (negb (GLRenderer.glfwCreateWindow_ok H)); [discriminate|].
  intros E. injection E as <-. now split.
Qed.

Lemma AudioPlayer_initialize_ok H src a a' :
  AudioPlayer.initialize H src a = (true, a') ->
  AudioPlayer.audio_dev_ a' <> 0 /\ AudioPlayer.producer_thread_ a' = true /\
  4096 <= AudioPlayer.pcm_ring_cap_ (AudioPlayer.ring a').
Proof.
  unfold AudioPlayer.initialize. destruct src as [src|]; [|discriminate].
  cbv zeta. destruct (_ || _); [discriminate|].
  destruct (negb (AudioPlayer.sdl_audio_available H)); [discriminate|].
  destruct (AudioPlayer.SDL_OpenAudioDevice H _) as [dev have].
  destruct (dev =? 0) eqn:Edev; [discriminate|].
  destruct (negb (bool_decide _)); [discriminate|].
  destruct (negb (AudioPlayer.swr_alloc_ok H)); [discriminate|].
  destruct (negb (AudioPlayer.swr_init_ok H)); [discriminate|].
  intros E. injection E as <-. cbn. apply Z.eqb_neq in Edev.
  split_and!; try done.
  match goal with |- 4096 <= wrap_u64 (if ?c then _ else ?b) => destruct c eqn:Eb end.
  - vm_compute. discriminate.
  - apply Z.ltb_ge in Eb. rewrite wrap_u64_small; [exact Eb|].
    split; [lia|]. unfold wrap_s32 at 1, U64.
    match goal with |- ?x mod 2 ^ 32 - _ < _ =>
      pose proof (Z.mod_pos_bound x (2 ^ 32) ltac:(lia)) end. lia.
Qed.

(** What a successful [open] leaves: the state Stopped, with the presenter
    thread, the renderer, the audio device and the producer thread all
    running. *)
Lemma Player_open_ok H filename p p' :
  Player.open H filename p = (true, p') ->
  Player.state_ p' = Player.Stopped /\
  Player.render_thread_ p' = true /\
  Player.is_running_ p' = true /\
  GLRenderer.running_ (Player.renderer_ p') = true /\
  AudioPlayer.audio_dev_ (Player.audio_player_ p') <> 0 /\
  AudioPlayer.producer_thread_ (Player.audio_player_ p') = true.
Proof.
  unfold Player.open.
  destruct (negb _); [discriminate|].
  destruct (StreamSource.open _ _ (Player.video_reader_ p)) as [video_ok v].
  cbv zeta. destruct video_ok; cbn [negb]; [|discriminate].
  destruct (StreamSource.open _ _ _) as [audio_ok a].
  destruct audio_ok; cbn [negb]; [|discriminate].
  destruct (AudioPlayer.initialize _ _ _) as [init_ok ap] eqn:Einit.
  destruct init_ok; cbn [negb]; [|discriminate].
  destruct (GLRenderer.start _ _ _ _) as [start_ok r] eqn:Estart.
  destruct start_ok; cbn [negb]; [|discriminate].
  intros E. injection E as <-. cbn.
  destruct (GLRenderer_start_ok _ _ _ _ _ Estart) as [Hr _].
  destruct (AudioPlayer_initialize_ok _ _ _ _ Einit) as (Hd & Ht & _).
  split_and!; done.
Qed.


(** A second [close] changes nothing. *)
Lemma Player_close_idempotent p : Player.close (Player.close p) = Player.close p.
Proof.
  unfold Player.close at 1. unfold Player.getState.
  assert (Hs : Player.state_ (Player.close p) = Player.Stopped).
  { unfold Player.close, Player.getState.
    destruct (Player.state_ p) eqn:E; cbn; try reflexivity. exact E. }
  now rewrite Hs.
Qed.

(** [stop] leaves the state Stopped as well, so a [close] after it, as in
    the entry point's cleanup, does nothing either. *)
Lemma Player_close_after_stop p : Player.close (Player.stop p) = Player.stop p.
Proof.
  unfold Player.close, Player.getState.
  assert (Hs : Player.state_ (Player.stop p) = Player.Stopped).
  { unfold Player.stop, Player.getState.
    destruct (Player.state_ p) eqn:E; cbn; try reflexivity. exact E. }
  now rewrite Hs.
Qed.

End Close.

(** C4 at the state in which [open] leaves the player: [close] returns at
    its first test and changes nothing, so the presenter thread is still
    running and joinable and no component has been released. *)
Theorem close_after_open_releases_nothing
    (H : Player.Host) (filename : string) (p p' : Player.t) :
  Player.open H filename p = (true, p') ->
  Player.close p' = p' /\
  Player.render_thread_ (Player.close p') = true /\
  Player.is_running_ (Player.close p') = true /\
  GLRenderer.running_ (Player.renderer_ (Player.close p')) = true /\
  AudioPlayer.audio_dev_ (Player.audio_player_ (Player.close p')) <> 0 /\
  ~ released (Player.close p').
Proof.
  intros Hopen.
  destruct (Player_open_ok H filename p p' Hopen) as (Hs & Ht & Hr & Hg & Hd & _).
  assert (Hclose : Player.close p' = p').
  { unfold Player.close, Player.getState. now rewrite Hs. }
  rewrite Hclose. split_and!; try done.
  intros (Hrel & _). congruence.
Qed.

Lemma close_after_open_releases_nothing_witness :
  fst (Player.open player_host_sample "movie.mp4"%string Player.new) = true /\
  Player.close (snd (Player.open player_host_sample "movie.mp4"%string Player.new))
  = snd (Player.open player_host_sample "movie.mp4"%string Player.new).
Proof.
  assert (Hok : fst (Player.open player_host_sample "movie.mp4"%string Player.new) = true)
    by (vm_compute; reflexivity).
  split; [exact Hok|].
  destruct (Player.open player_host_sample "movie.mp4"%string Player.new) as [ok p'] eqn:E.
  cbn [fst snd] in *. subst ok.
  exact (proj1 (close_after_open_releases_nothing player_host_sample _ _ p' E)).
Defined.

(** ** The PCM ring: contents *)

Section Circular.
Local Open Scope nat_scope.

Lemma circ_read_length buf off n :
  off < length buf -> n <= length buf -> length (circ_read buf off n) = n.
Proof.
  intros Hoff Hn. unfold circ_read.
  rewrite length_take, length_drop, length_app. lia.
Qed.

Lemma circ_read_lookup buf off n t :
  off < length buf -> n <= length buf -> t < n ->
  circ_read buf off n !! t
  = if decide (off + t < length buf) then buf !! (off + t)
    else buf !! (off + t - length buf).
Proof.
  intros Hoff Hn Ht. unfold circ_read.
  rewrite lookup_take_lt, lookup_drop by lia.
  case_decide.
  - now rewrite lookup_app_l by lia.
  - now rewrite lookup_app_r by lia.
Qed.

Lemma circ_write_length buf off s : length (circ_write buf off s) = length buf.
Proof. unfold circ_write. now rewrite !length_inserts. Qed.

Lemma circ_write_lookup buf off s j :
  off < length buf -> length s <= length buf -> j < length buf ->
  circ_write buf off s !! j
  = if decide (off <= j < off + length s) then s !! (j - off)
    else if decide (j + length buf < off + length s) then s !! (j + length buf - off)
    else buf !! j.
Proof.
  intros Hoff Hs Hj. unfold circ_write. cbv zeta.
  set (first := Nat.min (length s) (length buf - off)).
  assert (Hf1 : length (take first s) = first) by (rewrite length_take; lia).
  assert (Hf2 : length (drop first s) = length s - first) by now rewrite length_drop.
  destruct (decide (j < length s - first)) as [Hin2|Hout2].
  - rewrite list_lookup_inserts by (rewrite ?length_inserts; lia).
    rewrite lookup_drop, Nat.sub_0_r.
    case_decide; [lia|]. case_decide; [|lia].
    f_equal. lia.
  - rewrite list_lookup_inserts_ge by lia.
    destruct (decide (off <= j < off + first)) as [Hin1|Hout1].
    + rewrite list_lookup_inserts by lia.
      rewrite lookup_take_lt by lia.
      case_decide; [reflexivity|lia].
    + case_decide; [lia|]. case_decide; [lia|].
      destruct (decide (j < off)).
      * now rewrite list_lookup_inserts_lt by lia.
      * now rewrite list_lookup_inserts_ge by lia.
Qed.

(** Writing [s] right behind the [occ] bytes that start at [off] appends
    [s] to them. *)
Lemma circ_read_write buf off occ s :
  off < length buf -> occ + length s <= length buf ->
  circ_read (circ_write buf (circ_add (length buf) off occ) s) off (occ + length s)
  = circ_read buf off occ ++ s.
Proof.
  intros Hoff Hfit. apply list_eq. intros t.
  destruct (decide (t < occ + length s)) as [Ht|Ht].
  2:{ rewrite !lookup_ge_None_2; [reflexivity| |].
      - rewrite length_app, circ_read_length; lia.
      - rewrite circ_read_length; rewrite ?circ_write_length; lia. }
  rewrite circ_read_lookup by (rewrite ?circ_write_length; lia).
  rewrite circ_write_length.
  assert (Hadd : circ_add (length buf) off occ < length buf)
    by (unfold circ_add; destruct (off + occ <? length buf) eqn:E;
        [apply Nat.ltb_lt in E|apply Nat.ltb_ge in E]; lia).
  destruct (decide (t < occ)) as [Hold|Hnew].
  - rewrite lookup_app_l by (rewrite circ_read_length; lia).
    rewrite circ_read_lookup by lia.
    unfold circ_add in *. destruct (off + occ <? length buf) eqn:E;
      [apply Nat.ltb_lt in E|apply Nat.ltb_ge in E];
      case_decide; rewrite circ_write_lookup by lia;
      (case_decide; [lia|]); (case_decide; [lia|]); reflexivity.
  - rewrite lookup_app_r by (rewrite circ_read_length; lia).
    rewrite circ_read_length by lia.
    unfold circ_add in *. destruct (off + occ <? length buf) eqn:E;
      [apply Nat.ltb_lt in E|apply Nat.ltb_ge in E];
      case_decide; rewrite circ_write_lookup by lia;
      repeat case_decide; try lia; f_equal; lia.
Qed.

Lemma circ_read_take buf off n k :
  k <= n -> take k (circ_read buf off n) = circ_read buf off k.
Proof.
  intros Hk. unfold circ_read. rewrite take_take. f_equal. lia.
Qed.

(** Dropping the first [k] of the [n] bytes that start at [off] leaves the
    bytes that start [k] further on. *)
Lemma circ_read_drop buf off n k :
  off < length buf -> n <= length buf -> k <= n ->
  drop k (circ_read buf off n) = circ_read buf (circ_add (length buf) off k) (n - k).
Proof.
  intros Hoff Hn Hk. apply list_eq. intros t.
  assert (Hadd : circ_add (length buf) off k < length buf \/ n - k = 0).
  { unfold circ_add. destruct (off + k <? length buf) eqn:E;
      [apply Nat.ltb_lt in E|apply Nat.ltb_ge in E]; lia. }
  rewrite lookup_drop.
  destruct (decide (t < n - k)) as [Ht|Ht].
  2:{ rewrite !lookup_ge_None_2; [reflexivity| |].
      - unfold circ_read. rewrite length_take. lia.
      - rewrite circ_read_length; lia. }
  destruct Hadd as [Hadd|]; [|lia].
  rewrite !circ_read_lookup by lia.
  unfold circ_add in *. destruct (off + k <? length buf) eqn:E;
    [apply Nat.ltb_lt in E|apply Nat.ltb_ge in E];
    repeat case_decide; try lia; f_equal; lia.
Qed.

End Circular.

Section RingContents.
Import AudioPlayer.

Lemma to_nat_mod_add a b c :
  0 < c -> 0 <= a -> 0 <= b <= c ->
  Z.to_nat ((a + b) mod c) = circ_add (Z.to_nat c) (Z.to_nat (a mod c)) (Z.to_nat b).
Proof.
  intros Hc Ha Hb. rewrite <- Zplus_mod_idemp_l.
  pose proof (Z.mod_pos_bound a c Hc) as Hx. set (x := a mod c) in *.
  unfold circ_add. destruct (_ <? _)%nat eqn:E;
    [apply Nat.ltb_lt in E|apply Nat.ltb_ge in E].
  - rewrite Z.mod_small by lia. lia.
  - assert (Hm : (x + b) mod c = x + b - c).
    { symmetry. apply (Z.mod_unique _ _ 1); lia. }
    rewrite Hm. lia.
Qed.

Lemma ring_wf_ok r : ring_wf r -> ring_ok r /\ occupancy r = pcm_ring_write_ r - pcm_ring_read_ r.
Proof.
  intros (Hc & Hlen & Hrw & Hw & Hocc).
  assert (Ho : occupancy r = pcm_ring_write_ r - pcm_ring_read_ r).
  { unfold occupancy. apply wrap_u64_small. unfold U64 in *. lia. }
  split; [|exact Ho]. unfold ring_ok. rewrite Ho. unfold U64 in *. lia.
Qed.

Lemma contents_length r : ring_wf r -> Z.of_nat (length (contents r)) = occupancy r.
Proof.
  intros Hwf. destruct (ring_wf_ok r Hwf) as [_ Ho].
  destruct Hwf as (Hc & Hlen & Hrw & Hw & Hocc).
  pose proof (Z.mod_pos_bound (pcm_ring_read_ r) (pcm_ring_cap_ r) ltac:(lia)).
  unfold contents. rewrite circ_read_length; rewrite ?Hlen; lia.
Qed.

(** The two [memcpy] of [pushPCMData] write the accepted bytes circularly. *)
Lemma push_copies buf cap off k src :
  length buf = Z.to_nat cap -> 0 <= off < cap -> 0 <= k <= cap ->
  k <= Z.of_nat (length src) ->
  let first_chunk := Z.min k (wrap_u64 (cap - off)) in
  let second_chunk := wrap_u64 (k - first_chunk) in
  let buf1 := memcpy_to buf off (take (Z.to_nat first_chunk) src) in
  cap < U64 ->
  (if 0 <? second_chunk
   then memcpy_to buf1 0 (take (Z.to_nat second_chunk) (drop (Z.to_nat first_chunk) src))
   else buf1)
  = circ_write buf (Z.to_nat off) (take (Z.to_nat k) src).
Proof.
  intros Hlen Hoff Hk Hsrc first_chunk second_chunk buf1 Hcap.
  assert (Hw : wrap_u64 (cap - off) = cap - off)
    by (apply wrap_u64_small; unfold U64 in *; lia).
  assert (Hfirst : first_chunk = Z.min k (cap - off)) by (unfold first_chunk; now rewrite Hw).
  assert (Hsecond : second_chunk = k - first_chunk)
    by (unfold second_chunk; apply wrap_u64_small; unfold U64 in *; lia).
  unfold circ_write. cbv zeta.
  rewrite length_take, Hlen.
  replace (Nat.min (Nat.min (Z.to_nat k) (length src)) (Z.to_nat cap - Z.to_nat off))
    with (Z.to_nat first_chunk) by lia.
  rewrite take_take.
  replace (Nat.min (Z.to_nat first_chunk) (Z.to_nat k)) with (Z.to_nat first_chunk) by lia.
  fold (memcpy_to buf off (take (Z.to_nat first_chunk) src)). fold buf1.
  assert (Hdrop : drop (Z.to_nat first_chunk) (take (Z.to_nat k) src)
                  = take (Z.to_nat second_chunk) (drop (Z.to_nat first_chunk) src)).
  { rewrite take_drop_commute. do 2 f_equal. lia. }
  rewrite Hdrop. unfold memcpy_to. cbn [Z.to_nat].
  destruct (0 <? second_chunk) eqn:E; [reflexivity|].
  apply Z.ltb_ge in E. replace (Z.to_nat second_chunk) with 0%nat by lia.
  reflexivity.
Qed.

(** The two [memcpy] of [popPCMData] read circularly. *)
Lemma pop_copies buf cap off k :
  length buf = Z.to_nat cap -> 0 <= off < cap -> 0 <= k <= cap -> cap < U64 ->
  let first_chunk := Z.min k (wrap_u64 (cap - off)) in
  let second_chunk := wrap_u64 (k - first_chunk) in
  memcpy_from buf off first_chunk
  ++ (if 0 <? second_chunk then memcpy_from buf 0 second_chunk else [])
  = circ_read buf (Z.to_nat off) (Z.to_nat k).
Proof.
  intros Hlen Hoff Hk Hcap first_chunk second_chunk.
  assert (Hw : wrap_u64 (cap - off) = cap - off)
    by (apply wrap_u64_small; unfold U64 in *; lia).
  assert (Hfirst : first_chunk = Z.min k (cap - off)) by (unfold first_chunk; now rewrite Hw).
  assert (Hsecond : second_chunk = k - first_chunk)
    by (unfold second_chunk; apply wrap_u64_small; unfold U64 in *; lia).
  unfold circ_read, memcpy_from. cbn [Z.to_nat]. rewrite drop_0.
  rewrite drop_app_le by lia. rewrite take_app, length_drop.
  assert (Htail : (if 0 <? second_chunk then take (Z.to_nat second_chunk) buf else [])
                  = take (Z.to_nat second_chunk) buf).
  { destruct (0 <? second_chunk) eqn:E; [reflexivity|].
    apply Z.ltb_ge in E. now replace (Z.to_nat second_chunk) with 0%nat by lia. }
  rewrite Htail. f_equal.
  - destruct (Z.le_gt_cases k (cap - off)).
    + f_equal. lia.
    + rewrite !take_ge; [reflexivity| |]; rewrite length_drop; lia.
  - f_equal. lia.
Qed.

(** A push on the ring is a push on the queue of its contents, as long as
    the write position stays below 2^64. *)
Lemma pushPCMData_refines src r k r' :
  ring_wf r -> pcm_ring_write_ r + Z.of_nat (length src) < U64 ->
  pushPCMData (Some src) r = (k, r') ->
  ring_wf r' /\
  (k, contents r') = queue_push (pcm_ring_cap_ r) src (contents r) /\
  pcm_ring_cap_ r' = pcm_ring_cap_ r /\
  pcm_ring_write_ r' = pcm_ring_write_ r + k /\
  0 <= k <= Z.of_nat (length src).
Proof.
  intros Hwf Hroom Hpush.
  destruct (ring_wf_ok r Hwf) as [Hok Ho].
  pose proof (contents_length r Hwf) as Hlenq.
  pose proof (free_space_ok r Hok) as Hfree.
  pose proof Hwf as (Hc & Hlen & Hrw & Hw & Hocc).
  assert (Hnoop : forall n, n = 0 \/ pcm_ring_cap_ r - occupancy r = 0 ->
            n = Z.of_nat (length src) ->
            ring_wf r /\ (0, contents r) = queue_push (pcm_ring_cap_ r) src (contents r) /\
            pcm_ring_cap_ r = pcm_ring_cap_ r /\
            pcm_ring_write_ r = pcm_ring_write_ r + 0 /\ 0 <= 0 <= Z.of_nat (length src)).
  { intros n Hn ->. split_and!; try done; try lia.
    unfold queue_push. cbv zeta. rewrite Hlenq.
    replace (Z.min _ _) with 0 by lia. cbn. now rewrite app_nil_r. }
  unfold pushPCMData in Hpush.
  destruct ((Z.of_nat (length src) =? 0) || (pcm_ring_cap_ r =? 0)) eqn:Hguard.
  { injection Hpush as <- <-. apply orb_true_iff in Hguard.
    destruct Hguard as [E|E]; apply Z.eqb_eq in E; [|lia].
    apply (Hnoop _ (or_introl E) eq_refl). }
  apply orb_false_elim in Hguard. destruct Hguard as [Hsrc _]. apply Z.eqb_neq in Hsrc.
  fold (occupancy r) in Hpush. fold (free_space r) in Hpush.
  destruct (free_space r =? 0) eqn:Hfull.
  { injection Hpush as <- <-. apply Z.eqb_eq in Hfull.
    apply (Hnoop (Z.of_nat (length src))); [right; lia|reflexivity]. }
  apply Z.eqb_neq in Hfull.
  set (kk := Z.min (Z.of_nat (length src)) (free_space r)) in *.
  pose proof (Z.mod_pos_bound (pcm_ring_write_ r) (pcm_ring_cap_ r) ltac:(lia)) as Hoffw.
  pose proof (Z.mod_pos_bound (pcm_ring_read_ r) (pcm_ring_cap_ r) ltac:(lia)) as Hoffr.
  assert (Hkk : 0 < kk <= pcm_ring_cap_ r - occupancy r) by (unfold kk; lia).
  rewrite (push_copies _ (pcm_ring_cap_ r)) in Hpush by (unfold kk; lia).
  injection Hpush as <- <-.
  assert (Hwr : wrap_u64 (pcm_ring_write_ r + kk) = pcm_ring_write_ r + kk)
    by (apply wrap_u64_small; unfold kk; lia).
  rewrite Hwr.
  assert (Hwf' : ring_wf (mkRing
                   (circ_write (pcm_ring_buf_ r)
                      (Z.to_nat (pcm_ring_write_ r mod pcm_ring_cap_ r))
                      (take (Z.to_nat kk) src))
                   (pcm_ring_cap_ r) (pcm_ring_read_ r) (pcm_ring_write_ r + kk))).
  { unfold ring_wf. cbn. rewrite circ_write_length. unfold kk. split_and!; try done; lia. }
  split_and!; try done; try (cbn; unfold kk; lia).
  unfold queue_push. cbv zeta. rewrite Hlenq. fold kk. rewrite <- Hfree. fold kk.
  f_equal.
  unfold contents. cbn [pcm_ring_buf_ pcm_ring_read_ pcm_ring_cap_].
  destruct (ring_wf_ok _ Hwf') as [_ Ho']. rewrite Ho'. cbn [pcm_ring_read_ pcm_ring_write_].
  replace (pcm_ring_write_ r) with (pcm_ring_read_ r + occupancy r) at 1 by lia.
  rewrite to_nat_mod_add by lia.
  rewrite <- Hlen.
  replace (Z.to_nat (pcm_ring_write_ r + kk - pcm_ring_read_ r))
    with (Z.to_nat (occupancy r) + length (take (Z.to_nat kk) src))%nat
    by (rewrite length_take; unfold kk; lia).
  apply circ_read_write; rewrite ?length_take; unfold kk; lia.
Qed.

(** A pop on the ring is a pop on the queue of its contents. *)
Lemma popPCMData_refines n r k out r' :
  ring_wf r -> 0 <= n < U64 ->
  popPCMData false n r = (k, out, r') ->
  ring_wf r' /\
  (k, out, contents r') = queue_pop n (contents r) /\
  pcm_ring_cap_ r' = pcm_ring_cap_ r /\
  pcm_ring_write_ r' = pcm_ring_write_ r.
Proof.
  intros Hwf Hn Hpop.
  destruct (ring_wf_ok r Hwf) as [Hok Ho].
  pose proof (contents_length r Hwf) as Hlenq.
  pose proof Hwf as (Hc & Hlen & Hrw & Hw & Hocc).
  assert (Hnoop : n = 0 \/ occupancy r = 0 ->
            ring_wf r /\ (0, [], contents r) = queue_pop n (contents r) /\
            pcm_ring_cap_ r = pcm_ring_cap_ r /\ pcm_ring_write_ r = pcm_ring_write_ r).
  { intros H0. split_and!; try done.
    unfold queue_pop. cbv zeta. rewrite Hlenq.
    replace (Z.min _ _) with 0 by lia. cbn. now rewrite drop_0. }
  unfold popPCMData in Hpop. cbn [orb] in Hpop.
  destruct ((n =? 0) || (pcm_ring_cap_ r =? 0)) eqn:Hguard.
  { injection Hpop as <- <- <-. apply orb_true_iff in Hguard.
    destruct Hguard as [E|E]; apply Z.eqb_eq in E; [|lia]. apply Hnoop. now left. }
  fold (occupancy r) in Hpop.
  destruct (occupancy r =? 0) eqn:Hempty.
  { injection Hpop as <- <- <-. apply Z.eqb_eq in Hempty. apply Hnoop. now right. }
  apply Z.eqb_neq in Hempty. apply orb_false_elim in Hguard. destruct Hguard as [Hn0 _].
  apply Z.eqb_neq in Hn0.
  set (kk := Z.min n (occupancy r)) in *.
  pose proof (Z.mod_pos_bound (pcm_ring_read_ r) (pcm_ring_cap_ r) ltac:(lia)) as Hoffr.
  assert (Hkk : 0 < kk <= occupancy r) by (unfold kk; lia).
  rewrite (pop_copies _ (pcm_ring_cap_ r)) in Hpop by lia.
  injection Hpop as <- <- <-.
  assert (Hrd : wrap_u64 (pcm_ring_read_ r + kk) = pcm_ring_read_ r + kk)
    by (apply wrap_u64_small; lia).
  rewrite Hrd.
  assert (Hwf' : ring_wf (mkRing (pcm_ring_buf_ r) (pcm_ring_cap_ r)
                                 (pcm_ring_read_ r + kk) (pcm_ring_write_ r))).
  { unfold ring_wf. cbn. split_and!; try done; lia. }
  split_and!; try done.
  unfold queue_pop. cbv zeta. rewrite Hlenq. fold kk.
  unfold contents at 2 3.
  rewrite circ_read_take by lia.
  rewrite circ_read_drop by (rewrite ?Hlen; lia).
  do 2 f_equal.
  unfold contents. cbn [pcm_ring_buf_ pcm_ring_read_ pcm_ring_cap_].
  destruct (ring_wf_ok _ Hwf') as [_ Ho']. rewrite Ho'. cbn [pcm_ring_read_ pcm_ring_write_].
  rewrite to_nat_mod_add by lia. rewrite Hlen. f_equal. lia.
Qed.

End RingContents.

Section RingTrace.
Import AudioPlayer.

Lemma offered_bytes_nonneg calls : 0 <= offered_bytes calls.
Proof.
  induction calls as [|c calls IH]; cbn; [lia|].
  fold (offered_bytes calls). destruct c; lia.
Qed.

(** Call by call, the ring does what the byte queue of its contents does. *)
Lemma ring_trace_refines calls r popped accepted r' :
  ring_wf r -> Forall ring_call_in_range calls ->
  pcm_ring_write_ r + offered_bytes calls < U64 ->
  ring_trace calls r = (popped, accepted, r') ->
  queue_trace (pcm_ring_cap_ r) calls (contents r) = (popped, accepted, contents r') /\
  contents r ++ accepted = popped ++ contents r' /\
  ring_wf r'.
Proof.
  intros Hwf Hcalls. revert r popped accepted Hwf.
  induction Hcalls as [|c calls Hc _ IH]; intros r popped accepted Hwf Hroom Hrun.
  - cbn in Hrun. injection Hrun as <- <- <-. cbn. now rewrite app_nil_r.
  - pose proof (offered_bytes_nonneg calls) as Hnn.
    destruct c as [src|n]; cbn [ring_trace queue_trace] in *;
      cbn [offered_bytes fold_right] in Hroom; fold (offered_bytes calls) in Hroom.
    + destruct (pushPCMData (Some src) r) as [k r1] eqn:Epush.
      destruct (ring_trace calls r1) as [[popped1 accepted1] r2] eqn:Erest.
      injection Hrun as <- <- <-.
      destruct (pushPCMData_refines src r k r1 Hwf ltac:(lia) Epush)
        as (Hwf1 & Hq & Hcap & Hwr & Hk).
      destruct (IH r1 popped1 accepted1 Hwf1 ltac:(lia) Erest) as (Ht & Happ & Hwf2).
      rewrite <- Hq. rewrite Hcap in Ht. rewrite Ht.
      split_and!; try done.
      unfold queue_push in Hq. cbv zeta in Hq. injection Hq as Hk' Hc1.
      rewrite <- Happ, Hc1, <- Hk'. now rewrite app_assoc.
    + destruct (popPCMData false n r) as [[k out] r1] eqn:Epop.
      destruct (ring_trace calls r1) as [[popped1 accepted1] r2] eqn:Erest.
      injection Hrun as <- <- <-.
      destruct (popPCMData_refines n r k out r1 Hwf Hc Epop) as (Hwf1 & Hq & Hcap & Hwr).
      destruct (IH r1 popped1 accepted1 Hwf1 ltac:(lia) Erest) as (Ht & Happ & Hwf2).
      rewrite <- Hq. rewrite Hcap in Ht. rewrite Ht.
      split_and!; try done.
      unfold queue_pop in Hq. cbv zeta in Hq. injection Hq as Hk' Hout Hc1.
      rewrite <- app_assoc, <- Happ, Hc1, Hout, <- Hk', app_assoc.
      now rewrite take_drop.
Qed.

Lemma ring_new_wf cap : 0 < cap < U64 -> ring_wf (ring_new cap) /\ contents (ring_new cap) = [].
Proof.
  intros Hcap. split.
  - unfold ring_wf, ring_new. cbn. rewrite length_replicate. unfold U64 in *. lia.
  - reflexivity.
Qed.

End RingTrace.

(** C9. Content-faithful FIFO: starting from the empty ring that
    [initialize] and [resetClock] leave, and for every sequence of pushes
    and pops that offers fewer than 2^64 bytes in all (so that the 64-bit
    write position does not wrap), the ring returns and accepts exactly what
    the byte queue bounded by the capacity returns and accepts, call by call;
    the bytes accepted are the bytes popped followed by the bytes still in
    the ring, so the bytes popped are a prefix of the bytes accepted, in
    order. *)
Theorem pcm_ring_refines_byte_queue
    (cap : Z) (calls : list RingCall)
    (popped accepted : list byte) (r' : AudioPlayer.Ring) :
  0 < cap < U64 ->
  Forall ring_call_in_range calls ->
  offered_bytes calls < U64 ->
  ring_trace calls (ring_new cap) = (popped, accepted, r') ->
  queue_trace cap calls [] = (popped, accepted, contents r') /\
  accepted = popped ++ contents r' /\
  popped `prefix_of` accepted.
Proof.
  intros Hcap Hcalls Hoff Hrun.
  destruct (ring_new_wf cap Hcap) as [Hwf Hempty].
  destruct (ring_trace_refines calls (ring_new cap) popped accepted r' Hwf Hcalls
              ltac:(cbn; lia) Hrun) as (Ht & Happ & _).
  rewrite Hempty in Ht, Happ. cbn in Ht, Happ.
  split_and!; [exact Ht|exact Happ|]. exists (contents r'). exact Happ.
Qed.

Lemma pcm_ring_refines_byte_queue_witness :
  (0 < 4 < U64 /\ Forall ring_call_in_range ring_calls_sample /\
   offered_bytes ring_calls_sample < U64) /\
  ring_trace ring_calls_sample (ring_new 4)
  = ([Byte.x01; Byte.x02; Byte.x03; Byte.x04; Byte.x05; Byte.x06],
     [Byte.x01; Byte.x02; Byte.x03; Byte.x04; Byte.x05; Byte.x06],
     AudioPlayer.mkRing [Byte.x05; Byte.x06; Byte.x03; Byte.x04] 4 6 6) /\
  [Byte.x01; Byte.x02; Byte.x03; Byte.x04; Byte.x05; Byte.x06]
  `prefix_of` [Byte.x01; Byte.x02; Byte.x03; Byte.x04; Byte.x05; Byte.x06].
Proof.
  assert (H1 : 0 < 4 < U64) by (split; reflexivity).
  assert (H2 : Forall ring_call_in_range ring_calls_sample)
    by (repeat constructor; try reflexivity; discriminate).
  assert (H3 : offered_bytes ring_calls_sample < U64) by reflexivity.
  assert (H4 : ring_trace ring_calls_sample (ring_new 4)
               = ([Byte.x01; Byte.x02; Byte.x03; Byte.x04; Byte.x05; Byte.x06],
                  [Byte.x01; Byte.x02; Byte.x03; Byte.x04; Byte.x05; Byte.x06],
                  AudioPlayer.mkRing [Byte.x05; Byte.x06; Byte.x03; Byte.x04] 4 6 6))
    by (vm_compute; reflexivity).
  split_and!; try assumption.
  exact (proj2 (proj2 (pcm_ring_refines_byte_queue 4 ring_calls_sample _ _ _ H1 H2 H3 H4))).
Defined.

(** * Further properties of the pipeline *)

(** ** Demuxer *)

Section DemuxerFacts.

Lemma find_stream_first type sts i0 i st :
  Demuxer.find_stream type sts i0 = Some (i, st) ->
  i0 <= i /\
  sts !! Z.to_nat (i - i0) = Some st /\
  Demuxer.matches type st = true /\
  forall j st', (j < Z.to_nat (i - i0))%nat -> sts !! j = Some st' ->
                Demuxer.matches type st' = false.
Proof.
  revert i0. induction sts as [|s0 sts IH]; intros i0; cbn [Demuxer.find_stream];
    [discriminate|].
  destruct (Demuxer.matches type s0) eqn:Em.
  - intros E. injection E as <- <-. rewrite Z.sub_diag. cbn.
    split_and!; try done; try lia.
  - intros E. destruct (IH _ E) as (Hle & Hlook & Hm & Hbefore).
    replace (Z.to_nat (i - i0)) with (S (Z.to_nat (i - (i0 + 1)))) by lia.
    split_and!; try done; try lia.
    intros [|j] st' Hj; cbn.
    + intros E'. injection E' as <-. exact Em.
    + apply Hbefore. lia.
Qed.

Lemma find_stream_none type sts i0 :
  Demuxer.find_stream type sts i0 = None ->
  Forall (fun st => Demuxer.matches type st = false) sts.
Proof.
  revert i0. induction sts as [|s0 sts IH]; intros i0; cbn [Demuxer.find_stream];
    [constructor|].
  destruct (Demuxer.matches type s0) eqn:Em; [discriminate|].
  intros E. constructor; [exact Em|]. now apply (IH (i0 + 1)).
Qed.

(** What [read_loop] consumes before the packet it returns. *)
Lemma read_loop_some index items p rest saw_eof :
  Demuxer.read_loop index items = (Some p, rest, saw_eof) ->
  stream_index p = index /\ saw_eof = false /\
  exists skipped,
    items = map ReadPacket skipped ++ ReadPacket p :: rest /\
    Forall (fun q => stream_index q <> index) skipped.
Proof.
  revert p rest saw_eof. induction items as [|it items IH]; intros p rest saw_eof;
    cbn [Demuxer.read_loop]; [discriminate|].
  destruct it as [q|code]; [|discriminate].
  destruct (stream_index q =? index) eqn:Eq.
  - intros E. injection E as <- <- <-. apply Z.eqb_eq in Eq.
    split_and!; try done. exists []. split; [reflexivity|constructor].
  - intros E. destruct (IH _ _ _ E) as (Hp & He & skipped & Hitems & Hsk).
    apply Z.eqb_neq in Eq. split_and!; try done.
    exists (q :: skipped). split; [cbn; now rewrite Hitems|now constructor].
Qed.

(** What [read_loop] consumes when it returns no packet: packets of other
    streams up to the end of the file or up to a read error. *)
Lemma read_loop_none index items rest saw_eof :
  Demuxer.read_loop index items = (None, rest, saw_eof) ->
  exists skipped,
    Forall (fun q => stream_index q <> index) skipped /\
    (items = map ReadPacket skipped /\ rest = [] /\ saw_eof = true \/
     exists code, items = map ReadPacket skipped ++ ReadError code :: rest /\
                  saw_eof = (code =? AVERROR_EOF)).
Proof.
  revert rest saw_eof. induction items as [|it items IH]; intros rest saw_eof;
    cbn [Demuxer.read_loop].
  - intros E. injection E as <- <-. exists []. split; [constructor|]. now left.
  - destruct it as [q|code].
    + destruct (stream_index q =? index) eqn:Eq; [discriminate|].
      intros E. destruct (IH _ _ E) as (skipped & Hsk & Hcase).
      apply Z.eqb_neq in Eq. exists (q :: skipped). split; [now constructor|].
      destruct Hcase as [(-> & -> & ->)|(code & -> & ->)].
      * now left.
      * right. now exists code.
    + intros E. injection E as <- <-. exists []. split; [constructor|].
      right. now exists code.
Qed.

(** The outcome of [Demuxer::open] on a fresh demuxer, for the proofs
    further on. *)
Lemma Demuxer_open_new_facts fs filename type ok d' :
  Demuxer.open fs filename (Demuxer.new type) = (ok, d') ->
  (ok = true ->
   0 <= Demuxer.stream_index_ d' /\ exists st, Demuxer.stream_ d' = Some st) /\
  (ok = false -> Demuxer.isOpen d' = false /\ Demuxer.stream_ d' = None).
Proof.
  unfold Demuxer.open.
  destruct filename as [|c0 name];
    [intros E; injection E as <- <-; split; [discriminate|now split]|].
  destruct (fs (String c0 name)) as [file|];
    [|intros E; injection E as <- <-; split; [discriminate|now split]].
  destruct (negb (find_stream_info_ok file));
    [intros E; injection E as <- <-; split; [discriminate|now split]|].
  cbn [Demuxer.type_ Demuxer.new].
  destruct (Demuxer.find_stream type (streams (context file)) 0) as [[i st]|] eqn:Efind.
  - destruct (find_stream_first _ _ _ _ _ Efind) as (Hi & _).
    cbn [Demuxer.stream_index_]. apply Z.ltb_ge in Hi. rewrite Hi. apply Z.ltb_ge in Hi.
    intros E. injection E as <- <-. split; [|discriminate]. intros _. cbn.
    split; [exact Hi|now exists st].
  - cbn. intros E. injection E as <- <-. split; [discriminate|now split].
Qed.

End DemuxerFacts.

(** X1. [Demuxer::open] on a fresh demuxer succeeds exactly on a file that
    can be opened and probed and that has a stream of the requested kind;
    it then holds the first such stream (every stream before it is of
    another kind) with its index and a clear EOF flag, and otherwise is left
    closed, with no stream and index -1. *)
Theorem demuxer_open_selects_first_stream
    (fs : FileSystem) (filename : string) (type : Type_) (ok : bool) (d' : Demuxer.t) :
  Demuxer.open fs filename (Demuxer.new type) = (ok, d') ->
  (ok = true ->
   exists file st,
     fs filename = Some file /\ find_stream_info_ok file = true /\
     Demuxer.format_ctx_ d' = Some (context file) /\
     Demuxer.stream_ d' = Some st /\
     0 <= Demuxer.stream_index_ d' /\
     streams (context file) !! Z.to_nat (Demuxer.stream_index_ d') = Some st /\
     Demuxer.matches type st = true /\
     (forall j st', (j < Z.to_nat (Demuxer.stream_index_ d'))%nat ->
                    streams (context file) !! j = Some st' ->
                    Demuxer.matches type st' = false) /\
     Demuxer.isEOF d' = false) /\
  (ok = false ->
   Demuxer.isOpen d' = false /\ Demuxer.stream_ d' = None /\
   Demuxer.stream_index_ d' = -1 /\
   (forall file, fs filename = Some file -> filename <> EmptyString ->
                 find_stream_info_ok file = true ->
                 Forall (fun st => Demuxer.matches type st = false)
                        (streams (context file)))).
Proof.
  unfold Demuxer.open.
  destruct filename as [|c0 name].
  { intros E. injection E as <- <-. split; [discriminate|]. intros _.
    split_and!; try reflexivity. intros file _ Hne. now destruct Hne. }
  destruct (fs (String c0 name)) as [file|] eqn:Efile.
  2:{ intros E. injection E as <- <-. split; [discriminate|]. intros _.
      split_and!; try reflexivity. intros file E. discriminate E. }
  destruct (find_stream_info_ok file) eqn:Einfo; cbn [negb].
  2:{ intros E. injection E as <- <-. split; [discriminate|]. intros _.
      split_and!; try reflexivity. intros file' E. injection E as <-. congruence. }
  cbn [Demuxer.type_ Demuxer.new].
  destruct (Demuxer.find_stream type (streams (context file)) 0) as [[i st]|] eqn:Efind.
  - destruct (find_stream_first _ _ _ _ _ Efind) as (Hi & Hlook & Hm & Hbefore).
    rewrite Z.sub_0_r in Hlook, Hbefore.
    cbn [Demuxer.stream_index_]. apply Z.ltb_ge in Hi. rewrite Hi. apply Z.ltb_ge in Hi.
    intros E. injection E as <- <-. split; [|discriminate]. intros _.
    exists file, st. cbn. split_and!; try done.
  - cbn. intros E. injection E as <- <-. split; [discriminate|]. intros _.
    split_and!; try reflexivity.
    intros file' E _ _. injection E as <-. now apply (find_stream_none _ _ 0).
Qed.

Lemma demuxer_open_selects_first_stream_witness :
  Demuxer.open mixed_files "mixed.mkv" (Demuxer.new Video)
  = (true, snd (Demuxer.open mixed_files "mixed.mkv" (Demuxer.new Video))) /\
  Demuxer.stream_index_ (snd (Demuxer.open mixed_files "mixed.mkv" (Demuxer.new Video))) = 1 /\
  exists file st,
    mixed_files "mixed.mkv"%string = Some file /\
    Demuxer.stream_ (snd (Demuxer.open mixed_files "mixed.mkv" (Demuxer.new Video)))
    = Some st /\
    Demuxer.matches Video st = true.
Proof.
  assert (H : Demuxer.open mixed_files "mixed.mkv" (Demuxer.new Video)
              = (true, snd (Demuxer.open mixed_files "mixed.mkv" (Demuxer.new Video))))
    by reflexivity.
  split_and!; [exact H|reflexivity|].
  destruct (proj1 (demuxer_open_selects_first_stream _ _ _ _ _ H) eq_refl)
    as (file & st & A & _ & _ & B & _ & _ & C & _).
  exists file, st. split_and!; assumption.
Defined.

(** X2. [Demuxer::readNextPacket] on an open demuxer: a packet it returns
    belongs to the demuxer's own stream and is the first such packet of what
    the file still held, the packets before it being packets of other
    streams, all consumed; the EOF flag and the chosen stream stay as they
    were.  When it returns none, it has consumed packets of other streams
    only, up to the end of the file (EOF is then set) or up to a read error
    (EOF is set only for the code [AVERROR_EOF], and once set is kept). *)
Theorem readNextPacket_returns_first_own_packet
    (d d' : Demuxer.t) (ctx : AVFormatContext) (packet : option AVPacket) :
  Demuxer.format_ctx_ d = Some ctx ->
  0 <= Demuxer.stream_index_ d ->
  Demuxer.readNextPacket d = (packet, d') ->
  Demuxer.stream_ d' = Demuxer.stream_ d /\
  Demuxer.stream_index_ d' = Demuxer.stream_index_ d /\
  exists skipped rest,
    Demuxer.format_ctx_ d' = Some (mkAVFormatContext (streams ctx) (ctx_duration ctx) rest) /\
    Forall (fun q => stream_index q <> Demuxer.stream_index_ d) skipped /\
    match packet with
    | Some p =>
      stream_index p = Demuxer.stream_index_ d /\
      upcoming ctx = map ReadPacket skipped ++ ReadPacket p :: rest /\
      Demuxer.isEOF d' = Demuxer.isEOF d
    | None =>
      (upcoming ctx = map ReadPacket skipped /\ rest = [] /\ Demuxer.isEOF d' = true) \/
      (exists code,
         upcoming ctx = map ReadPacket skipped ++ ReadError code :: rest /\
         Demuxer.isEOF d' = (code =? AVERROR_EOF) || Demuxer.isEOF d)
    end.
Proof.
  intros Hctx Hidx. unfold Demuxer.readNextPacket. rewrite Hctx.
  apply Z.ltb_ge in Hidx. rewrite Hidx.
  destruct (Demuxer.read_loop (Demuxer.stream_index_ d) (upcoming ctx))
    as [[p rest] saw_eof] eqn:El.
  intros E. injection E as <- <-. cbn. split_and!; try reflexivity.
  destruct p as [p|].
  - destruct (read_loop_some _ _ _ _ _ El) as (Hp & -> & skipped & Hitems & Hsk).
    exists skipped, rest. split_and!; try done.
  - destruct (read_loop_none _ _ _ _ El) as (skipped & Hsk & Hcase).
    exists skipped, rest. split_and!; try done.
    destruct Hcase as [(Hitems & -> & ->)|(code & Hitems & ->)].
    + now left.
    + right. exists code. split; [exact Hitems|].
      unfold Demuxer.isEOF. now destruct (code =? AVERROR_EOF).
Qed.

Lemma readNextPacket_returns_first_own_packet_witness :
  (Demuxer.format_ctx_ mixed_video_demuxer = Some (context mixed_file) /\
   0 <= Demuxer.stream_index_ mixed_video_demuxer) /\
  option_map packet_data (fst (Demuxer.readNextPacket mixed_video_demuxer)) = Some 2%nat /\
  Demuxer.stream_index_ (snd (Demuxer.readNextPacket mixed_video_demuxer)) = 1.
Proof.
  assert (H1 : Demuxer.format_ctx_ mixed_video_demuxer = Some (context mixed_file))
    by reflexivity.
  assert (H2 : 0 <= Demuxer.stream_index_ mixed_video_demuxer) by discriminate.
  split; [now split|]. split; [reflexivity|].
  destruct (Demuxer.readNextPacket mixed_video_demuxer) as [packet d'] eqn:E.
  destruct (readNextPacket_returns_first_own_packet _ _ _ _ H1 H2 E) as (_ & Hi & _).
  cbn [snd]. rewrite Hi. reflexivity.
Defined.

(** ** StreamSource: what stays wired *)

Section Wiring.
Import StreamSource.

Lemma readNextPacket_kept d : demuxer_kept d (snd (Demuxer.readNextPacket d)).
Proof.
  unfold Demuxer.readNextPacket, demuxer_kept, Demuxer.isOpen.
  destruct (Demuxer.format_ctx_ d) as [ctx|] eqn:E; cbn; [|now rewrite E].
  destruct (Demuxer.stream_index_ d <? 0); cbn; [now rewrite E|].
  destruct (Demuxer.read_loop _ _) as [[p rest] saw]. cbn. now split_and!.
Qed.

Lemma readNextPacket_closed d :
  Demuxer.isOpen d = false -> fst (Demuxer.readNextPacket d) = None.
Proof.
  unfold Demuxer.readNextPacket, Demuxer.isOpen.
  destruct (Demuxer.format_ctx_ d); [discriminate|reflexivity].
Qed.

Lemma Demuxer_seek_kept L ts flags d : demuxer_kept d (snd (Demuxer.seek L ts flags d)).
Proof.
  unfold Demuxer.seek, demuxer_kept, Demuxer.isOpen.
  destruct (Demuxer.format_ctx_ d) as [ctx|] eqn:E; cbn; [|now rewrite E].
  destruct (Demuxer.stream_index_ d <? 0); cbn; [now rewrite E|].
  destruct (streams ctx !! _); cbn; [|now rewrite E].
  destruct (av_seek_frame L _ _ _ _) as [ret ctx'].
  destruct (ret <? 0); cbn; now split_and!.
Qed.

Lemma decodePacket_isOpen L packet dec :
  Decoder.isOpen (snd (Decoder.decodePacket L packet dec)) = Decoder.isOpen dec.
Proof.
  unfold Decoder.decodePacket, Decoder.isOpen.
  destruct (Decoder.codec_ctx_ dec) as [ctx|] eqn:E; cbn; [|now rewrite E].
  destruct (avcodec_send_packet L _ _) as [ret frames].
  destruct packet as [p|]; [destruct (packet_size p <=? 0); cbn; [now rewrite E|]|];
    destruct (ret <? 0); cbn; now rewrite ?E.
Qed.

Lemma receiveFrame_isOpen dec :
  Decoder.isOpen (snd (Decoder.receiveFrame dec)) = Decoder.isOpen dec.
Proof.
  unfold Decoder.receiveFrame, Decoder.isOpen.
  destruct (Decoder.codec_ctx_ dec) as [ctx|] eqn:E; cbn; [|now rewrite E].
  destruct (Decoder.ready ctx); cbn; now rewrite ?E.
Qed.

Lemma flush_isOpen dec : Decoder.isOpen (Decoder.flush dec) = Decoder.isOpen dec.
Proof.
  unfold Decoder.flush, Decoder.isOpen.
  destruct (Decoder.codec_ctx_ dec) eqn:E; cbn; now rewrite ?E.
Qed.

Lemma pushFrameToQueue_fields f s :
  demuxer_ (pushFrameToQueue f s) = demuxer_ s /\
  decoder_ (pushFrameToQueue f s) = decoder_ s /\
  state_ (pushFrameToQueue f s) = state_ s /\
  decoding_thread_ (pushFrameToQueue f s) = decoding_thread_ s /\
  eof_ (pushFrameToQueue f s) = eof_ s /\
  fake_pts_ (pushFrameToQueue f s) = fake_pts_ s.
Proof.
  unfold pushFrameToQueue. destruct f; [|now split_and!].
  destruct (_ <=? _); now split_and!.
Qed.

(** The loops of [seek] and [processPacket] change the queue and the
    synthetic timestamp counter of the source, nothing else, and hand back
    a decoder that is open if the one they got was. *)
Lemma seek_frames_fields L fuel ts n dec s :
  let r := seek_frames L fuel ts n dec s in
  Decoder.isOpen (snd (fst r)) = Decoder.isOpen dec /\
  demuxer_ (snd r) = demuxer_ s /\ decoder_ (snd r) = decoder_ s /\
  state_ (snd r) = state_ s /\ decoding_thread_ (snd r) = decoding_thread_ s /\
  eof_ (snd r) = eof_ s /\ fake_pts_ (snd r) = fake_pts_ s.
Proof.
  revert n dec s. induction fuel as [|fuel IH]; intros n dec s; [now split_and!|].
  cbn [seek_frames]. pose proof (receiveFrame_isOpen dec) as Hopen.
  destruct (Decoder.receiveFrame dec) as [[avframe|] dec']; cbn [snd] in Hopen;
    [|cbn; now split_and!].
  cbv zeta. rewrite <- Hopen.
  destruct (_ =? AV_NOPTS_VALUE); [apply IH|].
  destruct (av_frame_clone L avframe) as [clone|]; [|apply IH].
  destruct (ts <=? _); [|apply IH].
  match goal with
  | |- context [pushFrameToQueue ?f s] =>
      destruct (pushFrameToQueue_fields f s) as (A & B & C & D & E & F);
      pose proof (IH (n + 1) dec' (pushFrameToQueue f s)) as IH'
  end.
  destruct (5 <=? n + 1); cbn [fst snd]; [now split_and!|].
  cbv zeta in IH'. rewrite <- A, <- B, <- C, <- D, <- E, <- F. exact IH'.
Qed.

Lemma process_frames_fields L fuel packet dec s :
  let r := process_frames L fuel packet dec s in
  Decoder.isOpen (fst r) = Decoder.isOpen dec /\
  demuxer_ (snd r) = demuxer_ s /\ decoder_ (snd r) = decoder_ s /\
  state_ (snd r) = state_ s /\ decoding_thread_ (snd r) = decoding_thread_ s /\
  eof_ (snd r) = eof_ s.
Proof.
  revert dec s. induction fuel as [|fuel IH]; intros dec s; [now split_and!|].
  cbn [process_frames]. pose proof (receiveFrame_isOpen dec) as Hopen.
  destruct (Decoder.receiveFrame dec) as [[raw|] dec']; cbn [snd] in Hopen;
    [|cbn; now split_and!].
  cbv zeta. rewrite <- Hopen.
  match goal with
  | |- context [if ?c then (?p1, ?s1) else (?p2, ?s2)] =>
      assert (Hs : let s' := snd (if c then (p1, s1) else (p2, s2)) in
                   demuxer_ s' = demuxer_ s /\ decoder_ s' = decoder_ s /\
                   state_ s' = state_ s /\ decoding_thread_ s' = decoding_thread_ s /\
                   eof_ s' = eof_ s)
        by (destruct c; cbn; now split_and!);
      destruct (if c then (p1, s1) else (p2, s2)) as [pts s1']
  end.
  cbn [snd] in Hs. destruct Hs as (A & B & C & D & E).
  destruct (av_frame_clone L raw) as [clone|].
  - match goal with
    | |- context [pushFrameToQueue ?f s1'] =>
        destruct (pushFrameToQueue_fields f s1') as (A' & B' & C' & D' & E' & _);
        pose proof (IH dec' (pushFrameToQueue f s1')) as IH'
    end.
    cbv zeta in IH'. rewrite <- A, <- B, <- C, <- D, <- E, <- A', <- B', <- C', <- D', <- E'.
    exact IH'.
  - pose proof (IH dec' s1') as IH'. cbv zeta in IH'.
    rewrite <- A, <- B, <- C, <- D, <- E. exact IH'.
Qed.

(** The wiring survives a change of demuxer and decoder that keeps the
    stream and the open decoder. *)
Lemma source_wired_step s s' :
  source_wired s ->
  (forall dmx', demuxer_ s' = Some dmx' ->
                exists dmx, demuxer_ s = Some dmx /\ demuxer_kept dmx dmx') ->
  (forall dec, decoder_ s = Some dec -> Decoder.isOpen dec = true ->
               exists dec', decoder_ s' = Some dec' /\ Decoder.isOpen dec' = true) ->
  source_wired s'.
Proof.
  intros Hw Hd Hdec dmx' Hdmx' Hopen'.
  destruct (Hd dmx' Hdmx') as (dmx & Hdmx & Hs & Hi & Ho).
  destruct (Hw dmx Hdmx (Ho Hopen')) as (A & B & dec & C & D).
  rewrite Hs, Hi. split_and!; try done. exact (Hdec dec C D).
Qed.

Lemma demuxer_kept_refl d : demuxer_kept d d.
Proof. unfold demuxer_kept. tauto. Qed.

Lemma seek_packets_wired L fuel ts n s :
  source_wired s -> source_wired (snd (seek_packets L fuel ts n s)).
Proof.
  revert n s. induction fuel as [|fuel IH]; intros n s Hw; [exact Hw|].
  cbn [seek_packets].
  destruct (demuxer_ s) as [dmx|] eqn:Ed; [|exact Hw].
  destruct (decoder_ s) as [dec|] eqn:Edec; [|exact Hw].
  pose proof (readNextPacket_kept dmx) as Hk.
  pose proof (readNextPacket_closed dmx) as Hclosed.
  destruct (Demuxer.readNextPacket dmx) as [packet dmx']. cbn [fst snd] in Hk, Hclosed.
  cbv zeta.
  assert (Hw1 : source_wired (set_demuxer (Some dmx') s)).
  { apply (source_wired_step s); [exact Hw| |].
    - intros d E. cbn in E. injection E as <-. now exists dmx.
    - intros d E Ho. exists d. now split. }
  destruct packet as [p|]; [|exact Hw1].
  assert (Hdopen : Demuxer.isOpen dmx = true).
  { destruct (Demuxer.isOpen dmx); [reflexivity|]. now specialize (Hclosed eq_refl). }
  destruct (Hw dmx Ed Hdopen) as (_ & _ & dec0 & Edec0 & Hopen).
  rewrite Edec in Edec0. injection Edec0 as <-.
  destruct (negb _); [now apply IH|].
  pose proof (decodePacket_isOpen L (Some p) dec) as Ho1.
  destruct (Decoder.decodePacket L (Some p) dec) as [ret dec1]. cbn [snd] in Ho1.
  assert (Hset : forall d2 s2,
            demuxer_ s2 = Some dmx' -> Decoder.isOpen d2 = true ->
            source_wired (set_decoder (Some d2) s2)).
  { intros d2 s2 Hd2 Ho2 d E Ho. cbn in E. rewrite Hd2 in E. injection E as <-.
    destruct (Hw1 dmx' eq_refl Ho) as (A & B & _).
    split_and!; try done. exists d2. now split. }
  destruct (ret <? 0); cbn [snd]; [apply Hset; [reflexivity|congruence]|].
  pose proof (seek_frames_fields L (S (ready_count dec1)) ts n dec1
                (set_demuxer (Some dmx') s)) as Hf.
  destruct (seek_frames _ _ _ _ _ _) as [[[done n'] dec2] s2].
  cbv zeta in Hf. cbn [fst snd] in Hf. destruct Hf as (Ho2 & Hd2 & _).
  assert (Hw3 : source_wired (set_decoder (Some dec2) s2))
    by (apply Hset; [exact Hd2|congruence]).
  destruct done; cbn [snd]; [exact Hw3|now apply IH].
Qed.

Lemma seek_wired L ts s : source_wired s -> source_wired (snd (seek L ts s)).
Proof.
  intros Hw. unfold seek, seek_run.
  destruct (_ || _); [exact Hw|].
  destruct (demuxer_ s) as [dmx|] eqn:Ed; [|exact Hw].
  pose proof (Demuxer_seek_kept L ts AVSEEK_FLAG_BACKWARD dmx) as Hk.
  destruct (Demuxer.seek L ts AVSEEK_FLAG_BACKWARD dmx) as [ok dmx']. cbn [snd] in Hk.
  cbv zeta.
  assert (Hw1 : source_wired (set_demuxer (Some dmx') s)).
  { apply (source_wired_step s); [exact Hw| |].
    - intros d E. cbn in E. injection E as <-. now exists dmx.
    - intros d E Ho. exists d. now split. }
  destruct ok; cbn [negb snd]; [|exact Hw1].
  match goal with
  | |- context [seek_packets L ?f ts 0 ?s3] =>
      pose proof (seek_packets_wired L f ts 0 s3) as H3;
      destruct (seek_packets L f ts 0 s3) as [e s4]
  end.
  cbn [snd] in *. apply H3.
  apply (source_wired_step (set_demuxer (Some dmx') s)); [exact Hw1| |].
  - intros d E. cbn in E. injection E as <-. exists dmx'.
    split; [reflexivity|apply demuxer_kept_refl].
  - intros d E Ho. cbn in E |- *. rewrite E. cbn.
    eexists. split; [reflexivity|]. now rewrite flush_isOpen.
Qed.

Lemma processPacket_wired L packet s :
  source_wired s -> source_wired (processPacket L packet s).
Proof.
  intros Hw. unfold processPacket.
  destruct (decoder_ s) as [dec|] eqn:Edec; [|exact Hw].
  destruct (Decoder.isOpen dec) eqn:Hopen; cbn [negb]; [|exact Hw].
  pose proof (decodePacket_isOpen L packet dec) as Ho1.
  destruct (Decoder.decodePacket L packet dec) as [ret dec1]. cbn [snd] in Ho1.
  destruct (ret <? 0).
  - apply (source_wired_step s); [exact Hw| |].
    + intros d E. cbn in E. exists d. split; [exact E|apply demuxer_kept_refl].
    + intros d _ _. exists dec1. split; [reflexivity|congruence].
  - pose proof (process_frames_fields L (S (ready_count dec1)) packet dec1 s) as Hf.
    destruct (process_frames _ _ _ _ _) as [dec2 s']. cbv zeta in Hf. cbn [fst snd] in Hf.
    destruct Hf as (Ho2 & Hd2 & _).
    apply (source_wired_step s); [exact Hw| |].
    + intros d E. cbn in E. rewrite Hd2 in E. exists d.
      split; [exact E|apply demuxer_kept_refl].
    + intros d _ _. exists dec2. split; [reflexivity|congruence].
Qed.

Lemma Decoder_open_ok st dec dec' :
  Decoder.open st dec = (true, dec') -> Decoder.isOpen dec' = true.
Proof.
  unfold Decoder.open. destruct st as [st|]; [|discriminate].
  destruct (negb (Demuxer.matches _ _)); [discriminate|].
  unfold Decoder.initializeCodec.
  destruct (negb (codec_found st)); [discriminate|].
  destruct (negb (codec_usable st)); [discriminate|].
  unfold Decoder.configureCodec. cbn [Decoder.type_].
  destruct (Decoder.type_ dec); intros E; injection E as <-; reflexivity.
Qed.

Lemma initializeDecoder_fields st s ok s' :
  initializeDecoder st s = (ok, s') ->
  demuxer_ s' = demuxer_ s /\
  (ok = true -> exists dec', decoder_ s' = Some dec' /\ Decoder.isOpen dec' = true).
Proof.
  unfold initializeDecoder.
  destruct st as [st|]; [|intros E; injection E as <- <-; now split].
  destruct (decoder_ s) as [dec|]; [|intros E; injection E as <- <-; now split].
  destruct (Decoder.open (Some st) dec) as [ok' dec'] eqn:Ed.
  cbv zeta. destruct ok'; cbn [negb].
  - apply Decoder_open_ok in Ed. cbn [type_ set_decoder].
    destruct (type_ s); intros E; injection E as <- <-;
      (split; [reflexivity|]); intros _; exists dec'; now split.
  - intros E. injection E as <- <-. now split.
Qed.

Lemma open_wired fs filename s : source_wired (snd (open fs filename s)).
Proof.
  unfold open.
  destruct (Demuxer.open fs filename (Demuxer.new (type_ s))) as [ok dmx] eqn:Eo.
  destruct (Demuxer_open_new_facts fs filename (type_ s) ok dmx Eo)
    as [Hok Hfail].
  cbv zeta. destruct ok; cbn [negb snd].
  2:{ intros d E Ho. cbn in E. injection E as <-.
      destruct (Hfail eq_refl) as (Hc & _). congruence. }
  destruct (Hok eq_refl) as (Hidx & st & Hst). unfold Demuxer.getAVStream. rewrite Hst.
  match goal with
  | |- context [initializeDecoder ?a ?b] =>
      destruct (initializeDecoder a b) as [ok' s3] eqn:Ei
  end.
  destruct (initializeDecoder_fields _ _ _ _ Ei) as (Hd & Hdec).
  cbn [demuxer_ set_decoder set_demuxer] in Hd.
  destruct ok'; cbn [negb snd].
  - destruct (Hdec eq_refl) as (dec' & Hdec' & Hopen).
    intros d E Ho. cbn in E. rewrite Hd in E. injection E as <-.
    split_and!; [exact Hidx|now exists st|]. exists dec'. now split.
  - intros d E Ho. cbn in E. rewrite Hd in E. cbn in E. injection E as <-.
    unfold Demuxer.isOpen, Demuxer.close in Ho. cbn in Ho. discriminate.
Qed.

Lemma source_call_wired L c s : source_wired s -> source_wired (source_call L c s).
Proof.
  intros Hw. destruct c; cbn [source_call].
  - apply open_wired.
  - intros d E. destruct (StreamSource_close_fields s) as (Hd & _). congruence.
  - unfold startDecoding. destruct (State_eqb _ Running); [exact Hw|].
    cbv zeta. destruct (decoding_thread_ _); [exact Hw|].
    destruct (State_eqb _ Stopped); exact Hw.
  - unfold pauseDecoding. destruct (State_eqb _ _); exact Hw.
  - unfold resumeDecoding. destruct (State_eqb _ _); exact Hw.
  - exact Hw.
  - now apply seek_wired.
  - unfold getNextFrame. destruct (frame_queue_ s); exact Hw.
  - now apply processPacket_wired.
  - unfold pushFrameToQueue. destruct f; [|exact Hw]. destruct (_ <=? _); exact Hw.
  - exact Hw.
Qed.

End Wiring.

Section SeekStop.
Import StreamSource.

Lemma error_free_packets packets : error_free (map ReadPacket packets).
Proof. unfold error_free. induction packets; constructor; done. Qed.

Lemma reading_stopped_after packets p items rest eof :
  reading_stopped items rest eof ->
  reading_stopped (map ReadPacket packets ++ ReadPacket p :: items) rest eof.
Proof.
  intros [(Hfree & Hrest & Heof)|(before & code & Hitems)].
  - left. split_and!; [|exact Hrest|exact Heof].
    unfold error_free in *. apply Forall_app. split; [apply error_free_packets|].
    now constructor.
  - right. exists (map ReadPacket packets ++ ReadPacket p :: before), code.
    rewrite Hitems, <- app_assoc. reflexivity.
Qed.

Lemma Demuxer_seek_ok L ts flags d d' :
  Demuxer.seek L ts flags d = (true, d') ->
  Demuxer.isOpen d = true /\
  exists ctx', Demuxer.format_ctx_ d' = Some ctx' /\ 0 <= Demuxer.stream_index_ d'.
Proof.
  unfold Demuxer.seek, Demuxer.isOpen.
  destruct (Demuxer.format_ctx_ d) as [ctx|]; [|discriminate].
  destruct (Z.ltb_spec (Demuxer.stream_index_ d) 0); [discriminate|].
  destruct (streams ctx !! _); [|discriminate].
  destruct (av_seek_frame L _ _ _ _) as [ret ctx'].
  destruct (ret <? 0); [discriminate|].
  intros E. injection E as <-. cbn. split; [reflexivity|]. now exists ctx'.
Qed.

(** When the decode-forward loop of [seek] leaves by its [break], the
    demuxer has read the file to its end without error, or a read error
    was the last thing it read. *)
Lemma seek_packets_stopped L fuel ts n s dmx ctx dec s' :
  demuxer_ s = Some dmx -> Demuxer.format_ctx_ dmx = Some ctx ->
  0 <= Demuxer.stream_index_ dmx -> decoder_ s = Some dec ->
  (pending_count s < fuel)%nat ->
  seek_packets L fuel ts n s = (NoPacket, s') ->
  exists dmx' ctx',
    demuxer_ s' = Some dmx' /\ Demuxer.format_ctx_ dmx' = Some ctx' /\
    reading_stopped (upcoming ctx) (upcoming ctx') (Demuxer.isEOF dmx').
Proof.
  revert n s dmx ctx dec.
  induction fuel as [|fuel IH]; intros n s dmx ctx dec Hd Hctx Hidx Hdec Hfuel Hrun; [lia|].
  cbn [seek_packets] in Hrun. rewrite Hd, Hdec in Hrun.
  assert (Hpend : pending_count s = length (upcoming ctx))
    by (unfold pending_count; now rewrite Hd, Hctx).
  unfold Demuxer.readNextPacket in Hrun. rewrite Hctx in Hrun.
  destruct (Z.ltb_spec (Demuxer.stream_index_ dmx) 0) as [|_]; [lia|].
  destruct (Demuxer.read_loop (Demuxer.stream_index_ dmx) (upcoming ctx))
    as [[[p|] rest1] saw] eqn:El; cbv zeta in Hrun.
  - destruct (read_loop_some _ _ _ _ _ El) as (_ & _ & skipped & Hitems & _).
    pose proof (read_loop_shorter _ _ _ _ _ El) as Hshort.
    set (ctx1 := mkAVFormatContext (streams ctx) (ctx_duration ctx) rest1) in *.
    set (dmx1 := Demuxer.mk _ (Some ctx1) _ _ _) in *.
    assert (Hnext : forall n1 s1,
              demuxer_ s1 = Some dmx1 -> (exists dec1, decoder_ s1 = Some dec1) ->
              seek_packets L fuel ts n1 s1 = (NoPacket, s') ->
              exists dmx' ctx',
                demuxer_ s' = Some dmx' /\ Demuxer.format_ctx_ dmx' = Some ctx' /\
                reading_stopped (upcoming ctx) (upcoming ctx') (Demuxer.isEOF dmx')).
    { intros n1 s1 Hd1 [dec1 Hdec1] Hrun1.
      destruct (IH n1 s1 dmx1 ctx1 dec1 Hd1 eq_refl Hidx Hdec1) as (dmx' & ctx' & A & B & C).
      - unfold pending_count. rewrite Hd1. cbn. lia.
      - exact Hrun1.
      - exists dmx', ctx'. split_and!; [exact A|exact B|].
        rewrite Hitems. now apply reading_stopped_after. }
    destruct (negb _).
    { apply (Hnext n (set_demuxer (Some dmx1) s)); [reflexivity| |exact Hrun].
      exists dec. exact Hdec. }
    destruct (Decoder.decodePacket L (Some p) dec) as [ret dec1].
    destruct (ret <? 0); [discriminate|].
    pose proof (seek_frames_demuxer L (S (ready_count dec1)) ts n dec1
                  (set_demuxer (Some dmx1) s)) as Hd2.
    destruct (seek_frames L (S (ready_count dec1)) ts n dec1 (set_demuxer (Some dmx1) s))
      as [[[done n'] dec2] s2].
    cbn [snd] in Hd2. destruct done; [discriminate|].
    apply (Hnext n' (set_decoder (Some dec2) s2)); [exact Hd2| |exact Hrun].
    now exists dec2.
  - injection Hrun as <-.
    destruct (read_loop_none _ _ _ _ El) as (skipped & _ & Hcase).
    eexists _, _. split_and!; [reflexivity|reflexivity|]. cbn.
    destruct Hcase as [(Hitems & -> & ->)|(code & Hitems & _)].
    + left. rewrite Hitems. split_and!; [apply error_free_packets|reflexivity|reflexivity].
    + right. now exists (map ReadPacket skipped), code.
Qed.

End SeekStop.

(** C5, as the code has it. When [seek(t)] returns true on a source whose
    open demuxer has its stream and decoder, [t] was between 0 and the
    duration and every frame in the queue has a timestamp at or after [t]
    (earlier frames decoded on the way are not queued). The queue holds
    five frames unless reading stopped first: the demuxer, repositioned by
    its own seek, gave no further packet, which it does when it has read
    the file to its end without error, raising EOF, and also right after a
    read error, wherever in the file. *)
Theorem seek_queues_five_frames_unless_reading_stopped
    (L : Lib) (t : Z) (s s' : StreamSource.t) :
  5 <= StreamSource.MAX_QUEUE_SIZE s ->
  source_wired s ->
  StreamSource.seek L t s = (true, s') ->
  0 <= t <= StreamSource.getDuration L s /\
  Forall (fun f => t <= StreamSource.pts f) (StreamSource.frame_queue_ s') /\
  (length (StreamSource.frame_queue_ s') = 5%nat \/
   (length (StreamSource.frame_queue_ s') < 5)%nat /\
   exists dmx dmx1 ctx1 dmx' ctx',
     StreamSource.demuxer_ s = Some dmx /\
     Demuxer.seek L t AVSEEK_FLAG_BACKWARD dmx = (true, dmx1) /\
     Demuxer.format_ctx_ dmx1 = Some ctx1 /\
     StreamSource.demuxer_ s' = Some dmx' /\
     Demuxer.format_ctx_ dmx' = Some ctx' /\
     reading_stopped (upcoming ctx1) (upcoming ctx') (Demuxer.isEOF dmx')).
Proof.
  intros Hcap Hw Hseek. unfold StreamSource.seek in Hseek.
  destruct (StreamSource.seek_run L t s) as [e s1] eqn:Erun.
  destruct e as [e|]; [|discriminate].
  injection Hseek as He <-.
  destruct (seek_run_progress L t s e s1 Hcap Erun) as (Hr & n' & [Hlen Hall] & H5 & Hlt).
  split_and!; [lia|lia|exact Hall|].
  destruct e; try discriminate.
  { left. specialize (H5 eq_refl). lia. }
  right. split; [assert (n' < 5) by (now apply Hlt); lia|].
  unfold StreamSource.seek_run in Erun.
  destruct (_ || _); [discriminate|].
  destruct (StreamSource.demuxer_ s) as [dmx|] eqn:Hd; [|discriminate].
  destruct (Demuxer.seek L t AVSEEK_FLAG_BACKWARD dmx) as [ok dmx1] eqn:Eseek.
  cbv zeta in Erun. destruct ok; cbn [negb] in Erun; [|discriminate].
  destruct (Demuxer_seek_ok _ _ _ _ _ Eseek) as (Hopen & ctx1 & Hctx1 & Hidx1).
  destruct (Hw dmx Hd Hopen) as (_ & _ & dec & Hdec & _).
  match type of Erun with
  | context [StreamSource.seek_packets L ?f t 0 ?s3] =>
      destruct (StreamSource.seek_packets L f t 0 s3) as [e' s4] eqn:Ep
  end.
  injection Erun as -> ->.
  lazymatch type of Ep with
  | StreamSource.seek_packets _ ?f _ _ ?s3 = _ =>
      destruct (seek_packets_stopped L f t 0 s3 dmx1 ctx1 (Decoder.flush dec) s1
                  eq_refl Hctx1 Hidx1 ltac:(cbn; now rewrite Hdec) ltac:(lia) Ep)
        as (dmx' & ctx' & A & B & C)
  end.
  exists dmx, dmx1, ctx1, dmx', ctx'. now split_and!.
Qed.

Lemma seek_queues_five_frames_unless_reading_stopped_witness :
  5 <= StreamSource.MAX_QUEUE_SIZE video_source_sample /\
  fst (StreamSource.seek lib_sample 300000 video_source_sample) = true /\
  map StreamSource.pts
      (StreamSource.frame_queue_
         (snd (StreamSource.seek lib_sample 300000 video_source_sample)))
  = [320000; 360000] /\
  Forall (fun f => 300000 <= StreamSource.pts f)
         (StreamSource.frame_queue_
            (snd (StreamSource.seek lib_sample 300000 video_source_sample))).
Proof.
  assert (Hcap : 5 <= StreamSource.MAX_QUEUE_SIZE video_source_sample)
    by (vm_compute; discriminate).
  assert (Hok : fst (StreamSource.seek lib_sample 300000 video_source_sample) = true)
    by (vm_compute; reflexivity).
  assert (Hw : source_wired video_source_sample) by apply open_wired.
  split_and!; [exact Hcap|exact Hok|vm_compute; reflexivity|].
  destruct (StreamSource.seek lib_sample 300000 video_source_sample) as [ok s'] eqn:E.
  cbn [fst snd] in *. subst ok.
  exact (proj1 (proj2 (seek_queues_five_frames_unless_reading_stopped
                         lib_sample 300000 video_source_sample s' Hcap Hw E))).
Defined.

(** C5, as claimed, fails at a read error: on the sample file with a read
    error after its fourth packet, [seek(100000)] returns true with one
    frame queued, while six packets are still unread and the demuxer has
    not seen the end of the file. *)
Lemma seek_stops_short_at_read_error :
  let r := StreamSource.seek lib_sample 100000 broken_source_sample in
  0 <= 100000 <= StreamSource.getDuration lib_sample broken_source_sample /\
  fst r = true /\
  map StreamSource.pts (StreamSource.frame_queue_ (snd r)) = [120000] /\
  StreamSource.pending_count (snd r) = 6%nat /\
  option_map Demuxer.isEOF (StreamSource.demuxer_ (snd r)) = Some false.
Proof. vm_compute. split_and!; try reflexivity; discriminate. Qed.

(** X3. After any sequence of calls on a stream source made by the
    constructor, an open demuxer comes with its chosen stream and an open
    decoder. So whenever the demuxer's own seek succeeds inside
    [StreamSource::seek], the decoder that is flushed next is there and
    open, and the demuxer still has the stream whose time base the frames
    are rescaled with. *)
Theorem source_open_demuxer_has_stream_and_decoder
    (L : Lib) (type : Type_) (calls : list SourceCall) (timestamp : Z) :
  let s := source_calls L calls (StreamSource.new type) in
  source_wired s /\
  forall dmx dmx',
    StreamSource.demuxer_ s = Some dmx ->
    Demuxer.seek L timestamp AVSEEK_FLAG_BACKWARD dmx = (true, dmx') ->
    (exists st, Demuxer.stream_ dmx' = Some st) /\
    exists dec, StreamSource.decoder_ s = Some dec /\ Decoder.isOpen dec = true.
Proof.
  cbv zeta.
  assert (Hw : source_wired (source_calls L calls (StreamSource.new type))).
  { assert (H0 : source_wired (StreamSource.new type)) by (intros d E; discriminate E).
    revert H0. generalize (StreamSource.new type).
    induction calls as [|c calls IH]; intros s Hw; [exact Hw|].
    cbn [source_calls fold_left]. apply IH. now apply source_call_wired. }
  split; [exact Hw|]. intros dmx dmx' Hd Hseek.
  pose proof (Demuxer_seek_kept L timestamp AVSEEK_FLAG_BACKWARD dmx) as (Hst & _).
  rewrite Hseek in Hst. cbn [snd] in Hst.
  assert (Hopen : Demuxer.isOpen dmx = true).
  { revert Hseek. unfold Demuxer.seek, Demuxer.isOpen.
    destruct (Demuxer.format_ctx_ dmx); [reflexivity|discriminate]. }
  destruct (Hw dmx Hd Hopen) as (_ & Hs & Hdec).
  rewrite Hst. now split.
Qed.

Section SeekFlags.
Import StreamSource.

Lemma seek_packets_flags L fuel ts n s :
  let s' := snd (seek_packets L fuel ts n s) in
  state_ s' = state_ s /\ decoding_thread_ s' = decoding_thread_ s /\
  eof_ s' = eof_ s /\ fake_pts_ s' = fake_pts_ s.
Proof.
  revert n s. induction fuel as [|fuel IH]; intros n s; [now split_and!|].
  cbn [seek_packets].
  destruct (demuxer_ s) as [dmx|]; [|now split_and!].
  destruct (decoder_ s) as [dec|]; [|now split_and!].
  destruct (Demuxer.readNextPacket dmx) as [packet dmx']. cbv zeta.
  destruct packet as [p|]; [|now split_and!].
  destruct (negb _); [exact (IH n (set_demuxer (Some dmx') s))|].
  destruct (Decoder.decodePacket L (Some p) dec) as [ret dec1].
  destruct (ret <? 0); [now split_and!|].
  pose proof (seek_frames_fields L (S (ready_count dec1)) ts n dec1
                (set_demuxer (Some dmx') s)) as Hf.
  destruct (seek_frames _ _ _ _ _ _) as [[[done n'] dec2] s2].
  cbv zeta in Hf. cbn [fst snd] in Hf. destruct Hf as (_ & _ & _ & A & B & C & D).
  cbn [state_ decoding_thread_ eof_ fake_pts_ set_demuxer] in A, B, C, D.
  destruct done; cbn [snd]; [now split_and!|].
  pose proof (IH n' (set_decoder (Some dec2) s2)) as IH'. cbv zeta in IH'.
  cbn [state_ decoding_thread_ eof_ fake_pts_ set_decoder] in IH'.
  rewrite <- A, <- B, <- C, <- D. exact IH'.
Qed.

End SeekFlags.

(** X4. [StreamSource::seek] never starts, stops or pauses decoding: the
    state and the decoding thread are those before the call. A seek turned
    down before the decoder is flushed (timestamp out of range, no demuxer,
    or the demuxer's own seek failing) leaves the queue, the end-of-stream
    flag, the timestamp counter and the decoder as they were; every other
    seek, also one that ends on the last packet of the file or fails while
    sending a packet, returns with the end-of-stream flag lowered and the
    counter of synthetic timestamps at 0. *)
Theorem seek_keeps_state_and_lowers_eof (L : Lib) (timestamp : Z) (s : StreamSource.t) :
  let r := StreamSource.seek_run L timestamp s in
  StreamSource.state_ (snd r) = StreamSource.state_ s /\
  StreamSource.decoding_thread_ (snd r) = StreamSource.decoding_thread_ s /\
  match fst r with
  | None =>
      fst (StreamSource.seek L timestamp s) = false /\
      StreamSource.frame_queue_ (snd r) = StreamSource.frame_queue_ s /\
      StreamSource.eof_ (snd r) = StreamSource.eof_ s /\
      StreamSource.fake_pts_ (snd r) = StreamSource.fake_pts_ s /\
      StreamSource.decoder_ (snd r) = StreamSource.decoder_ s
  | Some _ =>
      StreamSource.eof_ (snd r) = false /\ StreamSource.fake_pts_ (snd r) = 0
  end.
Proof.
  unfold StreamSource.seek, StreamSource.seek_run.
  destruct (_ || _); [cbn; now split_and!|].
  destruct (StreamSource.demuxer_ s) as [dmx|]; [|cbn; now split_and!].
  destruct (Demuxer.seek L timestamp AVSEEK_FLAG_BACKWARD dmx) as [ok dmx'].
  cbv zeta. destruct ok; cbn [negb]; [|cbn; now split_and!].
  match goal with
  | |- context [StreamSource.seek_packets L ?f timestamp 0 ?s3] =>
      pose proof (seek_packets_flags L f timestamp 0 s3) as H3;
      destruct (StreamSource.seek_packets L f timestamp 0 s3) as [e s4]
  end.
  cbv zeta in H3. cbn in H3. destruct H3 as (A & B & C & D). cbn. now split_and!.
Qed.

Section SourceOpen.
Import StreamSource.

Lemma find_stream_at type sts i0 i st :
  sts !! i = Some st -> Demuxer.matches type st = true ->
  (forall j st', (j < i)%nat -> sts !! j = Some st' -> Demuxer.matches type st' = false) ->
  Demuxer.find_stream type sts i0 = Some (i0 + Z.of_nat i, st).
Proof.
  revert i0 i. induction sts as [|s0 sts IH]; intros i0 i Hl Hm Hb; [discriminate|].
  cbn [Demuxer.find_stream]. destruct i as [|i].
  - cbn in Hl. injection Hl as ->. rewrite Hm. do 2 f_equal. lia.
  - rewrite (Hb 0%nat s0) by (done || lia).
    rewrite (IH (i0 + 1) i); [do 2 f_equal; lia|exact Hl|exact Hm|].
    intros j st' Hj Hl'. apply (Hb (S j)); [lia|exact Hl'].
Qed.

Lemma initializeDecoder_new st s :
  Demuxer.matches (type_ s) st = true ->
  decoder_ s = Some (Decoder.new (type_ s)) ->
  let r := initializeDecoder (Some st) s in
  fst r = codec_found st && codec_usable st /\
  demuxer_ (snd r) = demuxer_ s /\ state_ (snd r) = state_ s /\
  eof_ (snd r) = eof_ s /\ frame_queue_ (snd r) = frame_queue_ s /\
  decoding_thread_ (snd r) = decoding_thread_ s.
Proof.
  intros Hm Hd. unfold initializeDecoder. rewrite Hd.
  unfold Decoder.open. cbn [Decoder.type_ Decoder.new]. rewrite Hm. cbn [negb].
  unfold Decoder.initializeCodec.
  destruct (codec_found st), (codec_usable st); cbn; try now split_and!.
  destruct (type_ s); cbn; now split_and!.
Qed.

End SourceOpen.

(** X5. [StreamSource::open] succeeds exactly when the file name is not
    empty, the file opens and can be probed, and the first stream of the
    source's kind has a decoder that can be found and opened: a later
    stream of the same kind is never tried. A successful open leaves the
    source stopped with the end-of-stream flag lowered; a failed one leaves
    a closed demuxer. In both cases the frames queued before the call and
    the decoding thread are kept. *)
Theorem source_open_succeeds_iff_first_stream_decodes
    (fs : FileSystem) (filename : string) (s : StreamSource.t) :
  let r := StreamSource.open fs filename s in
  (fst r = true <->
   filename <> EmptyString /\
   exists file i st,
     fs filename = Some file /\ find_stream_info_ok file = true /\
     streams (context file) !! i = Some st /\
     Demuxer.matches (StreamSource.type_ s) st = true /\
     (forall j st', (j < i)%nat -> streams (context file) !! j = Some st' ->
                    Demuxer.matches (StreamSource.type_ s) st' = false) /\
     codec_found st = true /\ codec_usable st = true) /\
  (fst r = true ->
   StreamSource.state_ (snd r) = StreamSource.Stopped /\
   StreamSource.eof_ (snd r) = false) /\
  (fst r = false ->
   StreamSource.state_ (snd r) = StreamSource.state_ s /\
   exists dmx, StreamSource.demuxer_ (snd r) = Some dmx /\ Demuxer.isOpen dmx = false) /\
  StreamSource.frame_queue_ (snd r) = StreamSource.frame_queue_ s /\
  StreamSource.decoding_thread_ (snd r) = StreamSource.decoding_thread_ s.
Proof.
  unfold StreamSource.open, Demuxer.open.
  destruct filename as [|c0 name].
  { cbn. split_and!; try done.
    - split; [discriminate|]. now intros [Hne _].
    - intros _. split; [reflexivity|]. now eexists. }
  set (filename := String c0 name).
  destruct (fs filename) as [file|] eqn:Efs.
  2:{ cbn. split_and!; try done.
      - split; [discriminate|]. intros (_ & file & i & st & E & _). discriminate E.
      - intros _. split; [reflexivity|]. now eexists. }
  destruct (find_stream_info_ok file) eqn:Einfo; cbn [negb].
  2:{ cbn. split_and!; try done.
      - split; [discriminate|]. intros (_ & file' & i & st & E & E' & _).
        injection E as <-. congruence.
      - intros _. split; [reflexivity|]. now eexists. }
  cbn [Demuxer.type_ Demuxer.new Demuxer.format_ctx_ Demuxer.stream_ Demuxer.eof_
       Demuxer.stream_index_].
  destruct (Demuxer.find_stream (StreamSource.type_ s) (streams (context file)) 0)
    as [[i st]|] eqn:Efind.
  2:{ cbn. split_and!; try done.
      - split; [discriminate|].
        intros (_ & file' & i & st & E & _ & Hl & Hm & Hb & _). injection E as <-.
        rewrite (find_stream_at _ _ 0 i st Hl Hm Hb) in Efind. discriminate.
      - intros _. split; [reflexivity|]. now eexists. }
  destruct (find_stream_first _ _ _ _ _ Efind) as (Hi & Hl & Hm & Hb).
  rewrite Z.sub_0_r in Hl, Hb.
  cbn [Demuxer.stream_index_ Demuxer.type_ Demuxer.format_ctx_ Demuxer.stream_].
  destruct (i <? 0) eqn:Ei; [apply Z.ltb_lt in Ei; lia|].
  cbv zeta. cbn [negb Demuxer.getAVStream Demuxer.stream_].
  match goal with
  | |- context [StreamSource.initializeDecoder (Some st) ?s2] =>
      pose proof (initializeDecoder_new st s2 Hm eq_refl) as Hinit;
      destruct (StreamSource.initializeDecoder (Some st) s2) as [ok' s3]
  end.
  cbv zeta in Hinit. cbn [fst snd] in Hinit.
  destruct Hinit as (Hok & Hd & Hst & He & Hq & Ht).
  cbn in Hd, Hst, He, Hq, Ht.
  assert (Hiff : ok' = true <->
            filename <> EmptyString /\
            exists file0 i0 st0,
              Some file = Some file0 /\ find_stream_info_ok file0 = true /\
              streams (context file0) !! i0 = Some st0 /\
              Demuxer.matches (StreamSource.type_ s) st0 = true /\
              (forall j st', (j < i0)%nat -> streams (context file0) !! j = Some st' ->
                             Demuxer.matches (StreamSource.type_ s) st' = false) /\
              codec_found st0 = true /\ codec_usable st0 = true).
  { rewrite Hok, andb_true_iff. split.
    - intros [Hf Hu]. split; [discriminate|].
      exists file, (Z.to_nat i), st. now split_and!.
    - intros (_ & file' & i' & st' & E & _ & Hl' & Hm' & Hb' & Hf & Hu).
      injection E as <-.
      rewrite (find_stream_at _ _ 0 i' st' Hl' Hm' Hb') in Efind.
      injection Efind as _ <-. now split. }
  destruct ok'; cbn [negb fst snd].
  - cbn. split_and!; try done.
  - cbn. split_and!; try done.
    intros _. split; [exact Hst|]. rewrite Hd. cbn. now eexists.
Qed.

Section Drain.
Import StreamSource.

Lemma clonable_cons L f frames :
  clonable L (f :: frames) =
  (match av_frame_clone L f with Some _ => 1 | None => 0 end) + clonable L frames.
Proof.
  unfold clonable. cbn [List.filter].
  destruct (av_frame_clone L f); cbn [length]; lia.
Qed.

Lemma clonable_nonneg L frames : 0 <= clonable L frames.
Proof. unfold clonable. lia. Qed.

Lemma process_frames_queue L fuel packet dec s :
  (ready_count dec < fuel)%nat ->
  let r := process_frames L fuel packet dec s in
  let len := Z.of_nat (length (frame_queue_ s)) in
  ready_count (fst r) = 0%nat /\
  frame_queue_ s `prefix_of` frame_queue_ (snd r) /\
  MAX_QUEUE_SIZE (snd r) = MAX_QUEUE_SIZE s /\
  Z.of_nat (length (frame_queue_ (snd r))) =
    Z.max len (Z.min (MAX_QUEUE_SIZE s) (len + clonable L (ready_frames dec))).
Proof.
  revert dec s. induction fuel as [|fuel IH]; intros dec s Hfuel; [lia|].
  cbn [process_frames].
  destruct (Decoder.receiveFrame dec) as [[raw|] dec'] eqn:Er.
  2:{ cbv zeta. cbn [fst snd]. revert Er. unfold Decoder.receiveFrame, ready_count, ready_frames.
      destruct (Decoder.codec_ctx_ dec) as [ctx|] eqn:Ec.
      - destruct (Decoder.ready ctx) eqn:Erd; [|discriminate].
        intros E. injection E as <-. rewrite Ec, Erd. cbn.
        split_and!; try done. unfold clonable. cbn. lia.
      - intros E. injection E as <-. rewrite Ec.
        split_and!; try done. unfold clonable. cbn. lia. }
  pose proof (receiveFrame_ready _ _ _ Er) as Hcount.
  assert (Hready : ready_frames dec = raw :: ready_frames dec').
  { revert Er. unfold Decoder.receiveFrame, ready_frames.
    destruct (Decoder.codec_ctx_ dec) as [ctx|]; [|discriminate].
    destruct (Decoder.ready ctx); [discriminate|].
    intros E. injection E as <- <-. reflexivity. }
  cbv zeta. rewrite Hready, clonable_cons.
  pose proof (clonable_nonneg L (ready_frames dec')) as Hk.
  match goal with
  | |- context [if ?c then (?p1, ?s1) else (?p2, ?s2)] =>
      assert (Hs : let s' := snd (if c then (p1, s1) else (p2, s2)) in
                   frame_queue_ s' = frame_queue_ s /\ MAX_QUEUE_SIZE s' = MAX_QUEUE_SIZE s)
        by (destruct c; cbn; now split);
      destruct (if c then (p1, s1) else (p2, s2)) as [pts s1']
  end.
  cbn [snd] in Hs. destruct Hs as (Hq & Hcap).
  destruct (av_frame_clone L raw) as [clone|].
  - match goal with
    | |- context [pushFrameToQueue ?f s1'] =>
        destruct (IH dec' (pushFrameToQueue f s1') ltac:(lia)) as (A & B & C & D);
        set (s2 := pushFrameToQueue f s1') in *;
        assert (Hpush : MAX_QUEUE_SIZE s2 = MAX_QUEUE_SIZE s /\
                  frame_queue_ s `prefix_of` frame_queue_ s2 /\
                  Z.of_nat (length (frame_queue_ s2)) =
                    if MAX_QUEUE_SIZE s <=? Z.of_nat (length (frame_queue_ s))
                    then Z.of_nat (length (frame_queue_ s))
                    else Z.of_nat (length (frame_queue_ s)) + 1)
    end.
    { subst s2. unfold pushFrameToQueue. rewrite Hcap, Hq.
      destruct (_ <=? _); cbn; rewrite ?Hq, ?Hcap.
      - now split_and!.
      - split_and!; [done|now apply prefix_app_r|]. rewrite length_app. cbn. lia. }
    destruct Hpush as (Hc2 & Hp2 & Hl2).
    split_and!; [exact A|now transitivity (frame_queue_ s2)|congruence|].
    rewrite D, Hc2, Hl2. destruct (Z.leb_spec (MAX_QUEUE_SIZE s) (Z.of_nat (length (frame_queue_ s)))); lia.
  - destruct (IH dec' s1' ltac:(lia)) as (A & B & C & D).
    rewrite Hq in B, D. rewrite Hcap in C, D.
    split_and!; try done.
Qed.

End Drain.

(** X6. [StreamSource::processPacket] on a source whose demuxer holds its
    stream and whose decoder is open only appends to the frame queue. When
    the decoder refuses the packet the queue is unchanged. When it accepts, the decoder is drained completely: the
    queue takes as many of the copied frames as fit below its capacity and
    the rest are dropped, none stays in the decoder for a later call. *)
Theorem processPacket_drains_decoder_into_queue
    (L : Lib) (packet : option AVPacket) (s : StreamSource.t)
    (dmx : Demuxer.t) (st : AVStream) (dec : Decoder.t) (ctx : Decoder.CodecCtx) :
  StreamSource.demuxer_ s = Some dmx -> Demuxer.stream_ dmx = Some st ->
  StreamSource.decoder_ s = Some dec -> Decoder.codec_ctx_ dec = Some ctx ->
  let s' := StreamSource.processPacket L packet s in
  let len := Z.of_nat (length (StreamSource.frame_queue_ s)) in
  let offered := Decoder.ready ctx ++ snd (avcodec_send_packet L (Decoder.sent ctx) packet) in
  StreamSource.frame_queue_ s `prefix_of` StreamSource.frame_queue_ s' /\
  (fst (Decoder.decodePacket L packet dec) < 0 ->
   StreamSource.frame_queue_ s' = StreamSource.frame_queue_ s) /\
  (0 <= fst (Decoder.decodePacket L packet dec) ->
   (exists dec', StreamSource.decoder_ s' = Some dec' /\
                 Decoder.isOpen dec' = true /\ StreamSource.ready_count dec' = 0%nat) /\
   Z.of_nat (length (StreamSource.frame_queue_ s')) =
     Z.max len (Z.min (StreamSource.MAX_QUEUE_SIZE s) (len + clonable L offered))).
Proof.
  intros _ _ Hdec Hctx. unfold StreamSource.processPacket. rewrite Hdec.
  assert (Ho : Decoder.isOpen dec = true) by (unfold Decoder.isOpen; now rewrite Hctx).
  rewrite Ho. cbn [negb].
  pose proof (decodePacket_isOpen L packet dec) as Hopen. rewrite Ho in Hopen.
  assert (Hsend : 0 <= fst (Decoder.decodePacket L packet dec) ->
            ready_frames (snd (Decoder.decodePacket L packet dec)) =
            Decoder.ready ctx ++ snd (avcodec_send_packet L (Decoder.sent ctx) packet)).
  { unfold Decoder.decodePacket, ready_frames. rewrite Hctx.
    destruct (avcodec_send_packet L (Decoder.sent ctx) packet) as [ret frames].
    unfold AVERROR_EINVAL.
    destruct packet as [p|]; [destruct (packet_size p <=? 0); cbn; [lia|]|];
      destruct (Z.ltb_spec ret 0); cbn; intros; (lia || reflexivity). }
  destruct (Decoder.decodePacket L packet dec) as [ret dec1]. cbn [fst snd] in *.
  destruct (Z.ltb_spec ret 0) as [Hret|Hret].
  - cbv zeta. cbn [StreamSource.frame_queue_ StreamSource.set_decoder].
    split_and!; [done|intros _; reflexivity|intros ?; lia].
  - pose proof (process_frames_queue L (S (StreamSource.ready_count dec1)) packet dec1 s
                  ltac:(lia)) as Hq.
    pose proof (process_frames_fields L (S (StreamSource.ready_count dec1)) packet dec1 s)
      as Hf.
    destruct (StreamSource.process_frames _ _ _ _ _) as [dec2 s2].
    cbv zeta in Hq, Hf |- *. cbn [fst snd] in Hq, Hf.
    destruct Hq as (A & B & C & D). destruct Hf as (Ho2 & _).
    cbn [StreamSource.frame_queue_ StreamSource.set_decoder StreamSource.decoder_].
    split_and!; [exact B|lia|]. intros _. split.
    + exists dec2. split_and!; [reflexivity| |exact A].
      now rewrite Ho2.
    + rewrite D, (Hsend Hret). reflexivity.
Qed.

Lemma processPacket_drains_decoder_into_queue_witness :
  let s := video_source_sample in
  let packet := mkAVPacket 0 0 100 0%nat in
  StreamSource.getTimeBase s = (1, 1000000) /\
  length (StreamSource.frame_queue_ (StreamSource.processPacket lib_sample (Some packet) s))
    = 1%nat.
Proof.
  cbv zeta. split; [vm_compute; reflexivity|].
  match goal with
  | |- length (StreamSource.frame_queue_ (StreamSource.processPacket ?L ?p ?s)) = _ =>
      pose proof (processPacket_drains_decoder_into_queue L p s _ video_stream_sample _ _
                    eq_refl eq_refl eq_refl eq_refl) as H
  end.
  cbv zeta in H. destruct H as (_ & _ & H).
  destruct (H ltac:(vm_compute; discriminate)) as (_ & Hlen).
  apply Nat2Z.inj. rewrite Hlen. vm_compute. reflexivity.
Defined.

Section Callback.
Import AudioPlayer.



End Callback.



Lemma wrap_s32_range z : - 2 ^ 31 <= wrap_s32 z < 2 ^ 31.
Proof.
  unfold wrap_s32. pose proof (Z.mod_pos_bound (z + 2 ^ 31) (2 ^ 32) ltac:(lia)). lia.
Qed.

(** X8. On an output whose producer thread is not running, a successful
    [AudioPlayer::initialize] leaves a ring that is well formed and empty:
    the buffer has the length of the capacity, both positions are 0, and
    all of the capacity is free. The capacity is at least 4096 bytes and, when two seconds of
    16-bit audio fit an [int], exactly two seconds of audio if that is
    more. *)
Theorem initialize_leaves_empty_ring
    (H : AudioPlayer.Host) (src : StreamSource.t) (a : AudioPlayer.t) :
  AudioPlayer.producer_thread_ a = false ->
  fst (AudioPlayer.initialize H (Some src) a) = true ->
  let r := AudioPlayer.ring (snd (AudioPlayer.initialize H (Some src) a)) in
  let two_seconds := StreamSource.sample_rate_ src * StreamSource.channels_ src * 2 * 2 in
  ring_wf r /\ contents r = [] /\
  AudioPlayer.free_space r = AudioPlayer.pcm_ring_cap_ r /\
  4096 <= AudioPlayer.pcm_ring_cap_ r < 2 ^ 31 /\
  0 < two_seconds /\
  (two_seconds < 2 ^ 31 -> AudioPlayer.pcm_ring_cap_ r = Z.max 4096 two_seconds).
Proof.
  intros _. unfold AudioPlayer.initialize. cbv zeta.
  cbn [AudioPlayer.sample_rate_ AudioPlayer.channels_ AudioPlayer.sample_fmt_].
  destruct (_ || _) eqn:Epar; [discriminate|].
  apply orb_false_iff in Epar. destruct Epar as [Epar _].
  apply orb_false_iff in Epar. destruct Epar as [Esr Ech].
  apply Z.leb_gt in Esr, Ech.
  destruct (negb (AudioPlayer.sdl_audio_available H)); [discriminate|].
  destruct (AudioPlayer.SDL_OpenAudioDevice H _) as [dev have].
  destruct (dev =? 0); [discriminate|].
  destruct (negb (bool_decide _)); [discriminate|].
  destruct (negb (AudioPlayer.swr_alloc_ok H)); [discriminate|].
  destruct (negb (AudioPlayer.swr_init_ok H)); [discriminate|].
  intros _. cbn [snd AudioPlayer.ring AudioPlayer.pcm_ring_cap_].
  unfold AudioPlayer.bytes_per_sample_S16.
  set (sr := StreamSource.sample_rate_ src) in *.
  set (ch := StreamSource.channels_ src) in *.
  set (b0 := wrap_s32 (wrap_s32 (wrap_s32 (sr * ch) * 2) * 2)).
  set (b := if b0 <? 4096 then 4096 else b0).
  assert (Hb0 : - 2 ^ 31 <= b0 < 2 ^ 31).
  { subst b0. apply wrap_s32_range. }
  assert (Hb : 4096 <= b < 2 ^ 31).
  { subst b. destruct (Z.ltb_spec b0 4096); lia. }
  assert (Hcap : wrap_u64 b = b) by (apply wrap_u64_small; unfold U64; lia).
  rewrite Hcap.
  assert (Hexact : sr * ch * 2 * 2 < 2 ^ 31 -> b = Z.max 4096 (sr * ch * 2 * 2)).
  { intros Hfit. subst b b0.
    rewrite (wrap_s32_small (sr * ch)) by nia.
    rewrite (wrap_s32_small (sr * ch * 2)) by nia.
    rewrite (wrap_s32_small (sr * ch * 2 * 2)) by nia.
    destruct (Z.ltb_spec (sr * ch * 2 * 2) 4096); lia. }
  split_and!; try lia; try nia.
  - unfold ring_wf, U64. cbn [AudioPlayer.pcm_ring_cap_ AudioPlayer.pcm_ring_buf_
                               AudioPlayer.pcm_ring_read_ AudioPlayer.pcm_ring_write_].
    split_and!; try lia.
    rewrite length_take, length_app, length_replicate. lia.
  - reflexivity.
  - unfold AudioPlayer.free_space, AudioPlayer.occupancy.
    cbn [AudioPlayer.pcm_ring_cap_ AudioPlayer.pcm_ring_read_ AudioPlayer.pcm_ring_write_].
    change (wrap_u64 (0 - 0)) with 0. rewrite Z.sub_0_r. exact Hcap.
Qed.

Lemma initialize_leaves_empty_ring_witness :
  AudioPlayer.pcm_ring_cap_
    (AudioPlayer.ring
       (snd (AudioPlayer.initialize host_sample (Some audio_source_sample) AudioPlayer.new)))
  = 32000.
Proof.
  pose proof (initialize_leaves_empty_ring host_sample audio_source_sample AudioPlayer.new
                eq_refl ltac:(vm_compute; reflexivity)) as Hx.
  cbv zeta in Hx. destruct Hx as (_ & _ & _ & _ & _ & Hx).
  rewrite Hx; vm_compute; reflexivity.
Defined.

(** X9. After [AudioPlayer::stop] the output is inert: the device callback
    yields silence and the producer's push accepts nothing, both leaving
    the object as it is; the audio clock reads 0; a second [stop] changes
    nothing. *)
Theorem stopped_audio_output_is_inert
    (H : AudioPlayer.Host) (a : AudioPlayer.t) (len : Z) (data : list byte) :
  let a' := AudioPlayer.stop a in
  AudioPlayer.fillAudioData H len a' = (replicate (Z.to_nat len) Byte.x00, a') /\
  AudioPlayer.producer_push data a' = (data, a') /\
  AudioPlayer.getAudioClock a' = 0 /\
  AudioPlayer.stop a' = a'.
Proof.
  cbv zeta. split_and!; try reflexivity.
  - unfold AudioPlayer.fillAudioData. cbn [AudioPlayer.stop AudioPlayer.paused_
      AudioPlayer.stop_ orb]. cbv zeta. cbn [AudioPlayer.fill_loop].
    destruct (negb (0 <? len)); [cbn; now rewrite andb_false_r|].
    cbn [AudioPlayer.playback_finished_ andb AudioPlayer.ring].
    unfold AudioPlayer.popPCMData. cbn [AudioPlayer.pcm_ring_cap_].
    rewrite orb_true_r. cbn. now rewrite andb_false_r.
  - unfold AudioPlayer.producer_push.
    destruct (_ && _); [|reflexivity].
    unfold AudioPlayer.pushPCMData. cbn [AudioPlayer.stop AudioPlayer.ring
      AudioPlayer.pcm_ring_cap_]. now rewrite orb_true_r.
Qed.

(** X10. From the state Playing, with neither source paused on its own and
    the audio output not paused, [pause] followed by [resume] gives back
    the player it started from. *)
Theorem pause_then_resume_restores_player (p : Player.t) :
  Player.state_ p = Player.Playing ->
  StreamSource.state_ (Player.video_reader_ p) <> StreamSource.Paused ->
  StreamSource.state_ (Player.audio_reader_ p) <> StreamSource.Paused ->
  AudioPlayer.paused_ (Player.audio_player_ p) = false ->
  (AudioPlayer.audio_dev_ (Player.audio_player_ p) <> 0 ->
   AudioPlayer.device_paused (Player.audio_player_ p) = false) ->
  Player.resume (Player.pause p) = p /\
  Player.state_ (Player.pause p) = Player.Paused.
Proof.
  destruct p as [v a r ap th run st ts dl]. cbn. intros -> Hv Ha Hp Hd.
  assert (Hsrc : forall s, StreamSource.state_ s <> StreamSource.Paused ->
            StreamSource.resumeDecoding (StreamSource.pauseDecoding s) = s).
  { intros s Hs. destruct s as [? ? ? ? ? ? ? ? ? ? ? ? ? sst ? ? ?]. cbn in Hs.
    unfold StreamSource.pauseDecoding, StreamSource.resumeDecoding. cbn.
    destruct sst; cbn; try reflexivity. contradiction. }
  assert (Hpaused : AudioPlayer.isPaused (AudioPlayer.pause ap) = true).
  { unfold AudioPlayer.pause. cbv zeta. now destruct (negb _). }
  assert (Hback : AudioPlayer.resume (AudioPlayer.pause ap) = ap).
  { destruct ap as [? ? dev dp ? ? ? ? ? ? ? ? ? ? ? ?]. cbn in Hp, Hd. subst.
    unfold AudioPlayer.pause, AudioPlayer.resume. cbn.
    destruct (dev =? 0) eqn:E; cbn; rewrite ?E; cbn; [reflexivity|].
    apply Z.eqb_neq in E. now rewrite (Hd E). }
  unfold Player.pause, Player.resume, Player.getState. cbn.
  rewrite Hpaused. cbn. rewrite Hback, (Hsrc v Hv), (Hsrc a Ha). now split.
Qed.

Lemma pause_then_resume_restores_player_witness :
  Player.resume (Player.pause playing_sample) = playing_sample /\
  Player.state_ (Player.pause playing_sample) = Player.Paused.
Proof.
  apply pause_then_resume_restores_player.
  - vm_compute. reflexivity.
  - vm_compute. discriminate.
  - vm_compute. discriminate.
  - vm_compute. reflexivity.
  - intros _. vm_compute. reflexivity.
Defined.

(** X12. [play] after [stop] ends the program once a decoding thread has
    been started: [stop] marks the sources Stopped without joining their
    threads, and the [startDecoding] of [play] then assigns a new thread
    over the one that is still joinable. This holds from every state but
    Stopped, for the audio thread as for the video thread. *)
Theorem play_after_stop_ends_program (p : Player.t) :
  Player.state_ p <> Player.Stopped ->
  StreamSource.decoding_thread_ (Player.audio_reader_ p) = true \/
  StreamSource.decoding_thread_ (Player.video_reader_ p) = true ->
  Player.state_ (Player.stop p) = Player.Stopped /\
  Player.play (Player.stop p) = None.
Proof.
  intros Hst Hthread. unfold Player.stop, Player.getState.
  destruct (Player.State_eqb (Player.state_ p) Player.Stopped) eqn:E.
  { destruct (Player.state_ p); try discriminate. contradiction. }
  cbv zeta. split; [reflexivity|].
  unfold Player.play, Player.getState. cbn.
  unfold StreamSource.startDecoding, StreamSource.stopDecoding. cbn.
  destruct (StreamSource.decoding_thread_ (Player.audio_reader_ p)) eqn:Ea;
    [reflexivity|].
  destruct Hthread as [Ha|Hv]; [discriminate|].
  cbn. now rewrite Hv.
Qed.

Lemma play_after_stop_ends_program_witness :
  Player.state_ playing_sample = Player.Playing /\
  Player.play (Player.stop playing_sample) = None.
Proof.
  split; [vm_compute; reflexivity|].
  apply (play_after_stop_ends_program playing_sample).
  - vm_compute. discriminate.
  - left. vm_compute. reflexivity.
Defined.

(** X15. The renderer's queue keeps the newest frames: after any run of
    [enqueueFrame] on a queue within its capacity, the queue holds, in
    order, the last [max_queue_size_] of the frames it held and was given;
    older ones are dropped from the front, and every call returns true. *)
Theorem enqueueFrame_keeps_newest_frames (frames : list AVFrame) (r : GLRenderer.t) :
  1 <= GLRenderer.max_queue_size_ r ->
  Z.of_nat (length (GLRenderer.frame_queue_ r)) <= GLRenderer.max_queue_size_ r ->
  let all := GLRenderer.frame_queue_ r ++ frames in
  GLRenderer.frame_queue_ (enqueue_all frames r)
  = drop (length all - Z.to_nat (GLRenderer.max_queue_size_ r)) all /\
  Z.of_nat (length (GLRenderer.frame_queue_ (enqueue_all frames r)))
  <= GLRenderer.max_queue_size_ r /\
  GLRenderer.max_queue_size_ (enqueue_all frames r) = GLRenderer.max_queue_size_ r /\
  forall f, fst (GLRenderer.enqueueFrame f r) = true.
Proof.
  cbv zeta. revert r. induction frames as [|f frames IH]; intros r Hmax Hlen.
  - cbn [enqueue_all fold_left]. rewrite app_nil_r.
    replace (_ - _)%nat with 0%nat by lia. rewrite drop_0. now split_and!.
  - cbn [enqueue_all fold_left].
    set (r1 := snd (GLRenderer.enqueueFrame f r)).
    set (q := GLRenderer.frame_queue_ r) in *.
    set (M := GLRenderer.max_queue_size_ r) in *.
    assert (Hq1 : GLRenderer.frame_queue_ r1
                  = drop (length q + 1 - Z.to_nat M) (q ++ [f]) /\
                  GLRenderer.max_queue_size_ r1 = M).
    { subst r1. unfold GLRenderer.enqueueFrame. cbv zeta. cbn [snd GLRenderer.frame_queue_
        GLRenderer.max_queue_size_]. fold q M. split; [|reflexivity].
      destruct (Z.leb_spec M (Z.of_nat (length q))).
      - replace (length q + 1 - Z.to_nat M)%nat with 1%nat by lia.
        destruct q as [|f0 q0]; [cbn in *; lia|reflexivity].
      - replace (length q + 1 - Z.to_nat M)%nat with 0%nat by lia. now rewrite drop_0. }
    destruct Hq1 as [Hq1 HM1].
    assert (Hlen1 : Z.of_nat (length (GLRenderer.frame_queue_ r1)) <= M).
    { rewrite Hq1, length_drop, length_app. cbn [length]. lia. }
    destruct (IH r1 ltac:(rewrite HM1; exact Hmax) ltac:(rewrite HM1; exact Hlen1))
      as (A & B & C & _).
    fold (enqueue_all frames r1). rewrite HM1 in A, B, C.
    split_and!; [|exact B|exact C|reflexivity].
    rewrite A, Hq1.
    rewrite <- drop_app_le by (rewrite length_app; cbn [length]; lia).
    rewrite drop_drop, <- app_assoc. cbn [app]. f_equal.
    rewrite !length_app, length_drop, !length_app. cbn [length]. lia.
Qed.

Lemma enqueueFrame_keeps_newest_frames_witness :
  map frame_pts
    (GLRenderer.frame_queue_
       (enqueue_all (map (fun i => mkAVFrame (Z.of_nat i) 0 0 0%nat) (seq 0 7))
                    GLRenderer.new))
  = [2; 3; 4; 5; 6].
Proof.
  pose proof (enqueueFrame_keeps_newest_frames
                (map (fun i => mkAVFrame (Z.of_nat i) 0 0 0%nat) (seq 0 7))
                GLRenderer.new ltac:(vm_compute; discriminate)
                ltac:(vm_compute; discriminate)) as Hx.
  cbv zeta in Hx. destruct Hx as [Hx _]. rewrite Hx. vm_compute. reflexivity.
Defined.

Section VolumeKeys.

Lemma round_inject (q : Q) (n : Z) : (q == inject_Z n)%Q -> 0 <= n -> round q = n.
Proof.
  intros Hq Hn.
  rewrite round_nonneg by (rewrite Hq; unfold Qle; cbn; lia).
  rewrite Hq.
  assert (Hle : (inject_Z n <= inject_Z n + (1 # 2))%Q) by lra.
  assert (Hlt : (inject_Z n + (1 # 2) < inject_Z (n + 1))%Q)
    by (rewrite inject_Z_plus; change (inject_Z 1) with 1%Q; lra).
  apply Qfloor_resp_le in Hle. rewrite Qfloor_Z in Hle.
  pose proof (Qfloor_le (inject_Z n + (1 # 2))) as Hfl.
  assert (Hz : (inject_Z (Qfloor (inject_Z n + (1 # 2))) < inject_Z (n + 1))%Q)
    by (eapply Qle_lt_trans; eassumption).
  rewrite <- Zlt_Qlt in Hz. lia.
Qed.

(** [setVolume] on a multiple of 1/128 in [0, 1] stores the multiple. *)
Lemma setVolume_level (x : Q) (n : Z) (a : AudioPlayer.t) :
  0 <= n <= 128 -> (x == n # 128)%Q ->
  AudioPlayer.volume_ (AudioPlayer.setVolume (Fin x) a) = n.
Proof.
  intros Hn Hx.
  assert (Hr : (0 <= x <= 1)%Q).
  { rewrite Hx. unfold Qle. cbn [Qnum Qden]. lia. }
  rewrite setVolume_stores by exact Hr.
  apply round_inject; [|lia].
  rewrite Hx. unfold SDL_MIX_MAXVOLUME, Qeq. cbn [Qnum Qden Qmult inject_Z]. lia.
Qed.

End VolumeKeys.

(** X16. The volume keys of [handleKeyPress]. With the level between 0 and
    128, UP raises it by 8 and stops at 128, DOWN lowers it by 8 and stops
    at 0, M sets it to 0 when it is above 0 and to 128 otherwise, and the
    pause keys leave it alone. In the state Error every key is ignored. *)
Theorem volume_keys_step_by_eight (key : Main.Key) (p : Player.t) :
  0 <= volume_level p <= SDL_MIX_MAXVOLUME ->
  (Player.state_ p = Player.Error -> Main.handleKeyPress key p = p) /\
  (Player.state_ p <> Player.Error ->
   volume_level (Main.handleKeyPress key p) =
   match key with
   | Main.GLFW_KEY_UP => Z.min SDL_MIX_MAXVOLUME (volume_level p + 8)
   | Main.GLFW_KEY_DOWN => Z.max 0 (volume_level p - 8)
   | Main.GLFW_KEY_M => if 0 <? volume_level p then 0 else SDL_MIX_MAXVOLUME
   | _ => volume_level p
   end).
Proof.
  unfold SDL_MIX_MAXVOLUME. intros Hv. unfold Main.handleKeyPress, Player.getState.
  split; [intros ->; reflexivity|]. intros Hst.
  destruct (Player.State_eqb (Player.state_ p) Player.Error) eqn:Eerr.
  { destruct (Player.state_ p); try discriminate. contradiction. }
  clear Eerr Hst.
  assert (Hpause : volume_level (Player.pause p) = volume_level p).
  { unfold Player.pause. destruct (negb _); [reflexivity|].
    unfold volume_level, AudioPlayer.pause. cbn. now destruct (negb _). }
  assert (Hresume : volume_level (Player.resume p) = volume_level p).
  { unfold Player.resume. destruct (negb _); [reflexivity|].
    unfold volume_level. cbn. unfold AudioPlayer.isPaused.
    destruct (AudioPlayer.paused_ _); [|reflexivity].
    unfold AudioPlayer.resume. cbn. now destruct (negb _). }
  assert (Hkeys : volume_level
            (if Player.State_eqb (Player.state_ p) Player.Playing then Player.pause p
             else if Player.State_eqb (Player.state_ p) Player.Paused
                  then Player.resume p else p) = volume_level p).
  { destruct (Player.State_eqb _ Player.Playing); [exact Hpause|].
    destruct (Player.State_eqb _ Player.Paused); [exact Hresume|reflexivity]. }
  unfold Player.setVolume, Player.getVolume, AudioPlayer.getVolume, SDL_MIX_MAXVOLUME.
  unfold volume_level in *.
  set (a := Player.audio_player_ p) in *. set (v := AudioPlayer.volume_ a) in *.
  change (inject_Z v / inject_Z 128)%Q with (v * 1 # 128).
  destruct key; try exact Hkeys; try reflexivity; cbn [Player.audio_player_
    Player.set_audio_player Main.dadd Main.dsub].
  - (* UP *)
    unfold Main.dmin. cbn [dlt].
    destruct (Qltb 1 ((v * 1 # 128) + (1 # 16))) eqn:E.
    + apply Qltb_lt in E. unfold Qlt in E. cbn in E.
      rewrite (setVolume_level 1 128 a); [lia|lia|reflexivity].
    + apply Qltb_ge in E. unfold Qle in E. cbn in E.
      rewrite (setVolume_level _ (v + 8) a); [lia|lia|].
      unfold Qeq. cbn. lia.
  - (* DOWN *)
    unfold Main.dmax. cbn [dlt].
    destruct (Qltb ((v * 1 # 128) - (1 # 16)) 0) eqn:E.
    + apply Qltb_lt in E. unfold Qlt in E. cbn in E.
      rewrite (setVolume_level 0 0 a); [lia|lia|reflexivity].
    + apply Qltb_ge in E. unfold Qle in E. cbn in E.
      rewrite (setVolume_level _ (v - 8) a); [lia|lia|].
      unfold Qeq. cbn. lia.
  - (* M *)
    cbn [dlt]. unfold Qltb. cbn [Qnum Qden].
    replace (0 * 128) with 0 by lia. replace (v * 1 * 1) with v by lia.
    destruct (0 <? v); cbn [Player.audio_player_ Player.set_audio_player].
    + now rewrite (setVolume_level 0 0 a).
    + now rewrite (setVolume_level 1 128 a).
Qed.

Lemma volume_keys_step_by_eight_witness :
  map (fun key => volume_level (Main.handleKeyPress key playing_sample))
      [Main.GLFW_KEY_DOWN; Main.GLFW_KEY_UP; Main.GLFW_KEY_M]
  = [120; 128; 0].
Proof.
  assert (Hv : 0 <= volume_level playing_sample <= SDL_MIX_MAXVOLUME)
    by (vm_compute; split; discriminate).
  assert (Hs : Player.state_ playing_sample <> Player.Error) by (vm_compute; discriminate).
  cbn [map].
  rewrite (proj2 (volume_keys_step_by_eight Main.GLFW_KEY_DOWN playing_sample Hv) Hs).
  rewrite (proj2 (volume_keys_step_by_eight Main.GLFW_KEY_UP playing_sample Hv) Hs).
  rewrite (proj2 (volume_keys_step_by_eight Main.GLFW_KEY_M playing_sample Hv) Hs).
  vm_compute. reflexivity.
Defined.

(** X14. The one way [open] enters the state Error is a renderer that does
    not start. It then returns false with both sources closed again, but
    the audio output it had just initialised is left as it was: the device
    is open and the producer thread runs. The renderer either was running
    already or the window could not be made. *)
Theorem open_error_leaves_audio_output_open
    (H : Player.Host) (filename : string) (p : Player.t) :
  Player.state_ p = Player.Stopped ->
  let p' := snd (Player.open H filename p) in
  Player.state_ p' = Player.Error ->
  fst (Player.open H filename p) = false /\
  StreamSource.demuxer_ (Player.video_reader_ p') = None /\
  StreamSource.demuxer_ (Player.audio_reader_ p') = None /\
  AudioPlayer.audio_dev_ (Player.audio_player_ p') <> 0 /\
  AudioPlayer.producer_thread_ (Player.audio_player_ p') = true /\
  Player.render_thread_ p' = Player.render_thread_ p /\
  (GLRenderer.running_ (Player.renderer_ p) = true \/
   GLRenderer.glfwInit_ok (Player.window_host H) = false \/
   GLRenderer.glfwCreateWindow_ok (Player.window_host H) = false).
Proof.
  intros Hst. cbv zeta. unfold Player.open, Player.getState. rewrite Hst.
  cbn [Player.State_eqb negb].
  destruct (StreamSource.open _ _ (Player.video_reader_ p)) as [video_ok v].
  cbv zeta. destruct video_ok; cbn [negb];
    [|cbn; rewrite Hst; discriminate].
  destruct (StreamSource.open _ _ _) as [audio_ok a].
  destruct audio_ok; cbn [negb]; [|cbn; rewrite Hst; discriminate].
  destruct (AudioPlayer.initialize _ _ _) as [init_ok ap] eqn:Einit.
  destruct init_ok; cbn [negb]; [|cbn; rewrite Hst; discriminate].
  destruct (AudioPlayer_initialize_ok _ _ _ _ Einit) as (Hdev & Hthread & _).
  unfold GLRenderer.start.
  cbn [Player.renderer_ Player.set_audio_player Player.set_audio_reader
       Player.set_video_reader].
  destruct (StreamSource_close_fields v) as (Hv & _).
  destruct (StreamSource_close_fields a) as (Ha & _).
  destruct (GLRenderer.running_ (Player.renderer_ p)) eqn:Erun;
    [cbn; intros _; split_and!; try done; now left|].
  destruct (GLRenderer.glfwInit_ok (Player.window_host H)) eqn:Eglfw; cbn [negb];
    [|cbn; intros _; split_and!; try done; right; now left].
  destruct (GLRenderer.glfwCreateWindow_ok (Player.window_host H)) eqn:Ewin; cbn [negb];
    [cbn; discriminate|].
  cbn. intros _. split_and!; try done. right. now right.
Qed.

Lemma open_error_leaves_audio_output_open_witness :
  Player.state_ (snd (Player.open headless_host_sample "movie.mp4" Player.new))
    = Player.Error /\
  AudioPlayer.audio_dev_
    (Player.audio_player_
       (snd (Player.open headless_host_sample "movie.mp4" Player.new))) <> 0.
Proof.
  split; [vm_compute; reflexivity|].
  apply (open_error_leaves_audio_output_open headless_host_sample "movie.mp4" Player.new);
    vm_compute; reflexivity.
Defined.


Lemma seek_packets_no_packet_is_end_of_file_witness :
  exists dmx',
    StreamSource.demuxer_
      (snd (StreamSource.seek_packets lib_sample 11 1000000000 0 video_source_sample))
      = Some dmx' /\
    Demuxer.isEOF dmx' = true /\
    StreamSource.pending_count
      (snd (StreamSource.seek_packets lib_sample 11 1000000000 0 video_source_sample))
      = 0%nat.
Proof.
  assert (Hexit : fst (StreamSource.seek_packets lib_sample 11 1000000000 0
                         video_source_sample) = StreamSource.NoPacket)
    by (vm_compute; reflexivity).
  destruct (StreamSource.seek_packets lib_sample 11 1000000000 0 video_source_sample)
    as [e s'] eqn:E.
  cbn [fst snd] in *. subst e.
  apply (seek_packets_no_packet_is_end_of_file lib_sample 11 1000000000 0
           video_source_sample s'); [| |exact E].
  - eexists _, _, _. split_and!; try (vm_compute; reflexivity).
    + vm_compute. discriminate.
    + vm_compute. repeat constructor.
  - vm_compute. lia.
Defined.
